(** * WAFPolicy controller of the Coraza Kubernetes operator

    A shallow embedding of [internal/controller]: the status-condition
    helpers and [createOrUpdate] of utils.go, and the WAFPolicy reconciler
    ([Reconcile], [reconcileForGateway], [reconcileForHTTPRoute],
    [ensureEngine], [handleDeletion], [setNotAccepted],
    [findPoliciesForTarget]).

    Besides the controller, the file embeds the name helpers of the chart
    (templates/_helpers.tpl, module [helm]) and the resource builders of the
    integration-test framework (module [framework]).

    The API server is external to the program.  Every call the Go code makes
    on [client.Client], on the event recorder and on the clock is kept as a
    node of a program tree ([Prog]); a run pairs each call with the answer
    the environment gave.  Statements quantify over all runs, so they hold
    whatever the API server answers. *)

From Stdlib Require Import ZArith List.
From stdpp Require Import base option list strings gmap.
Import ListNotations.

Local Open Scope string_scope.
Local Open Scope Z_scope.

#[local] Set Warnings "-register-all".

(* ------------------------------------------------------------------------- *)
(** ** Go errors *)
(* ------------------------------------------------------------------------- *)

(** [metav1.StatusReason], the reasons of an API status error. *)
Inductive StatusReason :=
| StatusReasonUnknown
| StatusReasonNotFound
| StatusReasonAlreadyExists
| StatusReasonConflict
| StatusReasonInvalid
| StatusReasonForbidden
| StatusReasonTimeout
| StatusReasonInternalError.

(** A non-nil Go [error].  A nil error is [None] of [option error]. *)
Inductive error :=
| StatusError (reason : StatusReason) (message : string)
| errors_New (text : string)
| fmt_Errorf (text : string)
| fmt_Errorf_w (text : string) (cause : error).

#[global] Instance StatusReason_eq_dec : EqDecision StatusReason.
Proof. solve_decision. Defined.

#[global] Instance error_eq_dec : EqDecision error.
Proof. solve_decision. Defined.

(** [err.Error()]; for a [%w] wrapper the text is the formatted prefix and the
    cause is printed after it. *)
Fixpoint Error (e : error) : string :=
  match e with
  | StatusError _ m => m
  | errors_New t => t
  | fmt_Errorf t => t
  | fmt_Errorf_w t c => t +:+ Error c
  end.

(** [apierrors.ReasonForError]: looks through [%w] wrappers ([errors.As]). *)
Fixpoint ReasonForError (e : error) : StatusReason :=
  match e with
  | StatusError r _ => r
  | fmt_Errorf_w _ c => ReasonForError c
  | _ => StatusReasonUnknown
  end.

Definition IsNotFound (e : error) : bool :=
  bool_decide (ReasonForError e = StatusReasonNotFound).

Definition IsConflict (e : error) : bool :=
  bool_decide (ReasonForError e = StatusReasonConflict).

(** The answer of a client call that fills in an object: the object, or the
    error. *)
Inductive answer (A : Type) :=
| Ok (a : A)
| Err (e : error).
Arguments Ok {A} a.
Arguments Err {A} e.

(** [%q] of [fmt.Sprintf] on an object name: the name between two quotes.
    Go's [%q] also escapes a quote, a backslash and a non-printable byte
    inside the name; the embedding leaves that out, so for a name that holds
    one (a DNS label holds none) the message texts differ.  No statement
    below depends on the quoting. *)
Definition dquote : string := String (Ascii.ascii_of_nat 34) EmptyString.
Definition fmt_q (s : string) : string := dquote +:+ s +:+ dquote.

(* ------------------------------------------------------------------------- *)
(** ** Unstructured objects ([map[string]interface{}]) *)
(* ------------------------------------------------------------------------- *)

(** The JSON values an unstructured object holds.  A Go map is kept as an
    association list read and written through [map_get], [map_set] and
    [map_delete], which keep at most one binding per key. *)
Inductive value :=
| VNil
| VBool (b : bool)
| VInt (n : Z)
| VString (s : string)
| VSlice (l : list value)
| VMap (m : list (string * value)).

Fixpoint map_get (k : string) (m : list (string * value)) : option value :=
  match m with
  | [] => None
  | (k', v) :: m' => if decide (k' = k) then Some v else map_get k m'
  end.

Fixpoint map_set (k : string) (v : value) (m : list (string * value))
  : list (string * value) :=
  match m with
  | [] => [(k, v)]
  | (k', v') :: m' =>
      if decide (k' = k) then (k, v) :: m' else (k', v') :: map_set k v m'
  end.

Fixpoint map_delete (k : string) (m : list (string * value))
  : list (string * value) :=
  match m with
  | [] => []
  | (k', v') :: m' =>
      if decide (k' = k) then map_delete k m' else (k', v') :: map_delete k m'
  end.

(** The three shapes of the [(val, found, err)] triple the nested accessors
    return: [(v, true, nil)], [(zero, false, nil)] and [(zero, false, err)]. *)
Inductive nested (A : Type) :=
| NFound (a : A)
| NAbsent
| NError (e : error).
Arguments NFound {A} a.
Arguments NAbsent {A}.
Arguments NError {A} e.

Module unstructured.

Record Unstructured := { Object : list (string * value) }.

(** [unstructured.NestedFieldNoCopy]. *)
Fixpoint NestedFieldNoCopy (val : value) (fields : list string) : nested value :=
  match fields with
  | [] => NFound val
  | field :: rest =>
      match val with
      | VNil => NAbsent
      | VMap m =>
          match map_get field m with
          | Some v => NestedFieldNoCopy v rest
          | None => NAbsent
          end
      | _ => NError (fmt_Errorf "accessor error: expected map[string]interface{}")
      end
  end.

(** [unstructured.NestedSlice]. *)
Definition NestedSlice (obj : list (string * value)) (fields : list string)
  : nested (list value) :=
  match NestedFieldNoCopy (VMap obj) fields with
  | NFound (VSlice l) => NFound l
  | NFound _ => NError (fmt_Errorf "accessor error: expected []interface{}")
  | NAbsent => NAbsent
  | NError e => NError e
  end.

(** [unstructured.NestedString]. *)
Definition NestedString (obj : list (string * value)) (fields : list string)
  : nested string :=
  match NestedFieldNoCopy (VMap obj) fields with
  | NFound (VString s) => NFound s
  | NFound _ => NError (fmt_Errorf "accessor error: expected string")
  | NAbsent => NAbsent
  | NError e => NError e
  end.

(** The unexported [getNestedString]: the empty string unless found. *)
Definition getNestedString (obj : list (string * value)) (fields : list string)
  : string :=
  match NestedString obj fields with
  | NFound s => s
  | _ => ""
  end.

(** [unstructured.SetNestedField]; [None] is the error it returns when a
    value on the path is not a map. *)
Fixpoint SetNestedField (m : list (string * value)) (v : value)
    (fields : list string) : option (list (string * value)) :=
  match fields with
  | [] => Some m
  | [last] => Some (map_set last v m)
  | field :: rest =>
      match map_get field m with
      | Some (VMap sub) =>
          sub' ← SetNestedField sub v rest; Some (map_set field (VMap sub') m)
      | Some _ => None
      | None =>
          sub' ← SetNestedField [] v rest; Some (map_set field (VMap sub') m)
      end
  end.

(** [unstructured.RemoveNestedField]. *)
Fixpoint RemoveNestedField (m : list (string * value)) (fields : list string)
  : list (string * value) :=
  match fields with
  | [] => m
  | [last] => map_delete last m
  | field :: rest =>
      match map_get field m with
      | Some (VMap sub) => map_set field (VMap (RemoveNestedField sub rest)) m
      | _ => m
      end
  end.

(** The method [setNestedField]: the error of [SetNestedField] is dropped. *)
Definition setNestedField (u : Unstructured) (v : value) (fields : list string)
  : Unstructured :=
  match SetNestedField (Object u) v fields with
  | Some m => {| Object := m |}
  | None => u
  end.

Definition GetAPIVersion (u : Unstructured) := getNestedString (Object u) ["apiVersion"].
Definition GetKind (u : Unstructured) := getNestedString (Object u) ["kind"].
Definition GetNamespace (u : Unstructured) := getNestedString (Object u) ["metadata"; "namespace"].
Definition GetName (u : Unstructured) := getNestedString (Object u) ["metadata"; "name"].
Definition GetResourceVersion (u : Unstructured) :=
  getNestedString (Object u) ["metadata"; "resourceVersion"].

Definition SetResourceVersion (u : Unstructured) (resourceVersion : string)
  : Unstructured :=
  if decide (resourceVersion = "")
  then {| Object := RemoveNestedField (Object u) ["metadata"; "resourceVersion"] |}
  else setNestedField u (VString resourceVersion) ["metadata"; "resourceVersion"].

End unstructured.
Export unstructured.

(* ------------------------------------------------------------------------- *)
(** ** Group, version, kind ([schema]) and object keys ([types]) *)
(* ------------------------------------------------------------------------- *)

Module schema.

Record GroupVersion := { gvGroup : string; gvVersion : string }.

Record GroupVersionKind := { Group : string; Version : string; Kind : string }.

(** [gvk.Empty()]: all three parts are empty. *)
Definition Empty (gvk : GroupVersionKind) : bool :=
  bool_decide (Group gvk = "") && bool_decide (Version gvk = "")
  && bool_decide (Kind gvk = "").

(** [strings.Index(s, "/")] together with the two slices around it. *)
Fixpoint cut_slash (s : string) : option (string * string) :=
  match s with
  | EmptyString => None
  | String c rest =>
      if decide (c = Ascii.ascii_of_nat 47) then Some (EmptyString, rest)
      else '(a, b) ← cut_slash rest; Some (String c a, b)
  end.

(** [schema.ParseGroupVersion]; [None] is its error (two slashes or more). *)
Definition ParseGroupVersion (gv : string) : option GroupVersion :=
  if decide (gv = "") then Some {| gvGroup := ""; gvVersion := "" |}
  else if decide (gv = "/") then Some {| gvGroup := ""; gvVersion := "" |}
  else match cut_slash gv with
       | None => Some {| gvGroup := ""; gvVersion := gv |}
       | Some (g, v) =>
           match cut_slash v with
           | None => Some {| gvGroup := g; gvVersion := v |}
           | Some _ => None
           end
       end.

(** [gv.String()] of [gvk.GroupVersion()]. *)
Definition GroupVersion_String (gvk : GroupVersionKind) : string :=
  if decide (Group gvk = "") then Version gvk
  else Group gvk +:+ "/" +:+ Version gvk.

End schema.
Export schema.

#[global] Instance GroupVersionKind_eq_dec : EqDecision GroupVersionKind.
Proof. solve_decision. Defined.

(** [u.GroupVersionKind()]: the zero value when the apiVersion does not
    parse. *)
Definition GroupVersionKind_of (u : Unstructured) : GroupVersionKind :=
  match ParseGroupVersion (GetAPIVersion u) with
  | None => {| Group := ""; Version := ""; Kind := "" |}
  | Some gv => {| Group := gvGroup gv; Version := gvVersion gv; Kind := GetKind u |}
  end.

(** [u.SetGroupVersionKind(gvk)]. *)
Definition SetGroupVersionKind (u : Unstructured) (gvk : GroupVersionKind)
  : Unstructured :=
  setNestedField
    (setNestedField u (VString (GroupVersion_String gvk)) ["apiVersion"])
    (VString (Kind gvk)) ["kind"].

(** [types.NamespacedName], also [client.ObjectKey]. *)
Record NamespacedName := { nnNamespace : string; nnName : string }.

#[global] Instance NamespacedName_eq_dec : EqDecision NamespacedName.
Proof. solve_decision. Defined.

(** [corev1.NamespaceDefault]. *)
Definition NamespaceDefault : string := "default".

(** [ctrl.Result]. *)
Record Result := { Requeue : bool; RequeueAfter : Z }.

Definition Result_zero : Result := {| Requeue := false; RequeueAfter := 0 |}.

(* ------------------------------------------------------------------------- *)
(** ** metav1: time, conditions, owner references, label selectors *)
(* ------------------------------------------------------------------------- *)

(** [metav1.Time], counted from Go's zero instant, so [IsZero] is [= 0]. *)
Definition Time := Z.

Definition Time_IsZero (t : Time) : bool := bool_decide (t = 0).

Inductive ConditionStatus := ConditionTrue | ConditionFalse | ConditionUnknown.

#[global] Instance ConditionStatus_eq_dec : EqDecision ConditionStatus.
Proof. solve_decision. Defined.

Record Condition := {
  Type_ : string;
  Status : ConditionStatus;
  ObservedGeneration : Z;
  LastTransitionTime : Time;
  Reason : string;
  Message : string
}.

#[global] Instance Condition_eq_dec : EqDecision Condition.
Proof. solve_decision. Defined.

Record OwnerReference := {
  orAPIVersion : string;
  orKind : string;
  orName : string;
  orUID : string;
  orController : option bool;
  orBlockOwnerDeletion : option bool
}.

#[global] Instance OwnerReference_eq_dec : EqDecision OwnerReference.
Proof. solve_decision. Defined.

Record LabelSelectorRequirement := {
  lsrKey : string;
  lsrOperator : string;
  lsrValues : list string
}.

#[global] Instance LabelSelectorRequirement_eq_dec : EqDecision LabelSelectorRequirement.
Proof. solve_decision. Defined.

Record LabelSelector := {
  MatchLabels : gmap string string;
  MatchExpressions : list LabelSelectorRequirement
}.

#[global] Instance LabelSelector_eq_dec : EqDecision LabelSelector.
Proof. solve_decision. Defined.

(** [corev1.ObjectReference]. *)
Record ObjectReference := {
  refKind : string;
  refNamespace : string;
  refName : string;
  refUID : string;
  refAPIVersion : string;
  refResourceVersion : string;
  refFieldPath : string
}.

#[global] Instance ObjectReference_eq_dec : EqDecision ObjectReference.
Proof. solve_decision. Defined.

(* ------------------------------------------------------------------------- *)
(** ** api/v1alpha1: WAFPolicy and Engine *)
(* ------------------------------------------------------------------------- *)

(** [gwapiv1alpha2.LocalPolicyTargetReferenceWithSectionName]. *)
Record TargetReference := {
  trGroup : string;
  trKind : string;
  trName : string;
  trSectionName : option string
}.

Record WAFPolicyRuleSetRef := { rsName : string }.

Record WAFPolicySpec := {
  TargetRef : TargetReference;
  RuleSet : WAFPolicyRuleSetRef;
  FailurePolicy : string
}.

Record WAFPolicyStatus := { Conditions : list Condition }.

(** [WAFPolicy]; the fields of the embedded [ObjectMeta] that the controller
    reads or writes are listed by name. *)
Record WAFPolicy := {
  Name : string;
  Namespace : string;
  UID : string;
  ResourceVersion : string;
  Generation : Z;
  DeletionTimestamp : option Time;
  Finalizers : list string;
  Spec : WAFPolicySpec;
  Status_ : WAFPolicyStatus
}.

#[global] Instance TargetReference_eq_dec : EqDecision TargetReference.
Proof. solve_decision. Defined.
#[global] Instance WAFPolicyRuleSetRef_eq_dec : EqDecision WAFPolicyRuleSetRef.
Proof. solve_decision. Defined.
#[global] Instance WAFPolicySpec_eq_dec : EqDecision WAFPolicySpec.
Proof. solve_decision. Defined.
#[global] Instance WAFPolicyStatus_eq_dec : EqDecision WAFPolicyStatus.
Proof. solve_decision. Defined.
#[global] Instance WAFPolicy_eq_dec : EqDecision WAFPolicy.
Proof. solve_decision. Defined.

(** The Engine types, with the fields [ensureEngine] fills in.  A Go pointer
    field is an [option]. *)
Record RuleSetCacheServerConfig := { PollIntervalSeconds : Z }.

Record IstioWasmConfig := {
  Image : string;
  Mode : string;
  WorkloadSelector : option LabelSelector;
  RuleSetCacheServer : option RuleSetCacheServerConfig
}.

Record IstioDriverConfig := { Wasm : option IstioWasmConfig }.

Record DriverConfig := { Istio : option IstioDriverConfig }.

Record EngineSpec := {
  esRuleSet : ObjectReference;
  esFailurePolicy : string;
  esDriver : DriverConfig
}.

Record Engine := {
  eName : string;
  eNamespace : string;
  eUID : string;
  eResourceVersion : string;
  eGeneration : Z;
  eOwnerReferences : list OwnerReference;
  eSpec : EngineSpec;
  eStatusConditions : list Condition
}.

#[global] Instance RuleSetCacheServerConfig_eq_dec : EqDecision RuleSetCacheServerConfig.
Proof. solve_decision. Defined.
#[global] Instance IstioWasmConfig_eq_dec : EqDecision IstioWasmConfig.
Proof. solve_decision. Defined.
#[global] Instance IstioDriverConfig_eq_dec : EqDecision IstioDriverConfig.
Proof. solve_decision. Defined.
#[global] Instance DriverConfig_eq_dec : EqDecision DriverConfig.
Proof. solve_decision. Defined.
#[global] Instance EngineSpec_eq_dec : EqDecision EngineSpec.
Proof. solve_decision. Defined.
#[global] Instance Engine_eq_dec : EqDecision Engine.
Proof. solve_decision. Defined.

(** Modelled from the spec: the constant [IstioIntegrationModeGateway] of the
    Engine types, which are not among the sources; the driver mode is the
    constant "gateway". *)
Definition IstioIntegrationModeGateway : string := "gateway".

(** The zero values [&wafv1alpha1.Engine{}] and [EngineSpec{}]. *)
Definition ObjectReference_zero : ObjectReference :=
  {| refKind := ""; refNamespace := ""; refName := ""; refUID := "";
     refAPIVersion := ""; refResourceVersion := ""; refFieldPath := "" |}.

Definition EngineSpec_zero : EngineSpec :=
  {| esRuleSet := ObjectReference_zero; esFailurePolicy := "";
     esDriver := {| Istio := None |} |}.

(* ------------------------------------------------------------------------- *)
(** ** Calls on the environment and program trees *)
(* ------------------------------------------------------------------------- *)

(** The calls of the controller on its collaborators: the clock
    ([metav1.Now], [time.Now]), the embedded [client.Client], its status
    writer, and the event recorder.  Log lines have no effect on the
    controller and are left out. *)
Inductive Call :=
| time_Now
| Get_WAFPolicy (key : NamespacedName)
| Update_WAFPolicy (obj : WAFPolicy)
| Status_Patch (obj base : WAFPolicy)
| List_WAFPolicy (namespace : string)
| Get_Engine (key : NamespacedName)
| Create_Engine (obj : Engine)
| Update_Engine (obj : Engine)
| Get_Unstructured (key : NamespacedName) (into : Unstructured)
| Create_Unstructured (obj : Unstructured)
| Update_Unstructured (obj : Unstructured)
| Recorder_Event (obj : WAFPolicy) (eventtype reason message : string).

(** What a call gives back.  A client call that succeeds writes the server's
    copy of the object into the Go object it was given; that copy is the
    [Ok] answer. *)
Definition Resp (c : Call) : Type :=
  match c with
  | time_Now => Time
  | Get_WAFPolicy _ => answer WAFPolicy
  | Update_WAFPolicy _ => answer WAFPolicy
  | Status_Patch _ _ => answer WAFPolicy
  | List_WAFPolicy _ => answer (list WAFPolicy)
  | Get_Engine _ => answer Engine
  | Create_Engine _ => answer Engine
  | Update_Engine _ => answer Engine
  | Get_Unstructured _ _ => answer Unstructured
  | Create_Unstructured _ => answer Unstructured
  | Update_Unstructured _ => answer Unstructured
  | Recorder_Event _ _ _ _ => unit
  end.

Inductive Prog (A : Type) : Type :=
| Ret (a : A)
| Do (c : Call) (k : Resp c -> Prog A).
Arguments Ret {A} a.
Arguments Do {A} c k.

Fixpoint bind {A B : Type} (p : Prog A) (f : A -> Prog B) : Prog B :=
  match p with
  | Ret a => f a
  | Do c k => Do c (fun r => bind (k r) f)
  end.

Definition call (c : Call) : Prog (Resp c) := Do c Ret.

Declare Scope prog_scope.
Delimit Scope prog_scope with prog.
Notation "x <- p ;; q" := (bind p (fun x => q))
  (at level 100, p at next level, right associativity) : prog_scope.
Notation "p ;; q" := (bind p (fun _ => q))
  (at level 100, right associativity) : prog_scope.

(** One call of a run with the answer it got. *)
Definition Event : Type := { c : Call & Resp c }.

Definition event (c : Call) (r : Resp c) : Event := existT c r.

Definition call_of (e : Event) : Call := projT1 e.

(** [Runs p tr a]: the program [p] makes the calls of [tr] in order, is
    given the answers of [tr], and returns [a]. *)
Fixpoint Runs {A : Type} (p : Prog A) (tr : list Event) (a : A) : Prop :=
  match p with
  | Ret x => tr = [] /\ a = x
  | Do c k => exists (r : Resp c) (tr' : list Event),
      tr = event c r :: tr' /\ Runs (k r) tr' a
  end.

(** An environment is a state and a way to answer each call from it. *)
Record Env := {
  env_state : Type;
  env_answer : forall c : Call, env_state -> Resp c * env_state
}.

(** [run env p s]: the result, the trace and the end state of [p] against
    the environment [env] started in [s]. *)
Fixpoint run {A : Type} (env : Env) (p : Prog A) (s : env_state env)
  : A * list Event * env_state env :=
  match p with
  | Ret a => (a, [], s)
  | Do c k =>
      let '(r, s') := env_answer env c s in
      let '(a, tr, s'') := run env (k r) s' in
      (a, event c r :: tr, s'')
  end.
Local Open Scope prog_scope.

(* ------------------------------------------------------------------------- *)
(** ** apimeta: status conditions *)
(* ------------------------------------------------------------------------- *)

Module apimeta.

(** Index of the first condition of the given type; the pointer
    [FindStatusCondition] returns points at that element. *)
Fixpoint findIndex (conditions : list Condition) (conditionType : string)
  : option nat :=
  match conditions with
  | [] => None
  | c :: rest =>
      if decide (Type_ c = conditionType) then Some O
      else S <$> findIndex rest conditionType
  end.

Definition FindStatusCondition (conditions : list Condition)
    (conditionType : string) : option Condition :=
  i ← findIndex conditions conditionType; conditions !! i.

Definition IsStatusConditionTrue (conditions : list Condition)
    (conditionType : string) : bool :=
  match FindStatusCondition conditions conditionType with
  | Some c => bool_decide (Status c = ConditionTrue)
  | None => false
  end.

Definition IsStatusConditionFalse (conditions : list Condition)
    (conditionType : string) : bool :=
  match FindStatusCondition conditions conditionType with
  | Some c => bool_decide (Status c = ConditionFalse)
  | None => false
  end.

Definition with_LastTransitionTime (c : Condition) (t : Time) : Condition :=
  {| Type_ := Type_ c; Status := Status c;
     ObservedGeneration := ObservedGeneration c; LastTransitionTime := t;
     Reason := Reason c; Message := Message c |}.

(** [SetStatusCondition]: a condition of a new type is appended; an
    existing one is updated in place, its transition time moving only when
    the status changes.  The clock is read only for a zero time. *)
Definition SetStatusCondition (conditions : list Condition)
    (newCondition : Condition) : Prog (list Condition) :=
  match findIndex conditions (Type_ newCondition) with
  | None =>
      newCondition <-
        (if Time_IsZero (LastTransitionTime newCondition)
         then (now <- call time_Now ;;
               Ret (with_LastTransitionTime newCondition now))
         else Ret newCondition) ;;
      Ret (conditions ++ [newCondition])%list
  | Some i =>
      match conditions !! i with
      | None => Ret conditions
      | Some existingCondition =>
          transition <-
            (if decide (Status existingCondition = Status newCondition)
             then Ret (LastTransitionTime existingCondition)
             else if Time_IsZero (LastTransitionTime newCondition)
                  then call time_Now
                  else Ret (LastTransitionTime newCondition)) ;;
          Ret (<[ i := {| Type_ := Type_ existingCondition;
                          Status := Status newCondition;
                          ObservedGeneration := ObservedGeneration newCondition;
                          LastTransitionTime := transition;
                          Reason := Reason newCondition;
                          Message := Message newCondition |} ]> conditions)
      end
  end.

(** [RemoveStatusCondition]: every condition of the type is dropped. *)
Definition RemoveStatusCondition (conditions : list Condition)
    (conditionType : string) : list Condition :=
  filter (fun c => Type_ c <> conditionType) conditions.

End apimeta.
Export apimeta.

(* ------------------------------------------------------------------------- *)
(** ** utils.go: status condition utilities *)
(* ------------------------------------------------------------------------- *)

Definition setConditionTrue (conditions : list Condition) (generation : Z)
    (conditionType reason message : string) : Prog (list Condition) :=
  now <- call time_Now ;;
  SetStatusCondition conditions
    {| Type_ := conditionType; Status := ConditionTrue;
       ObservedGeneration := generation; LastTransitionTime := now;
       Reason := reason; Message := message |}.

Definition setConditionFalse (conditions : list Condition) (generation : Z)
    (conditionType reason message : string) : Prog (list Condition) :=
  now <- call time_Now ;;
  SetStatusCondition conditions
    {| Type_ := conditionType; Status := ConditionFalse;
       ObservedGeneration := generation; LastTransitionTime := now;
       Reason := reason; Message := message |}.

Definition setStatusConditionDegraded (conditions : list Condition)
    (generation : Z) (reason message : string) : Prog (list Condition) :=
  conditions <- setConditionFalse conditions generation "Ready" reason message ;;
  conditions <- setConditionTrue conditions generation "Degraded" reason message ;;
  Ret (RemoveStatusCondition conditions "Progressing").

Definition setStatusProgressing (conditions : list Condition)
    (generation : Z) (reason message : string) : Prog (list Condition) :=
  conditions <- setConditionFalse conditions generation "Ready" reason message ;;
  setConditionTrue conditions generation "Progressing" reason message.

Definition setStatusReady (conditions : list Condition)
    (generation : Z) (reason message : string) : Prog (list Condition) :=
  conditions <- setConditionTrue conditions generation "Ready" reason message ;;
  Ret (RemoveStatusCondition
         (RemoveStatusCondition conditions "Degraded") "Progressing").

(* ------------------------------------------------------------------------- *)
(** ** utils.go: createOrUpdate for unstructured objects *)
(* ------------------------------------------------------------------------- *)

Definition createOrUpdate (desired : Unstructured) : Prog (option error) :=
  let gvk := GroupVersionKind_of desired in
  if Empty gvk then
    Ret (Some (errors_New "desired object must have GroupVersionKind set"))
  else
    let namespace := GetNamespace desired in
    let name := GetName desired in
    if decide (name = "") then
      Ret (Some (errors_New "desired object must have a name set"))
    else
      let namespace :=
        if decide (namespace = "") then NamespaceDefault else namespace in
      let resource :=
        SetGroupVersionKind {| Object := [] |} (GroupVersionKind_of desired) in
      got <- call (Get_Unstructured
                     {| nnNamespace := namespace; nnName := GetName desired |}
                     resource) ;;
      match got with
      | Err err =>
          if IsNotFound err then
            created <- call (Create_Unstructured desired) ;;
            match created with
            | Err err =>
                Ret (Some (fmt_Errorf_w
                  ("failed to create " +:+ Kind gvk +:+ "/" +:+ name
                   +:+ " in namespace " +:+ namespace +:+ ": ") err))
            | Ok _ => Ret None
            end
          else
            Ret (Some (fmt_Errorf_w
              ("failed to get " +:+ Kind gvk +:+ "/" +:+ name
               +:+ " in namespace " +:+ namespace +:+ ": ") err))
      | Ok resource =>
          let desired := SetResourceVersion desired (GetResourceVersion resource) in
          updated <- call (Update_Unstructured desired) ;;
          match updated with
          | Err err =>
              Ret (Some (fmt_Errorf_w
                ("failed to update " +:+ Kind gvk +:+ "/" +:+ name
                 +:+ " in namespace " +:+ namespace +:+ ": ") err))
          | Ok _ => Ret None
          end
      end.

(* ------------------------------------------------------------------------- *)
(** ** controllerutil: finalizers, controller references, CreateOrUpdate *)
(* ------------------------------------------------------------------------- *)

Definition with_Finalizers (p : WAFPolicy) (fs : list string) : WAFPolicy :=
  {| Name := Name p; Namespace := Namespace p; UID := UID p;
     ResourceVersion := ResourceVersion p; Generation := Generation p;
     DeletionTimestamp := DeletionTimestamp p; Finalizers := fs;
     Spec := Spec p; Status_ := Status_ p |}.

Definition with_Conditions (p : WAFPolicy) (cs : list Condition) : WAFPolicy :=
  {| Name := Name p; Namespace := Namespace p; UID := UID p;
     ResourceVersion := ResourceVersion p; Generation := Generation p;
     DeletionTimestamp := DeletionTimestamp p; Finalizers := Finalizers p;
     Spec := Spec p; Status_ := {| Conditions := cs |} |}.

Definition with_eSpec (e : Engine) (s : EngineSpec) : Engine :=
  {| eName := eName e; eNamespace := eNamespace e; eUID := eUID e;
     eResourceVersion := eResourceVersion e; eGeneration := eGeneration e;
     eOwnerReferences := eOwnerReferences e; eSpec := s;
     eStatusConditions := eStatusConditions e |}.

Definition with_eOwnerReferences (e : Engine) (rs : list OwnerReference) : Engine :=
  {| eName := eName e; eNamespace := eNamespace e; eUID := eUID e;
     eResourceVersion := eResourceVersion e; eGeneration := eGeneration e;
     eOwnerReferences := rs; eSpec := eSpec e;
     eStatusConditions := eStatusConditions e |}.

(** [controllerutil.OperationResult]. *)
Inductive OperationResult :=
| OperationResultNone
| OperationResultCreated
| OperationResultUpdated.

(** The strings behind the [OperationResult] constants ([%s] prints them). *)
Definition OperationResult_String (r : OperationResult) : string :=
  match r with
  | OperationResultNone => "unchanged"
  | OperationResultCreated => "created"
  | OperationResultUpdated => "updated"
  end.

Module controllerutil.

Definition ContainsFinalizer (o : WAFPolicy) (finalizer : string) : bool :=
  bool_decide (finalizer ∈ Finalizers o).

Definition AddFinalizer (o : WAFPolicy) (finalizer : string) : WAFPolicy :=
  if ContainsFinalizer o finalizer then o
  else with_Finalizers o (Finalizers o ++ [finalizer])%list.

Definition RemoveFinalizer (o : WAFPolicy) (finalizer : string) : WAFPolicy :=
  with_Finalizers o (filter (fun f => f <> finalizer) (Finalizers o)).

(** The group, version and kind the scheme gives for a WAFPolicy, which
    [init] registers. *)
Definition WAFPolicy_GVK : GroupVersionKind :=
  {| Group := "waf.k8s.coraza.io"; Version := "v1alpha1"; Kind := "WAFPolicy" |}.

(** [validateOwner] for an owner and an object that are both namespaced. *)
Definition validateOwner (owner : WAFPolicy) (object : Engine) : option error :=
  if decide (Namespace owner = "") then None
  else if decide (eNamespace object = "") then
    Some (fmt_Errorf "cluster-scoped resource must not have a namespace-scoped owner")
  else if decide (Namespace owner = eNamespace object) then None
  else Some (fmt_Errorf "cross-namespace owner references are disallowed").

(** [metav1.GetControllerOf]: the first owner reference marked as
    controller. *)
Definition GetControllerOf (controllee : Engine) : option OwnerReference :=
  head (filter (fun ref => orController ref = Some true)
               (eOwnerReferences controllee)).

Definition referSameObject (a b : OwnerReference) : bool :=
  match ParseGroupVersion (orAPIVersion a), ParseGroupVersion (orAPIVersion b) with
  | Some aGV, Some bGV =>
      bool_decide (gvGroup aGV = gvGroup bGV)
      && bool_decide (orKind a = orKind b)
      && bool_decide (orName a = orName b)
  | _, _ => false
  end.

Fixpoint indexOwnerRef (ownerReferences : list OwnerReference)
    (ref : OwnerReference) : option nat :=
  match ownerReferences with
  | [] => None
  | r :: rest =>
      if referSameObject r ref then Some O else S <$> indexOwnerRef rest ref
  end.

Definition upsertOwnerRef (ref : OwnerReference) (object : Engine) : Engine :=
  let owners := eOwnerReferences object in
  match indexOwnerRef owners ref with
  | None => with_eOwnerReferences object (owners ++ [ref])%list
  | Some idx => with_eOwnerReferences object (<[ idx := ref ]> owners)
  end.

(** [SetControllerReference(owner, controlled, scheme)]: the object as it
    is left, and the error.  The error for an object that another controller
    owns stands for controller-runtime's [AlreadyOwnedError], whose text
    also names the object and its owner; only that it is an error matters
    below. *)
Definition SetControllerReference (owner : WAFPolicy) (controlled : Engine)
  : Engine * option error :=
  match validateOwner owner controlled with
  | Some err => (controlled, Some err)
  | None =>
      let ref :=
        {| orAPIVersion := GroupVersion_String WAFPolicy_GVK;
           orKind := Kind WAFPolicy_GVK;
           orName := Name owner;
           orUID := UID owner;
           orController := Some true;
           orBlockOwnerDeletion := Some true |} in
      match GetControllerOf controlled with
      | Some existing =>
          if referSameObject existing ref
          then (upsertOwnerRef ref controlled, None)
          else (controlled,
                Some (fmt_Errorf "Object is already owned by another controller"))
      | None => (upsertOwnerRef ref controlled, None)
      end
  end.

Definition ObjectKeyFromObject (obj : Engine) : NamespacedName :=
  {| nnNamespace := eNamespace obj; nnName := eName obj |}.

(** The unexported [mutate]: runs the function and refuses a changed
    key. *)
Definition mutate (f : Engine -> Engine * option error) (key : NamespacedName)
    (obj : Engine) : Engine * option error :=
  let '(obj, err) := f obj in
  match err with
  | Some err => (obj, Some err)
  | None =>
      if decide (key = ObjectKeyFromObject obj) then (obj, None)
      else (obj, Some (fmt_Errorf
             "MutateFn cannot mutate object name and/or object namespace"))
  end.

(** [controllerutil.CreateOrUpdate] on an Engine: the operation, the error
    and the object as the call leaves it. *)
Definition CreateOrUpdate (obj : Engine) (f : Engine -> Engine * option error)
  : Prog (OperationResult * option error * Engine) :=
  let key := ObjectKeyFromObject obj in
  got <- call (Get_Engine key) ;;
  match got with
  | Err err =>
      if negb (IsNotFound err) then Ret (OperationResultNone, Some err, obj)
      else
        let '(obj, merr) := mutate f key obj in
        match merr with
        | Some err => Ret (OperationResultNone, Some err, obj)
        | None =>
            created <- call (Create_Engine obj) ;;
            match created with
            | Err err => Ret (OperationResultNone, Some err, obj)
            | Ok obj => Ret (OperationResultCreated, None, obj)
            end
        end
  | Ok obj =>
      let existing := obj in
      let '(obj, merr) := mutate f key obj in
      match merr with
      | Some err => Ret (OperationResultNone, Some err, obj)
      | None =>
          if decide (existing = obj) then Ret (OperationResultNone, None, obj)
          else
            updated <- call (Update_Engine obj) ;;
            match updated with
            | Err err => Ret (OperationResultNone, Some err, obj)
            | Ok obj => Ret (OperationResultUpdated, None, obj)
            end
      end
  end.

End controllerutil.
Export controllerutil.

(* ------------------------------------------------------------------------- *)
(** ** WAFPolicy controller *)
(* ------------------------------------------------------------------------- *)

Definition EngineNamePrefix : string := "wafpolicy-".
Definition wafPolicyControllerName : string := "waf.k8s.coraza.io/wafpolicy-controller".
Definition wafPolicyFinalizer : string := "waf.k8s.coraza.io/wafpolicy-finalizer".

Record WAFPolicyTranslatorConfig := {
  DefaultWasmImage : string;
  DefaultPollInterval : Z;
  EnvoyClusterName : string
}.

(** [WAFPolicyReconciler]; its client, scheme and recorder are the
    environment of the program trees. *)
Record WAFPolicyReconciler := { Config : WAFPolicyTranslatorConfig }.

Definition GatewayGVK : GroupVersionKind :=
  {| Group := "gateway.networking.k8s.io"; Version := "v1"; Kind := "Gateway" |}.

Definition HTTPRouteGVK : GroupVersionKind :=
  {| Group := "gateway.networking.k8s.io"; Version := "v1"; Kind := "HTTPRoute" |}.

Definition gatewayNameLabel : string := "gateway.networking.k8s.io/gateway-name".

(** [t.IsZero()] on the pointer [policy.DeletionTimestamp]: nil is zero. *)
Definition DeletionTimestamp_IsZero (policy : WAFPolicy) : bool :=
  match DeletionTimestamp policy with
  | None => true
  | Some t => Time_IsZero t
  end.

(** The first value of the [(val, found, err)] triple of [NestedString]: the
    empty string unless found. *)
Definition nested_string (n : nested string) : string :=
  match n with
  | NFound s => s
  | _ => ""
  end.

Definition setNotAccepted (policy : WAFPolicy) (reason message : string)
  : Prog (option error) :=
  call (Recorder_Event policy "Warning" reason message) ;;
  let base := policy in
  now <- call time_Now ;;
  conditions <- SetStatusCondition (Conditions (Status_ policy))
    {| Type_ := "Accepted"; Status := ConditionFalse;
       ObservedGeneration := Generation policy; LastTransitionTime := now;
       Reason := reason; Message := message |} ;;
  let policy :=
    with_Conditions policy (RemoveStatusCondition conditions "Programmed") in
  patched <- call (Status_Patch policy base) ;;
  match patched with
  | Err err => Ret (Some err)
  | Ok _ => Ret None
  end.

(** The Engine spec the mutate function of [ensureEngine] writes. *)
Definition engineSpec (r : WAFPolicyReconciler) (policy : WAFPolicy)
    (workloadLabels : gmap string string) : EngineSpec :=
  {| esRuleSet :=
       {| refKind := "RuleSet"; refNamespace := "";
          refName := rsName (RuleSet (Spec policy)); refUID := "";
          refAPIVersion := "waf.k8s.coraza.io/v1alpha1";
          refResourceVersion := ""; refFieldPath := "" |};
     esFailurePolicy := FailurePolicy (Spec policy);
     esDriver :=
       {| Istio := Some
            {| Wasm := Some
                 {| Image := DefaultWasmImage (Config r);
                    Mode := IstioIntegrationModeGateway;
                    WorkloadSelector := Some
                      {| MatchLabels := workloadLabels;
                         MatchExpressions := [] |};
                    RuleSetCacheServer := Some
                      {| PollIntervalSeconds := DefaultPollInterval (Config r) |}
                 |} |} |} |}.

(** The object [ensureEngine] starts from: only name and namespace are set. *)
Definition engineObject (policy : WAFPolicy) : Engine :=
  {| eName := EngineNamePrefix +:+ Name policy;
     eNamespace := Namespace policy;
     eUID := ""; eResourceVersion := ""; eGeneration := 0;
     eOwnerReferences := []; eSpec := EngineSpec_zero;
     eStatusConditions := [] |}.

(** The mutate function [ensureEngine] hands to [CreateOrUpdate]. *)
Definition engineMutateFn (r : WAFPolicyReconciler) (policy : WAFPolicy)
    (workloadLabels : gmap string string) (engine : Engine)
  : Engine * option error :=
  let engine := with_eSpec engine (engineSpec r policy workloadLabels) in
  SetControllerReference policy engine.

Definition ensureEngine (r : WAFPolicyReconciler) (policy : WAFPolicy)
    (workloadLabels : gmap string string) : Prog (Result * option error) :=
  let engine := engineObject policy in
  res <- CreateOrUpdate engine (engineMutateFn r policy workloadLabels) ;;
  let '(result, err, engine) := res in
  match err with
  | Some err =>
      call (Recorder_Event policy "Warning" "EngineSyncFailed"
              ("Failed to create/update Engine: " +:+ Error err)) ;;
      let base := policy in
      conditions <- setConditionFalse (Conditions (Status_ policy))
        (Generation policy) "Programmed" "EngineSyncFailed"
        ("Failed to create/update Engine: " +:+ Error err) ;;
      let policy := with_Conditions policy conditions in
      call (Status_Patch policy base) ;;
      Ret (Result_zero, Some err)
  | None =>
      let base := policy in
      now <- call time_Now ;;
      conditions <- SetStatusCondition (Conditions (Status_ policy))
        {| Type_ := "Accepted"; Status := ConditionTrue;
           ObservedGeneration := Generation policy; LastTransitionTime := now;
           Reason := "Accepted"; Message := "WAFPolicy is accepted" |} ;;
      now <- call time_Now ;;
      conditions <- SetStatusCondition conditions
        {| Type_ := "Programmed"; Status := ConditionTrue;
           ObservedGeneration := Generation policy; LastTransitionTime := now;
           Reason := "Programmed";
           Message := "Engine " +:+ fmt_q (eName engine) +:+ " "
                      +:+ OperationResult_String result |} ;;
      let policy := with_Conditions policy conditions in
      patched <- call (Status_Patch policy base) ;;
      match patched with
      | Err err => Ret (Result_zero, Some err)
      | Ok policy =>
          call (Recorder_Event policy "Normal" "Programmed"
                  ("Engine " +:+ eNamespace engine +:+ "/" +:+ eName engine
                   +:+ " " +:+ OperationResult_String result)) ;;
          Ret (Result_zero, None)
      end
  end.

Definition reconcileForGateway (r : WAFPolicyReconciler) (policy : WAFPolicy)
  : Prog (Result * option error) :=
  let gatewayName := trName (TargetRef (Spec policy)) in
  let gw := SetGroupVersionKind {| Object := [] |} GatewayGVK in
  got <- call (Get_Unstructured
                 {| nnNamespace := Namespace policy; nnName := gatewayName |} gw) ;;
  match got with
  | Err err =>
      if IsNotFound err then
        err <- setNotAccepted policy "TargetNotFound"
                 ("Gateway " +:+ fmt_q gatewayName +:+ " not found") ;;
        Ret ({| Requeue := true; RequeueAfter := 0 |}, err)
      else Ret (Result_zero, Some err)
  | Ok gw =>
      let workloadLabels : gmap string string :=
        {[ gatewayNameLabel := gatewayName ]} in
      ensureEngine r policy workloadLabels
  end.

Definition reconcileForHTTPRoute (r : WAFPolicyReconciler) (policy : WAFPolicy)
  : Prog (Result * option error) :=
  let routeName := trName (TargetRef (Spec policy)) in
  let route := SetGroupVersionKind {| Object := [] |} HTTPRouteGVK in
  got <- call (Get_Unstructured
                 {| nnNamespace := Namespace policy; nnName := routeName |} route) ;;
  match got with
  | Err err =>
      if IsNotFound err then
        err <- setNotAccepted policy "TargetNotFound"
                 ("HTTPRoute " +:+ fmt_q routeName +:+ " not found") ;;
        Ret ({| Requeue := true; RequeueAfter := 0 |}, err)
      else Ret (Result_zero, Some err)
  | Ok route =>
      match NestedSlice (Object route) ["spec"; "parentRefs"] with
      | NError _ | NAbsent | NFound [] =>
          err <- setNotAccepted policy "NoParentGateway"
                   ("HTTPRoute " +:+ fmt_q routeName +:+ " has no parentRefs") ;;
          Ret (Result_zero, err)
      | NFound (VMap firstParent :: _) =>
          let gatewayName := nested_string (NestedString firstParent ["name"]) in
          if decide (gatewayName = "") then
            err <- setNotAccepted policy "InvalidParentRef"
                     ("HTTPRoute " +:+ fmt_q routeName
                      +:+ " parentRef has no gateway name") ;;
            Ret (Result_zero, err)
          else
            let workloadLabels : gmap string string :=
              {[ gatewayNameLabel := gatewayName ]} in
            ensureEngine r policy workloadLabels
      | NFound (_ :: _) =>
          err <- setNotAccepted policy "InvalidParentRef"
                   ("HTTPRoute " +:+ fmt_q routeName +:+ " has invalid parentRef") ;;
          Ret (Result_zero, err)
      end
  end.

Definition handleDeletion (policy : WAFPolicy) : Prog (Result * option error) :=
  if ContainsFinalizer policy wafPolicyFinalizer then
    let policy := RemoveFinalizer policy wafPolicyFinalizer in
    updated <- call (Update_WAFPolicy policy) ;;
    match updated with
    | Err err => Ret (Result_zero, Some err)
    | Ok _ => Ret (Result_zero, None)
    end
  else Ret (Result_zero, None).

(** The [switch kind] at the end of [Reconcile]. *)
Definition reconcileTarget (r : WAFPolicyReconciler) (policy : WAFPolicy)
  : Prog (Result * option error) :=
  let kind := trKind (TargetRef (Spec policy)) in
  if decide (kind = "Gateway") then reconcileForGateway r policy
  else if decide (kind = "HTTPRoute") then reconcileForHTTPRoute r policy
  else
    err <- setNotAccepted policy "InvalidTargetRef"
             ("Unsupported targetRef kind: " +:+ kind) ;;
    Ret (Result_zero, err).

Definition Reconcile (r : WAFPolicyReconciler) (req : NamespacedName)
  : Prog (Result * option error) :=
  got <- call (Get_WAFPolicy req) ;;
  match got with
  | Err err =>
      if IsNotFound err then Ret (Result_zero, None)
      else Ret (Result_zero, Some err)
  | Ok policy =>
      if negb (DeletionTimestamp_IsZero policy) then handleDeletion policy
      else if negb (ContainsFinalizer policy wafPolicyFinalizer) then
        let policy := AddFinalizer policy wafPolicyFinalizer in
        updated <- call (Update_WAFPolicy policy) ;;
        match updated with
        | Err err => Ret (Result_zero, Some err)
        | Ok policy => reconcileTarget r policy
        end
      else reconcileTarget r policy
  end.

Definition findPoliciesForTarget (kind name namespace : string)
  : Prog (list NamespacedName) :=
  listed <- call (List_WAFPolicy namespace) ;;
  match listed with
  | Err _ => Ret []
  | Ok items =>
      Ret (map (fun p => {| nnNamespace := Namespace p; nnName := Name p |})
             (filter (fun p => trKind (TargetRef (Spec p)) = kind
                               /\ trName (TargetRef (Spec p)) = name) items))
  end.

Definition findPoliciesForGateway (obj : Unstructured) : Prog (list NamespacedName) :=
  findPoliciesForTarget "Gateway" (GetName obj) (GetNamespace obj).

Definition findPoliciesForHTTPRoute (obj : Unstructured) : Prog (list NamespacedName) :=
  findPoliciesForTarget "HTTPRoute" (GetName obj) (GetNamespace obj).

(* ------------------------------------------------------------------------- *)
(** ** A small API server to run the programs against *)
(* ------------------------------------------------------------------------- *)

(** A test double for the API server, in the manner of the envtest server of
    the controller tests: objects are kept by key, writes compare resource
    versions, and a switch makes Engine writes fail.  It serves to run the
    programs on concrete inputs; no statement below depends on it. *)
Module Cluster.

Record State := {
  clock : Time;
  policies : list WAFPolicy;
  engines : list Engine;
  objects : list Unstructured;
  engine_writes_denied : bool
}.

Definition NewNotFound (name : string) : error :=
  StatusError StatusReasonNotFound (fmt_q name +:+ " not found").

Definition NewConflict (name : string) : error :=
  StatusError StatusReasonConflict
    ("Operation cannot be fulfilled on " +:+ fmt_q name
     +:+ ": the object has been modified").

Definition NewForbidden (name : string) : error :=
  StatusError StatusReasonForbidden (fmt_q name +:+ " is forbidden").

Definition policy_at (key : NamespacedName) (p : WAFPolicy) : Prop :=
  Namespace p = nnNamespace key /\ Name p = nnName key.

Definition engine_at (key : NamespacedName) (e : Engine) : Prop :=
  eNamespace e = nnNamespace key /\ eName e = nnName key.

Definition object_at (gvk : GroupVersionKind) (key : NamespacedName)
    (u : Unstructured) : Prop :=
  GroupVersionKind_of u = gvk
  /\ GetNamespace u = nnNamespace key /\ GetName u = nnName key.

Definition with_clock (s : State) (t : Time) : State :=
  {| clock := t; policies := policies s; engines := engines s;
     objects := objects s; engine_writes_denied := engine_writes_denied s |}.

Definition with_policies (s : State) (ps : list WAFPolicy) : State :=
  {| clock := clock s; policies := ps; engines := engines s;
     objects := objects s; engine_writes_denied := engine_writes_denied s |}.

Definition with_engines (s : State) (es : list Engine) : State :=
  {| clock := clock s; policies := policies s; engines := es;
     objects := objects s; engine_writes_denied := engine_writes_denied s |}.

Definition with_objects (s : State) (os : list Unstructured) : State :=
  {| clock := clock s; policies := policies s; engines := engines s;
     objects := os; engine_writes_denied := engine_writes_denied s |}.

Definition key_of_policy (p : WAFPolicy) : NamespacedName :=
  {| nnNamespace := Namespace p; nnName := Name p |}.

Definition key_of_object (u : Unstructured) : NamespacedName :=
  {| nnNamespace := GetNamespace u; nnName := GetName u |}.

(** Replace the elements that satisfy [P] by [x]. *)
Definition replace {A} (P : A -> Prop) `{forall a, Decision (P a)}
    (x : A) (l : list A) : list A :=
  map (fun a => if decide (P a) then x else a) l.

Definition answer_call (c : Call) (s : State) : Resp c * State :=
  match c return Resp c * State with
  | time_Now => (clock s + 1, with_clock s (clock s + 1))
  | Get_WAFPolicy key =>
      match head (filter (policy_at key) (policies s)) with
      | Some p => (Ok p, s)
      | None => (Err (NewNotFound (nnName key)), s)
      end
  | Update_WAFPolicy obj =>
      let key := key_of_policy obj in
      match head (filter (policy_at key) (policies s)) with
      | None => (Err (NewNotFound (Name obj)), s)
      | Some old =>
          if decide (ResourceVersion old = ResourceVersion obj) then
            (* the main resource keeps the stored status *)
            let new := with_Conditions obj (Conditions (Status_ old)) in
            (Ok new, with_policies s (replace (policy_at key) new (policies s)))
          else (Err (NewConflict (Name obj)), s)
      end
  | Status_Patch obj base =>
      let key := key_of_policy obj in
      match head (filter (policy_at key) (policies s)) with
      | None => (Err (NewNotFound (Name obj)), s)
      | Some old =>
          (* a merge patch replaces the condition list when it changed *)
          let new :=
            if decide (Conditions (Status_ obj) = Conditions (Status_ base))
            then old else with_Conditions old (Conditions (Status_ obj)) in
          (Ok new, with_policies s (replace (policy_at key) new (policies s)))
      end
  | List_WAFPolicy namespace =>
      (Ok (filter (fun p => namespace = "" \/ Namespace p = namespace)
             (policies s)), s)
  | Get_Engine key =>
      match head (filter (engine_at key) (engines s)) with
      | Some e => (Ok e, s)
      | None => (Err (NewNotFound (nnName key)), s)
      end
  | Create_Engine obj =>
      if engine_writes_denied s then (Err (NewForbidden (eName obj)), s)
      else
        match head (filter (engine_at (ObjectKeyFromObject obj)) (engines s)) with
        | Some _ =>
            (Err (StatusError StatusReasonAlreadyExists
                    (fmt_q (eName obj) +:+ " already exists")), s)
        | None => (Ok obj, with_engines s (engines s ++ [obj])%list)
        end
  | Update_Engine obj =>
      if engine_writes_denied s then (Err (NewForbidden (eName obj)), s)
      else
        let key := ObjectKeyFromObject obj in
        match head (filter (engine_at key) (engines s)) with
        | None => (Err (NewNotFound (eName obj)), s)
        | Some old =>
            if decide (eResourceVersion old = eResourceVersion obj) then
              (Ok obj, with_engines s (replace (engine_at key) obj (engines s)))
            else (Err (NewConflict (eName obj)), s)
        end
  | Get_Unstructured key into =>
      match head (filter (object_at (GroupVersionKind_of into) key) (objects s)) with
      | Some u => (Ok u, s)
      | None => (Err (NewNotFound (nnName key)), s)
      end
  | Create_Unstructured obj =>
      match head (filter (object_at (GroupVersionKind_of obj) (key_of_object obj))
                    (objects s)) with
      | Some _ =>
          (Err (StatusError StatusReasonAlreadyExists
                  (fmt_q (GetName obj) +:+ " already exists")), s)
      | None => (Ok obj, with_objects s (objects s ++ [obj])%list)
      end
  | Update_Unstructured obj =>
      let at_obj := object_at (GroupVersionKind_of obj) (key_of_object obj) in
      match head (filter at_obj (objects s)) with
      | None => (Err (NewNotFound (GetName obj)), s)
      | Some old =>
          if decide (GetResourceVersion old = GetResourceVersion obj) then
            (Ok obj, with_objects s (replace at_obj obj (objects s)))
          else (Err (NewConflict (GetName obj)), s)
      end
  | Recorder_Event _ _ _ _ => (tt, s)
  end.

Definition env : Env := {| env_state := State; env_answer := answer_call |}.

End Cluster.

Definition result_of {A S : Type} (x : A * list Event * S) : A := fst (fst x).
Definition trace_of {A S : Type} (x : A * list Event * S) : list Event := snd (fst x).
Definition calls (tr : list Event) : list Call := map call_of tr.

(* ------------------------------------------------------------------------- *)
(** ** Vocabulary of the statements *)
(* ------------------------------------------------------------------------- *)

(** [always P Q p]: on every path of [p], whatever the answers, each call
    satisfies [P] and the result satisfies [Q]. *)
Fixpoint always {A : Type} (P : Call -> Prop) (Q : A -> Prop) (p : Prog A) : Prop :=
  match p with
  | Ret a => Q a
  | Do c k => P c /\ forall r : Resp c, always P Q (k r)
  end.

Definition is_engine_call (c : Call) : Prop :=
  match c with
  | Get_Engine _ | Create_Engine _ | Update_Engine _ => True
  | _ => False
  end.

Definition is_engine_write (c : Call) : Prop :=
  match c with
  | Create_Engine _ | Update_Engine _ => True
  | _ => False
  end.

Definition is_status_write (c : Call) : Prop :=
  match c with
  | Status_Patch _ _ => True
  | _ => False
  end.

Definition is_unstructured_call (c : Call) : Prop :=
  match c with
  | Get_Unstructured _ _ | Create_Unstructured _ | Update_Unstructured _ => True
  | _ => False
  end.

(** The condition of the given type, as [FindStatusCondition] finds it, has
    this status and reason. *)
Definition condition_is (conditions : list Condition) (conditionType : string)
    (status : ConditionStatus) (reason : string) : Prop :=
  exists c, FindStatusCondition conditions conditionType = Some c
            /\ Status c = status /\ Reason c = reason.

(** No condition of the given type is in the list. *)
Definition condition_absent (conditions : list Condition) (conditionType : string)
  : Prop :=
  Forall (fun c => Type_ c <> conditionType) conditions.

(** Each condition type occurs at most once, as the list-map key [type] of
    the status schema requires of a stored condition list. *)
Definition unique_types (conditions : list Condition) : Prop :=
  NoDup (Type_ <$> conditions).

(** What [SetStatusCondition] guarantees about the list it leaves. *)
Definition set_post (conditions : list Condition) (newCondition : Condition)
    (cs : list Condition) : Prop :=
  (exists c, FindStatusCondition cs (Type_ newCondition) = Some c
             /\ Status c = Status newCondition
             /\ Reason c = Reason newCondition
             /\ Message c = Message newCondition
             /\ ObservedGeneration c = ObservedGeneration newCondition)
  /\ (forall t, t <> Type_ newCondition ->
        FindStatusCondition cs t = FindStatusCondition conditions t)
  /\ (unique_types conditions -> unique_types cs).

(** The three kinds of status the reconciler writes. *)
Definition writes_accepted (obj : WAFPolicy) : Prop :=
  condition_is (Conditions (Status_ obj)) "Accepted" ConditionTrue "Accepted"
  /\ condition_is (Conditions (Status_ obj)) "Programmed" ConditionTrue "Programmed".

Definition writes_not_accepted (reason : string) (obj : WAFPolicy) : Prop :=
  condition_is (Conditions (Status_ obj)) "Accepted" ConditionFalse reason
  /\ condition_absent (Conditions (Status_ obj)) "Programmed".

Definition writes_sync_failed (obj base : WAFPolicy) : Prop :=
  FindStatusCondition (Conditions (Status_ obj)) "Accepted"
  = FindStatusCondition (Conditions (Status_ base)) "Accepted"
  /\ condition_is (Conditions (Status_ obj)) "Programmed" ConditionFalse
       "EngineSyncFailed".

(** Error of a call that fills in an object. *)
Definition error_of {A : Type} (a : answer A) : option error :=
  match a with
  | Err e => Some e
  | Ok _ => None
  end.

(** The calls [CreateOrUpdate] may make for the object [obj] with the mutate
    function [f]: a get by the key of [obj], and a create or update of an
    object that [f] produced and that still has that key. *)
Definition upsert_call (obj : Engine) (f : Engine -> Engine * option error)
    (c : Call) : Prop :=
  match c with
  | Get_Engine key => key = ObjectKeyFromObject obj
  | Create_Engine e | Update_Engine e =>
      ObjectKeyFromObject e = ObjectKeyFromObject obj
      /\ exists e0, f e0 = (e, None)
  | _ => False
  end.

(** The calls of the status phase of [ensureEngine]: clock reads, events and
    the one patch. *)
Definition status_phase_call (patch : Call) (c : Call) : Prop :=
  match c with
  | time_Now | Recorder_Event _ _ _ _ => True
  | Status_Patch _ _ => c = patch
  | _ => False
  end.

(** The reasons with which target resolution refuses a policy. *)
Definition resolution_reasons : list string :=
  ["TargetNotFound"; "NoParentGateway"; "InvalidParentRef"; "InvalidTargetRef"].

(** The answer of the event [e], read at the type of the answers of [c];
    [None] when [e] is a call of another kind. *)
Definition resp_at (c : Call) (e : Event) : option (Resp c) :=
  match e with
  | existT c' r' =>
      match c, c' return Resp c' -> option (Resp c) with
      | time_Now, time_Now => Some
      | Get_WAFPolicy _, Get_WAFPolicy _ => Some
      | Update_WAFPolicy _, Update_WAFPolicy _ => Some
      | Status_Patch _ _, Status_Patch _ _ => Some
      | List_WAFPolicy _, List_WAFPolicy _ => Some
      | Get_Engine _, Get_Engine _ => Some
      | Create_Engine _, Create_Engine _ => Some
      | Update_Engine _, Update_Engine _ => Some
      | Get_Unstructured _ _, Get_Unstructured _ _ => Some
      | Create_Unstructured _, Create_Unstructured _ => Some
      | Update_Unstructured _, Update_Unstructured _ => Some
      | Recorder_Event _ _ _ _, Recorder_Event _ _ _ _ => Some
      | _, _ => fun _ => None
      end r'
  end.

(** The identity [ensureEngine] derives for the Engine of a policy. *)
Definition engine_identity (policy : WAFPolicy) (c : Call) : Prop :=
  match c with
  | Get_Engine key =>
      nnName key = "wafpolicy-" +:+ Name policy
      /\ nnNamespace key = Namespace policy
  | Create_Engine e | Update_Engine e =>
      eName e = "wafpolicy-" +:+ Name policy /\ eNamespace e = Namespace policy
  | _ => True
  end.



(** The error [res] is the error [cause] wrapped with [%w]. *)
Definition surfaces (cause : error) (res : option error) : Prop :=
  exists text, res = Some (fmt_Errorf_w text cause).

(** How [createOrUpdate] ends on the answer of its last call: no error when
    the call succeeded, else an error with the reason of the call's error. *)
Definition write_result (written : answer Unstructured) (res : option error)
  : Prop :=
  match written with
  | Ok _ => res = None
  | Err cause =>
      exists e, res = Some e /\ ReasonForError e = ReasonForError cause
                /\ IsConflict e = IsConflict cause
  end.

(** The key [findPoliciesForTarget] emits for a policy, and its filter. *)
Definition policy_key (p : WAFPolicy) : NamespacedName :=
  {| nnNamespace := Namespace p; nnName := Name p |}.

Definition targets (kind name : string) (p : WAFPolicy) : Prop :=
  trKind (TargetRef (Spec p)) = kind /\ trName (TargetRef (Spec p)) = name.

(** The workload selector of an Engine spec maps the gateway-name label to
    [gatewayName]. *)
Definition selects_gateway (gatewayName : string) (spec : EngineSpec) : Prop :=
  exists istio wasm selector,
    Istio (esDriver spec) = Some istio /\ Wasm istio = Some wasm
    /\ WorkloadSelector wasm = Some selector
    /\ MatchLabels selector = {[ gatewayNameLabel := gatewayName ]}.

(** Every status the reconciler writes is of one of the three kinds. *)
Definition status_kind (obj base : WAFPolicy) : Prop :=
  writes_accepted obj
  \/ (exists reason, In reason resolution_reasons /\ writes_not_accepted reason obj)
  \/ writes_sync_failed obj base.

Definition status_kind_call (c : Call) : Prop :=
  match c with
  | Status_Patch obj base => status_kind obj base
  | _ => True
  end.

(** A list that holds an [Accepted] condition with status False next to a
    [Programmed] condition with status True. *)
Definition coexist (conditions : list Condition) : Prop :=
  exists a p, In a conditions /\ In p conditions
              /\ Type_ a = "Accepted" /\ Status a = ConditionFalse
              /\ Type_ p = "Programmed" /\ Status p = ConditionTrue.

Definition never_coexist (c : Call) : Prop :=
  match c with
  | Status_Patch obj base =>
      unique_types (Conditions (Status_ base)) ->
      ~ coexist (Conditions (Status_ obj))
  | _ => True
  end.

(** A status that would say both [Accepted=False] and [Programmed=True], read
    the way consumers read conditions. *)
Definition programmed_unaccepted (conditions : list Condition) : Prop :=
  IsStatusConditionFalse conditions "Accepted" = true
  /\ IsStatusConditionTrue conditions "Programmed" = true.

Definition never_programmed_unaccepted (c : Call) : Prop :=
  match c with
  | Status_Patch obj _ => ~ programmed_unaccepted (Conditions (Status_ obj))
  | _ => True
  end.

Definition no_Programmed_written (c : Call) : Prop :=
  match c with
  | Status_Patch obj _ => condition_absent (Conditions (Status_ obj)) "Programmed"
  | _ => True
  end.

(** The empty objects the reconciler hands to [Get] for a Gateway and for an
    HTTPRoute. *)
Definition gatewayShell : Unstructured :=
  SetGroupVersionKind {| Object := [] |} GatewayGVK.

Definition routeShell : Unstructured :=
  SetGroupVersionKind {| Object := [] |} HTTPRouteGVK.

(** The key under which the reconciler looks up the target of a policy. *)
Definition target_key (policy : WAFPolicy) : NamespacedName :=
  {| nnNamespace := Namespace policy; nnName := trName (TargetRef (Spec policy)) |}.

(** A run that refuses the policy: it writes [Accepted=False] with the
    reason and no [Programmed] condition, makes no Engine call, and returns
    the error of the patch. *)
Definition refused (policy : WAFPolicy) (reason : string) (requeue : bool)
    (tr : list Event) (res : Result * option error) : Prop :=
  exists cs patched,
    In (event (Status_Patch (with_Conditions policy cs) policy) patched) tr
    /\ writes_not_accepted reason (with_Conditions policy cs)
    /\ Forall (status_phase_call (Status_Patch (with_Conditions policy cs) policy))
         (calls tr)
    /\ res = ({| Requeue := requeue; RequeueAfter := 0 |}, error_of patched)
    /\ (unique_types (Conditions (Status_ policy)) -> unique_types cs).

(** Every Engine a call creates or updates selects the gateway by label. *)
Definition engine_selects (gatewayName : string) (c : Call) : Prop :=
  match c with
  | Create_Engine e | Update_Engine e => selects_gateway gatewayName (eSpec e)
  | _ => True
  end.

(** The conditions a call writes, if it is a status patch. *)
Definition patched_conditions (c : Call) : option (list Condition) :=
  match c with
  | Status_Patch obj _ => Some (Conditions (Status_ obj))
  | _ => None
  end.

(* ------------------------------------------------------------------------- *)
(** ** Concrete inputs *)
(* ------------------------------------------------------------------------- *)

Module Demo.

(** The reconciler of the controller tests. *)
Definition reconciler : WAFPolicyReconciler :=
  {| Config := {| DefaultWasmImage := "oci://ghcr.io/test/coraza-proxy-wasm:latest";
                  DefaultPollInterval := 15;
                  EnvoyClusterName := "test-cluster" |} |}.

Definition policy_for (name kind target : string) : WAFPolicy :=
  {| Name := name; Namespace := "default"; UID := "uid-" +:+ name;
     ResourceVersion := "1"; Generation := 1;
     DeletionTimestamp := None; Finalizers := [wafPolicyFinalizer];
     Spec := {| TargetRef := {| trGroup := "gateway.networking.k8s.io";
                                trKind := kind; trName := target;
                                trSectionName := None |};
                RuleSet := {| rsName := "test-ruleset" |};
                FailurePolicy := "fail" |};
     Status_ := {| Conditions := [] |} |}.

Definition gw_policy : WAFPolicy := policy_for "test-gw" "Gateway" "gw1".
Definition route_policy : WAFPolicy := policy_for "test-route" "HTTPRoute" "r1".

(** A policy under deletion that still carries the finalizer. *)
Definition deleting_policy : WAFPolicy :=
  {| Name := "test-del"; Namespace := "default"; UID := "uid-test-del";
     ResourceVersion := "1"; Generation := 1;
     DeletionTimestamp := Some 50; Finalizers := [wafPolicyFinalizer];
     Spec := Spec gw_policy; Status_ := {| Conditions := [] |} |}.

Definition key (name : string) : NamespacedName :=
  {| nnNamespace := "default"; nnName := name |}.

Definition object (apiVersion kind name : string)
    (rest : list (string * value)) : Unstructured :=
  {| Object := [("apiVersion", VString apiVersion); ("kind", VString kind);
                ("metadata", VMap [("name", VString name);
                                   ("namespace", VString "default")])]
               ++ rest |}.

Definition gateway : Unstructured :=
  object "gateway.networking.k8s.io/v1" "Gateway" "gw1" [].

Definition route : Unstructured :=
  object "gateway.networking.k8s.io/v1" "HTTPRoute" "r1"
    [("spec", VMap [("parentRefs", VSlice [VMap [("name", VString "gw1")]])])].

(** An object without a namespace, as [createOrUpdate] may receive. *)
Definition desired : Unstructured :=
  {| Object := [("apiVersion", VString "v1"); ("kind", VString "ConfigMap");
                ("metadata", VMap [("name", VString "rules")])] |}.

Definition cluster (objects : list Unstructured) (denied : bool)
  : Cluster.State :=
  {| Cluster.clock := 100;
     Cluster.policies := [gw_policy; route_policy; deleting_policy];
     Cluster.engines := [];
     Cluster.objects := objects;
     Cluster.engine_writes_denied := denied |}.

(** Runs against the test double: both targets present, no target present,
    and Engine writes refused. *)
Definition run_in {A : Type} (objects : list Unstructured) (denied : bool)
    (p : Prog A) : A * list Event * Cluster.State :=
  run Cluster.env p (cluster objects denied).

(** The pass for the Gateway policy when Engine writes are refused. *)
Definition sync_failure : Result * option error * list Event * Cluster.State :=
  run_in [gateway] true (Reconcile reconciler (key "test-gw")).

(** The pass for the Gateway policy when no Gateway exists. *)
Definition gateway_missing : Result * option error * list Event * Cluster.State :=
  run_in [] false (Reconcile reconciler (key "test-gw")).

(** The pass for the HTTPRoute policy with route and Gateway present. *)
Definition route_resolved : Result * option error * list Event * Cluster.State :=
  run_in [gateway; route] false (Reconcile reconciler (key "test-route")).

(** Target resolution for the HTTPRoute policy, route and Gateway present. *)
Definition route_pass : Result * option error * list Event * Cluster.State :=
  run_in [gateway; route] false (reconcileForHTTPRoute reconciler route_policy).

End Demo.

(* ------------------------------------------------------------------------- *)
(** ** Vocabulary: status helpers, writes of a pass, the Engine of a policy *)
(* ------------------------------------------------------------------------- *)

(** The condition of the given type has this status, generation, reason and
    message. *)
Definition has_condition (conditions : list Condition) (conditionType : string)
    (status : ConditionStatus) (generation : Z) (reason message : string) : Prop :=
  exists c, FindStatusCondition conditions conditionType = Some c
            /\ Status c = status /\ ObservedGeneration c = generation
            /\ Reason c = reason /\ Message c = message.

(** Two conditions that differ at most in their transition time. *)
Definition same_outcome (c c' : Condition) : Prop :=
  Type_ c = Type_ c' /\ Status c = Status c'
  /\ ObservedGeneration c = ObservedGeneration c'
  /\ Reason c = Reason c' /\ Message c = Message c'.

(** The run only reads the clock. *)
Definition clock_only (tr : list Event) : Prop :=
  Forall (fun c => c = time_Now) (calls tr).

(** The transition time [t] of the condition of type [conditionType] after a
    helper set it to [status]: the time it had, when it already had that
    status; else a reading of the clock taken in the run [tr]. *)
Definition transition_time (conditions : list Condition) (conditionType : string)
    (status : ConditionStatus) (tr : list Event) (t : Time) : Prop :=
  match FindStatusCondition conditions conditionType with
  | Some old =>
      if decide (Status old = status) then t = LastTransitionTime old
      else In (event time_Now t) tr
  | None => In (event time_Now t) tr
  end.

(** What [setConditionTrue] and [setConditionFalse] leave: the condition of
    the type with the status, generation, reason and message; its transition
    time as [transition_time] says; every other type as it was; at most one
    condition more, and only when the type was new. *)
Definition condition_set (conditions : list Condition) (conditionType : string)
    (status : ConditionStatus) (generation : Z) (reason message : string)
    (tr : list Event) (cs : list Condition) : Prop :=
  clock_only tr
  /\ (exists c, FindStatusCondition cs conditionType = Some c
                /\ Status c = status /\ ObservedGeneration c = generation
                /\ Reason c = reason /\ Message c = message
                /\ transition_time conditions conditionType status tr
                     (LastTransitionTime c))
  /\ (forall t, t <> conditionType ->
        FindStatusCondition cs t = FindStatusCondition conditions t)
  /\ (unique_types conditions -> unique_types cs)
  /\ (length cs = length conditions
      \/ (FindStatusCondition conditions conditionType = None
          /\ length cs = S (length conditions))).

(** A condition list of a resource that was degraded while progressing. *)
Definition degraded_conditions : list Condition :=
  [ {| Type_ := "Ready"; Status := ConditionFalse; ObservedGeneration := 1;
       LastTransitionTime := 10; Reason := "RuleSetMissing";
       Message := "ruleset not found" |};
    {| Type_ := "Degraded"; Status := ConditionTrue; ObservedGeneration := 1;
       LastTransitionTime := 10; Reason := "RuleSetMissing";
       Message := "ruleset not found" |};
    {| Type_ := "Progressing"; Status := ConditionTrue; ObservedGeneration := 1;
       LastTransitionTime := 5; Reason := "Deploying";
       Message := "deploying" |} ].

(** The Gateway policy of [Demo] as a pass leaves it when the Gateway is
    missing. *)
Definition refused_policy : WAFPolicy :=
  with_Conditions Demo.gw_policy
    [ {| Type_ := "Accepted"; Status := ConditionFalse; ObservedGeneration := 1;
         LastTransitionTime := 101; Reason := "TargetNotFound";
         Message := "Gateway not found" |} ].

(** Calls a reconciliation pass never makes: it lists no policies and
    creates or updates no unstructured object. *)
Definition pass_call (c : Call) : Prop :=
  match c with
  | List_WAFPolicy _ | Create_Unstructured _ | Update_Unstructured _ => False
  | _ => True
  end.

(** What a pass may write on the policy it fetched: an update that changes
    only the finalizers, by appending or by taking out the controller's own
    finalizer, and a status patch that changes only the conditions. *)
Definition policy_write_frame (fetched : WAFPolicy) (c : Call) : Prop :=
  match c with
  | Update_WAFPolicy obj =>
      obj = with_Finalizers fetched (Finalizers fetched ++ [wafPolicyFinalizer])%list
      \/ obj = with_Finalizers fetched
                 (filter (fun f => f <> wafPolicyFinalizer) (Finalizers fetched))
  | Status_Patch obj base =>
      obj = with_Conditions base (Conditions (Status_ obj))
  | _ => True
  end.

(** A policy that was just created: no finalizer, no conditions. *)
Definition fresh_policy : WAFPolicy :=
  with_Finalizers (Demo.policy_for "test-new" "Gateway" "gw1") [].

(** A policy whose target kind the controller does not know. *)
Definition service_policy : WAFPolicy :=
  Demo.policy_for "test-svc" "Service" "web".

Definition fresh_cluster : Cluster.State :=
  {| Cluster.clock := 100;
     Cluster.policies := [fresh_policy; service_policy];
     Cluster.engines := [];
     Cluster.objects := [Demo.gateway];
     Cluster.engine_writes_denied := false |}.

(** The calls of target resolution and Engine synthesis for [policy]: the
    target is looked up under the policy's own namespace and target name,
    a status patch is based on the policy and changes only its conditions,
    and no policy is fetched, updated or listed and no unstructured object
    written. *)
Definition target_phase_call (policy : WAFPolicy) (c : Call) : Prop :=
  match c with
  | time_Now | Recorder_Event _ _ _ _ => True
  | Get_Engine _ | Create_Engine _ | Update_Engine _ => True
  | Get_Unstructured key _ => key = target_key policy
  | Status_Patch obj base =>
      base = policy /\ obj = with_Conditions policy (Conditions (Status_ obj))
  | _ => False
  end.

(** The policy a call updates, if it is an update of a policy. *)
Definition updated_policy (c : Call) : option WAFPolicy :=
  match c with
  | Update_WAFPolicy obj => Some obj
  | _ => None
  end.

(** The key of a target lookup, if the call is one. *)
Definition target_lookup (c : Call) : option NamespacedName :=
  match c with
  | Get_Unstructured key _ => Some key
  | _ => None
  end.

(** The owner reference [SetControllerReference] builds for a policy. *)
Definition policy_owner_ref (policy : WAFPolicy) : OwnerReference :=
  {| orAPIVersion := "waf.k8s.coraza.io/v1alpha1";
     orKind := "WAFPolicy";
     orName := Name policy;
     orUID := UID policy;
     orController := Some true;
     orBlockOwnerDeletion := Some true |}.

(** An Engine as [ensureEngine] leaves it before a write: the spec computed
    from the policy, and the policy as its controller. *)
Definition engine_of_policy (r : WAFPolicyReconciler) (policy : WAFPolicy)
    (workloadLabels : gmap string string) (e : Engine) : Prop :=
  eSpec e = engineSpec r policy workloadLabels
  /\ GetControllerOf e = Some (policy_owner_ref policy)
  /\ In (policy_owner_ref policy) (eOwnerReferences e).

Definition writes_engine_of_policy (r : WAFPolicyReconciler) (policy : WAFPolicy)
    (workloadLabels : gmap string string) (c : Call) : Prop :=
  match c with
  | Create_Engine e | Update_Engine e => engine_of_policy r policy workloadLabels e
  | _ => True
  end.

(** The events [ensureEngine] records, by the outcome of the pass. *)
Definition engine_event (policy : WAFPolicy) (res : Result * option error)
    (c : Call) : Prop :=
  match c with
  | Recorder_Event obj eventtype reason _ =>
      (eventtype = "Normal" /\ reason = "Programmed" /\ snd res = None)
      \/ (eventtype = "Warning" /\ reason = "EngineSyncFailed" /\ obj = policy
          /\ snd res <> None)
  | _ => True
  end.

(** An Engine in the cluster that another object controls. *)
Definition foreign_engine : Engine :=
  {| eName := "wafpolicy-test-gw"; eNamespace := "default"; eUID := "uid-e";
     eResourceVersion := "7"; eGeneration := 1;
     eOwnerReferences :=
       [ {| orAPIVersion := "apps/v1"; orKind := "Deployment"; orName := "other";
            orUID := "uid-d"; orController := Some true;
            orBlockOwnerDeletion := None |} ];
     eSpec := EngineSpec_zero; eStatusConditions := [] |}.

(** The cluster of the controller tests with an Engine of another owner
    under the name the Gateway policy derives. *)
Definition foreign_cluster : Cluster.State :=
  Cluster.with_engines (Demo.cluster [Demo.gateway] false) [foreign_engine].

(** The cluster as a first pass for the Gateway policy leaves it. *)
Definition synced_cluster : Cluster.State :=
  snd (run Cluster.env (Reconcile Demo.reconciler (Demo.key "test-gw"))
         (Demo.cluster [Demo.gateway] false)).

(** The labels [reconcileForGateway] selects workloads by. *)
Definition gateway_labels (policy : WAFPolicy) : gmap string string :=
  {[ gatewayNameLabel := trName (TargetRef (Spec policy)) ]}.

(** The Engine the first pass for the Gateway policy creates. *)
Definition synced_engine : Engine :=
  fst (engineMutateFn Demo.reconciler Demo.gw_policy (gateway_labels Demo.gw_policy)
         (engineObject Demo.gw_policy)).

(** The error of a read that timed out. *)
Definition timeout_error : error := StatusError StatusReasonTimeout "timeout".


(** Two objects agree on identity and on everything outside
    [metadata.resourceVersion]. *)
Definition same_but_version (a b : Unstructured) : Prop :=
  GetName a = GetName b /\ GetNamespace a = GetNamespace b
  /\ GroupVersionKind_of a = GroupVersionKind_of b
  /\ (forall k, k <> "metadata" -> map_get k (Object a) = map_get k (Object b))
  /\ (forall k, k <> "resourceVersion" ->
        NestedFieldNoCopy (VMap (Object a)) ["metadata"; k]
        = NestedFieldNoCopy (VMap (Object b)) ["metadata"; k]).

(** The shell a call looks an unstructured object up into, if it is a get. *)
Definition lookup_shell (c : Call) : option Unstructured :=
  match c with
  | Get_Unstructured _ into => Some into
  | _ => None
  end.

(** What [createOrUpdate] may send to the store for a desired object: a get
    into a shell that carries the group, version and kind of the desired
    object and nothing else, and a create or update of an object that is the
    desired one except for its resource version. *)
Definition upsert_of_desired (desired : Unstructured) (c : Call) : Prop :=
  match c with
  | Get_Unstructured _ into =>
      GroupVersionKind_of into = GroupVersionKind_of desired
      /\ forall k, k <> "apiVersion" -> k <> "kind" -> map_get k (Object into) = None
  | Create_Unstructured obj | Update_Unstructured obj => same_but_version obj desired
  | _ => False
  end.

(* ------------------------------------------------------------------------- *)
(** ** The chart helpers (templates/_helpers.tpl) *)
(* ------------------------------------------------------------------------- *)

(** The named templates of the chart that compute names, with the Sprig
    functions they pipe through.  Go strings are byte strings; an unset
    value is the empty string, which [default] and [if] treat alike. *)
Module helm.

Fixpoint take_string (n : nat) (s : string) : string :=
  match n, s with
  | S n', String c rest => String c (take_string n' rest)
  | _, _ => EmptyString
  end.

Fixpoint drop_string (n : nat) (s : string) : string :=
  match n, s with
  | S n', String _ rest => drop_string n' rest
  | _, _ => s
  end.

(** Sprig [trunc]: the first [c] bytes, or the last [-c] for a negative
    [c]. *)
Definition trunc (c : Z) (s : string) : string :=
  let len := Z.of_nat (String.length s) in
  if (c <? 0) && (0 <? len + c) then drop_string (Z.to_nat (len + c)) s
  else if (0 <=? c) && (c <? len) then take_string (Z.to_nat c) s
  else s.

(** [strings.HasSuffix] and [strings.TrimSuffix]; Sprig's [trimSuffix] takes
    the suffix first. *)
Definition HasSuffix (s suffix : string) : bool :=
  (String.length suffix <=? String.length s)%nat
  && bool_decide
       (drop_string (String.length s - String.length suffix) s = suffix).

Definition trimSuffix (suffix s : string) : string :=
  if HasSuffix s suffix
  then take_string (String.length s - String.length suffix) s
  else s.

(** Sprig [contains substr str]: [strings.Contains str substr]. *)
Fixpoint contains (substr str : string) : bool :=
  String.prefix substr str
  || match str with
     | EmptyString => false
     | String _ rest => contains substr rest
     end.

(** Sprig [default d given]. *)
Definition default (d given : string) : string :=
  if decide (given = "") then d else given.

(** Sprig [replace old new] for one-byte [old] and [new], as the chart
    calls it. *)
Fixpoint replace (old new : Ascii.ascii) (s : string) : string :=
  match s with
  | EmptyString => EmptyString
  | String c rest =>
      String (if decide (c = old) then new else c) (replace old new rest)
  end.

Record Context := {
  Chart_Name : string;
  Chart_Version : string;
  Release_Name : string;
  Release_Namespace : string;
  Values_nameOverride : string;
  Values_fullnameOverride : string
}.

Definition plus : Ascii.ascii := Ascii.ascii_of_nat 43.
Definition underscore : Ascii.ascii := Ascii.ascii_of_nat 95.

(** "coraza-operator.name" *)
Definition name (ctx : Context) : string :=
  trimSuffix "-" (trunc 63 (default (Chart_Name ctx) (Values_nameOverride ctx))).

(** "coraza-operator.fullname" *)
Definition fullname (ctx : Context) : string :=
  if decide (Values_fullnameOverride ctx <> "") then
    trimSuffix "-" (trunc 63 (Values_fullnameOverride ctx))
  else
    let name := default (Chart_Name ctx) (Values_nameOverride ctx) in
    if contains name (Release_Name ctx) then
      trimSuffix "-" (trunc 63 (Release_Name ctx))
    else
      trimSuffix "-" (trunc 63 (Release_Name ctx +:+ "-" +:+ name)).

(** The value of the "helm.sh/chart" label of "coraza-operator.labels". *)
Definition chart_label (ctx : Context) : string :=
  trimSuffix "-"
    (trunc 63
       (replace plus underscore (Chart_Name ctx +:+ "-" +:+ Chart_Version ctx))).

(** "coraza-operator.serviceAccountName" *)
Definition serviceAccountName (ctx : Context) : string := fullname ctx.

(** "coraza-operator.serviceFQDN" *)
Definition serviceFQDN (ctx : Context) : string :=
  fullname ctx +:+ "." +:+ Release_Namespace ctx +:+ ".svc.cluster.local".

(** A byte occurs in a string. *)
Fixpoint occurs (a : Ascii.ascii) (s : string) : bool :=
  match s with
  | EmptyString => false
  | String c rest => bool_decide (c = a) || occurs a rest
  end.

End helm.

(* ------------------------------------------------------------------------- *)
(** ** The resource builders of the integration-test framework *)
(* ------------------------------------------------------------------------- *)

Module framework.

Record EngineOpts := {
  RuleSetName : string;
  RuleSetNamespace : string;
  GatewayName : string;
  WorkloadLabels : option (gmap string string);
  WasmImage : string;
  FailurePolicy : string;
  PollInterval : Z
}.

Definition fallbackWasmImage : string :=
  "oci://ghcr.io/networking-incubator/coraza-proxy-wasm:179ea90b2617f557f805fe672daf880c14c6b8b7".

(** [defaultWasmImage]; the argument is the value of the environment
    variable CORAZA_WASM_IMAGE, empty when it is not set. *)
Definition defaultWasmImage (CORAZA_WASM_IMAGE : string) : string :=
  if decide (CORAZA_WASM_IMAGE <> "") then CORAZA_WASM_IMAGE
  else fallbackWasmImage.

(** The conversion of a [map[string]string] to a [map[string]interface{}]. *)
Definition labels_value (workloadLabels : gmap string string) : value :=
  VMap ((fun kv => (fst kv, VString (snd kv))) <$> map_to_list workloadLabels).

Definition BuildEngine (CORAZA_WASM_IMAGE : string) (namespace name : string)
    (opts : EngineOpts) : Unstructured :=
  let wasmImage :=
    if decide (WasmImage opts = "") then defaultWasmImage CORAZA_WASM_IMAGE
    else WasmImage opts in
  let failurePolicy :=
    if decide (FailurePolicy opts = "") then "fail" else FailurePolicy opts in
  let pollInterval :=
    if decide (PollInterval opts = 0) then 5 else PollInterval opts in
  let workloadLabels :=
    match WorkloadLabels opts with
    | Some labels => labels
    | None =>
        if decide (GatewayName opts <> "")
        then {[ "gateway.networking.k8s.io/gateway-name" := GatewayName opts ]}
        else {[ "app" := "gateway" ]}
    end in
  let ruleSetRef :=
    [ ("apiVersion", VString "waf.k8s.coraza.io/v1alpha1");
      ("kind", VString "RuleSet");
      ("name", VString (RuleSetName opts)) ] in
  let ruleSetRef :=
    if decide (RuleSetNamespace opts <> "")
    then map_set "namespace" (VString (RuleSetNamespace opts)) ruleSetRef
    else ruleSetRef in
  {| Object :=
       [ ("apiVersion", VString "waf.k8s.coraza.io/v1alpha1");
         ("kind", VString "Engine");
         ("metadata", VMap
            [ ("name", VString name); ("namespace", VString namespace) ]);
         ("spec", VMap
            [ ("ruleSet", VMap ruleSetRef);
              ("failurePolicy", VString failurePolicy);
              ("driver", VMap
                 [ ("istio", VMap
                      [ ("wasm", VMap
                           [ ("image", VString wasmImage);
                             ("mode", VString "gateway");
                             ("workloadSelector", VMap
                                [("matchLabels", labels_value workloadLabels)]);
                             ("ruleSetCacheServer", VMap
                                [("pollIntervalSeconds", VInt pollInterval)]) ])
                      ]) ]) ])
       ] |}.

Record RuleRef := {
  APIVersion : string;
  Kind : string;
  Name : string;
  Namespace : string
}.

Definition rule_value (r : RuleRef) : value :=
  let rule :=
    [ ("apiVersion", VString (APIVersion r));
      ("kind", VString (Kind r));
      ("name", VString (Name r)) ] in
  VMap (if decide (Namespace r <> "")
        then map_set "namespace" (VString (Namespace r)) rule
        else rule).

Definition BuildRuleSet (namespace name : string) (rules : list RuleRef)
  : Unstructured :=
  {| Object :=
       [ ("apiVersion", VString "waf.k8s.coraza.io/v1alpha1");
         ("kind", VString "RuleSet");
         ("metadata", VMap
            [ ("name", VString name); ("namespace", VString namespace) ]);
         ("spec", VMap [ ("rules", VSlice (rule_value <$> rules)) ])
       ] |}.

End framework.

(** The path of the workload labels in an unstructured Engine. *)
Definition matchLabels_path : list string :=
  ["spec"; "driver"; "istio"; "wasm"; "workloadSelector"; "matchLabels"].

(** The group, version and kind of an Engine. *)
Definition EngineGVK : GroupVersionKind :=
  {| Group := "waf.k8s.coraza.io"; Version := "v1alpha1"; Kind := "Engine" |}.

(* ------------------------------------------------------------------------- *)
(** ** Vocabulary: Engine synthesis and the outcome of a pass *)
(* ------------------------------------------------------------------------- *)

(** The key [ensureEngine] derives for the Engine of a policy. *)
Definition derived_key (policy : WAFPolicy) : NamespacedName :=
  {| nnNamespace := Namespace policy; nnName := "wafpolicy-" +:+ Name policy |}.

(** The Engine found is controlled by an object other than the policy. *)
Definition foreign_controlled (policy : WAFPolicy) (existing : Engine) : Prop :=
  exists other, GetControllerOf existing = Some other
                /\ referSameObject other (policy_owner_ref policy) = false.

(** A run of [ensureEngine] synthesizes an Engine with the property [P].  It
    starts with the get of the Engine under the derived key.  When the get
    answers not-found, the next call creates an Engine with [P].  When the
    get fails otherwise, that error is returned and no Engine is written.
    When the get finds an Engine, either the next call updates it to an
    Engine with [P]; or the Engine found has [P] already and no Engine call
    follows; or the Engine found belongs to another controller or is not
    under the key asked for, the run returns an error and no Engine call
    follows. *)
Definition engine_synthesized (P : Engine -> Prop) (policy : WAFPolicy)
    (tr : list Event) (res : Result * option error) : Prop :=
  exists got tr',
    tr = event (Get_Engine (derived_key policy)) got :: tr'
    /\ match got with
       | Err e =>
           if IsNotFound e then
             exists engine created rest,
               tr' = event (Create_Engine engine) created :: rest
               /\ P engine
               /\ Forall (fun c => ~ is_engine_call c) (calls rest)
           else
             snd res = Some e /\ Forall (fun c => ~ is_engine_call c) (calls tr')
       | Ok existing =>
           (exists engine updated rest,
              tr' = event (Update_Engine engine) updated :: rest
              /\ P engine
              /\ Forall (fun c => ~ is_engine_call c) (calls rest))
           \/ (P existing /\ Forall (fun c => ~ is_engine_call c) (calls tr'))
           \/ ((foreign_controlled policy existing
                \/ ObjectKeyFromObject existing <> derived_key policy)
               /\ snd res <> None
               /\ Forall (fun c => ~ is_engine_call c) (calls tr'))
       end.

(** The Engine has the derived name and namespace, the spec computed from
    the policy, and the policy as its controller. *)
Definition derived_engine (r : WAFPolicyReconciler) (policy : WAFPolicy)
    (workloadLabels : gmap string string) (engine : Engine) : Prop :=
  eName engine = "wafpolicy-" +:+ Name policy
  /\ eNamespace engine = Namespace policy
  /\ engine_of_policy r policy workloadLabels engine.

(** The calls of a pass before it turns to the target: the get of the
    policy, and the update that attaches the finalizer when the policy
    fetched lacks it.  [policy] is the policy the pass goes on with. *)
Definition policy_phase (req : NamespacedName) (policy : WAFPolicy)
    (pre : list Event) : Prop :=
  pre = [event (Get_WAFPolicy req) (Ok policy)]
  \/ exists fetched,
       pre = [event (Get_WAFPolicy req) (Ok fetched);
              event (Update_WAFPolicy (AddFinalizer fetched wafPolicyFinalizer))
                (Ok policy)].

(** Target resolution in the words of the specification (section 4.2).
    Path A, a Gateway: found, the Gateway is the target's name; not found,
    not accepted with TargetNotFound.  Path B, a route: not found, the same;
    found, an empty or absent parent-reference list is not accepted with
    NoParentGateway, a first entry of the wrong shape or without a name is
    not accepted with InvalidParentRef, and otherwise the Gateway is the
    name of the first parent.  Any other kind is not accepted, with
    InvalidTargetRef.  [looked_up] is the answer to the lookup of the
    target; a value under [parentRefs] that is not a list counts as
    absent. *)
Inductive resolution :=
| ResolvedGateway (gatewayName : string)
| NotAccepted (reason : string)
| LookupFailed (e : error).

Definition spec_resolution (policy : WAFPolicy) (looked_up : answer Unstructured)
  : resolution :=
  let targetRef := TargetRef (Spec policy) in
  let not_found e :=
    if IsNotFound e then NotAccepted "TargetNotFound" else LookupFailed e in
  if decide (trKind targetRef = "Gateway") then
    match looked_up with
    | Ok _ => ResolvedGateway (trName targetRef)
    | Err e => not_found e
    end
  else if decide (trKind targetRef = "HTTPRoute") then
    match looked_up with
    | Err e => not_found e
    | Ok route =>
        match NestedSlice (Object route) ["spec"; "parentRefs"] with
        | NFound (VMap firstParent :: _) =>
            match NestedString firstParent ["name"] with
            | NFound name =>
                if decide (name = "") then NotAccepted "InvalidParentRef"
                else ResolvedGateway name
            | _ => NotAccepted "InvalidParentRef"
            end
        | NFound (_ :: _) => NotAccepted "InvalidParentRef"
        | _ => NotAccepted "NoParentGateway"
        end
    end
  else NotAccepted "InvalidTargetRef".

(** The answer [looked_up] is the answer the pass got to the lookup of the
    target of [policy], which is the first call of [rest] for a policy that
    targets a Gateway or an HTTPRoute. *)
Definition lookup_answer (policy : WAFPolicy) (rest : list Event)
    (looked_up : answer Unstructured) : Prop :=
  (trKind (TargetRef (Spec policy)) = "Gateway" ->
   exists rest',
     rest = event (Get_Unstructured (target_key policy) gatewayShell) looked_up
            :: rest')
  /\ (trKind (TargetRef (Spec policy)) = "HTTPRoute" ->
      exists rest',
        rest = event (Get_Unstructured (target_key policy) routeShell) looked_up
               :: rest').

(** The outcomes of a pass that writes a status. *)
Inductive outcome :=
| Synthesized
| Refused (reason : string)
| SynthesisFailed (e : error).

(** The outcome of the calls [rest] of a pass on [policy] after the policy
    phase: the refusal target resolution ends in; or, for a resolved
    Gateway, whether the create-or-update of the Engine that follows the
    lookup returned an error. *)
Definition pass_outcome (r : WAFPolicyReconciler) (policy : WAFPolicy)
    (looked_up : answer Unstructured) (rest : list Event) (o : outcome) : Prop :=
  match spec_resolution policy looked_up with
  | NotAccepted reason => o = Refused reason
  | LookupFailed _ => False
  | ResolvedGateway gatewayName =>
      exists lookup tr1 tr2 op err engine,
        rest = (lookup :: tr1 ++ tr2)%list
        /\ Runs (CreateOrUpdate (engineObject policy)
                   (engineMutateFn r policy {[ gatewayNameLabel := gatewayName ]}))
             tr1 (op, err, engine)
        /\ o = match err with
               | None => Synthesized
               | Some e => SynthesisFailed e
               end
  end.

(** The status written for each outcome. *)
Definition outcome_status (o : outcome) (obj base : WAFPolicy)
    (res : Result * option error) : Prop :=
  match o with
  | Synthesized => writes_accepted obj
  | Refused reason =>
      In reason resolution_reasons /\ writes_not_accepted reason obj
  | SynthesisFailed e => writes_sync_failed obj base /\ snd res = Some e
  end.


(** The cluster of the controller tests with a new policy that targets an
    HTTPRoute which does not exist. *)
Definition new_route_policy : WAFPolicy :=
  with_Finalizers (Demo.policy_for "test-new-route" "HTTPRoute" "r9") [].

Definition new_route_cluster : Cluster.State :=
  {| Cluster.clock := 100;
     Cluster.policies := [new_route_policy];
     Cluster.engines := [];
     Cluster.objects := [Demo.gateway];
     Cluster.engine_writes_denied := false |}.

(** A store that holds [new_route_policy] and whose reads of targets fail
    with a timeout. *)
Definition timeout_new_env : Env :=
  {| env_state := unit;
     env_answer := fun c s =>
       (match c return Resp c with
        | time_Now => 0
        | Recorder_Event _ _ _ _ => tt
        | Get_WAFPolicy _ => Ok new_route_policy
        | Update_WAFPolicy obj => Ok obj
        | Status_Patch obj _ => Ok obj
        | List_WAFPolicy _ => Err timeout_error
        | Get_Engine _ | Create_Engine _ | Update_Engine _ => Err timeout_error
        | Get_Unstructured _ _ | Create_Unstructured _ | Update_Unstructured _ =>
            Err timeout_error
        end, s) |}.

(* ------------------------------------------------------------------------- *)
(** ** Runs of program trees *)
(* ------------------------------------------------------------------------- *)

Section RunsFacts.
Context {A B : Type}.

Lemma Runs_bind (p : Prog A) (f : A -> Prog B) (tr : list Event) (b : B) :
  Runs (bind p f) tr b <->
  exists tr1 a tr2, Runs p tr1 a /\ Runs (f a) tr2 b /\ tr = (tr1 ++ tr2)%list.
Proof.
  revert tr. induction p as [a | c k IH]; intros tr; simpl.
  - split.
    + intros H. exists [], a, tr. auto.
    + intros (tr1 & a' & tr2 & [-> ->] & H & ->). exact H.
  - split.
    + intros (r & tr' & -> & H). apply IH in H as (tr1 & a & tr2 & H1 & H2 & ->).
      exists (event c r :: tr1), a, tr2. repeat split; eauto.
    + intros (tr1 & a & tr2 & (r & tr' & -> & H1) & H2 & ->).
      exists r, (tr' ++ tr2)%list. split; [reflexivity |].
      apply IH. eauto 6.
Qed.
End RunsFacts.

Lemma Runs_call (c : Call) (tr : list Event) (r : Resp c) :
  Runs (call c) tr r <-> tr = [event c r].
Proof.
  unfold call. simpl. split.
  - intros (r' & tr' & -> & -> & ->). reflexivity.
  - intros ->. exists r, []. auto.
Qed.

(** Every environment gives a run: the programs always return. *)
Lemma run_Runs {A : Type} (env : Env) (p : Prog A) (s : env_state env) :
  Runs p (trace_of (run env p s)) (result_of (run env p s)).
Proof.
  revert s. induction p as [a | c k IH]; intros s; simpl.
  - split; reflexivity.
  - destruct (env_answer env c s) as [r s'] eqn:E.
    specialize (IH r s'). destruct (run env (k r) s') as [[a tr] s''].
    exists r, tr. split; [reflexivity | exact IH].
Qed.

Section AlwaysFacts.
Context {A : Type} (P : Call -> Prop).

Lemma always_mono (Q Q' : A -> Prop) (p : Prog A) :
  (forall a, Q a -> Q' a) -> always P Q p -> always P Q' p.
Proof.
  intros HQ. induction p as [a | c k IH]; simpl.
  - apply HQ.
  - intros [Hc Hk]. split; [exact Hc |]. intros r. apply IH, Hk.
Qed.

Lemma always_bind {B : Type} (Q : B -> Prop) (p : Prog A) (f : A -> Prog B) :
  always P (fun a => always P Q (f a)) p -> always P Q (bind p f).
Proof.
  induction p as [a | c k IH]; simpl.
  - auto.
  - intros [Hc Hk]. split; [exact Hc |]. intros r. apply IH, Hk.
Qed.

Lemma always_Runs (Q : A -> Prop) (p : Prog A) (tr : list Event) (a : A) :
  always P Q p -> Runs p tr a -> Forall P (calls tr) /\ Q a.
Proof.
  revert tr. induction p as [x | c k IH]; intros tr; simpl.
  - intros HQ [-> ->]. split; [constructor | exact HQ].
  - intros [Hc Hk] (r & tr' & -> & H).
    destruct (IH r tr' (Hk r) H) as [HF HQ].
    split; [constructor; assumption | exact HQ].
Qed.
End AlwaysFacts.

Lemma always_weaken {A : Type} (P P' : Call -> Prop) (Q : A -> Prop) (p : Prog A) :
  (forall c, P c -> P' c) -> always P Q p -> always P' Q p.
Proof.
  intros HP. induction p as [a | c k IH]; simpl.
  - auto.
  - intros [Hc Hk]. split; [auto |]. intros r. apply IH, Hk.
Qed.

(* ------------------------------------------------------------------------- *)
(** ** Status conditions *)
(* ------------------------------------------------------------------------- *)

Lemma Find_cons (c : Condition) (l : list Condition) (t : string) :
  FindStatusCondition (c :: l) t
  = if decide (Type_ c = t) then Some c else FindStatusCondition l t.
Proof.
  unfold FindStatusCondition. simpl.
  destruct (decide (Type_ c = t)); simpl; [reflexivity |].
  destruct (findIndex l t); reflexivity.
Qed.

Lemma findIndex_lookup (l : list Condition) (t : string) (i : nat) :
  findIndex l t = Some i -> exists c, l !! i = Some c /\ Type_ c = t.
Proof.
  revert i. induction l as [| c l IH]; intros i; simpl; [discriminate |].
  destruct (decide (Type_ c = t)) as [E | E].
  - intros [= <-]. exists c. auto.
  - destruct (findIndex l t) as [j |]; simpl; [| discriminate].
    intros [= <-]. destruct (IH j eq_refl) as (c' & H1 & H2). exists c'. auto.
Qed.

Lemma findIndex_notin (l : list Condition) (t : string) :
  findIndex l t = None -> t ∉ Type_ <$> l.
Proof.
  induction l as [| c l IH]; simpl; [intros _; apply not_elem_of_nil |].
  destruct (decide (Type_ c = t)) as [E | E]; [discriminate |].
  destruct (findIndex l t); [discriminate |]. intros _.
  apply not_elem_of_cons. split; [congruence | apply IH; reflexivity].
Qed.

Lemma Remove_unique (l : list Condition) (t : string) :
  unique_types l -> unique_types (RemoveStatusCondition l t).
Proof.
  unfold unique_types, RemoveStatusCondition. intros Hu.
  eapply sublist_NoDup; [exact Hu |]. apply fmap_sublist, sublist_filter.
Qed.

(** With unique types, the condition [FindStatusCondition] finds is the
    only one of its type. *)
Lemma unique_Find (l : list Condition) (c : Condition) :
  unique_types l -> In c l -> FindStatusCondition l (Type_ c) = Some c.
Proof.
  unfold unique_types. induction l as [| c' l IH]; [intros _ [] |].
  rewrite fmap_cons, NoDup_cons. intros [Hnotin Hu] [-> | Hin]; rewrite Find_cons.
  - destruct (decide (Type_ c = Type_ c)); congruence.
  - destruct (decide (Type_ c' = Type_ c)) as [E | E]; [| auto].
    exfalso. apply Hnotin. rewrite E. apply list_elem_of_fmap.
    exists c. split; [reflexivity | apply list_elem_of_In, Hin].
Qed.

Lemma findIndex_None (l : list Condition) (t : string) :
  findIndex l t = None -> FindStatusCondition l t = None.
Proof. unfold FindStatusCondition. intros ->. reflexivity. Qed.

Lemma Find_insert (l : list Condition) (t : string) (i : nat) (c' : Condition) :
  findIndex l t = Some i -> Type_ c' = t ->
  FindStatusCondition (<[ i := c' ]> l) t = Some c'
  /\ forall t', t' <> t ->
       FindStatusCondition (<[ i := c' ]> l) t' = FindStatusCondition l t'.
Proof.
  revert i. induction l as [| c l IH]; intros i; simpl; [discriminate |].
  destruct (decide (Type_ c = t)) as [E | E].
  - intros [= <-] Ht. simpl. split.
    + rewrite Find_cons. destruct (decide (Type_ c' = t)); congruence.
    + intros t' Hne. rewrite !Find_cons.
      destruct (decide (Type_ c' = t')), (decide (Type_ c = t')); congruence.
  - destruct (findIndex l t) as [j |] eqn:Ej; simpl; [| discriminate].
    intros [= <-] Ht. destruct (IH j eq_refl Ht) as [H1 H2]. simpl. split.
    + rewrite Find_cons. destruct (decide (Type_ c = t)); congruence.
    + intros t' Hne. rewrite !Find_cons.
      destruct (decide (Type_ c = t')); [reflexivity | apply H2, Hne].
Qed.

Lemma Find_app (l : list Condition) (c' : Condition) (t : string) :
  FindStatusCondition (l ++ [c'])%list t
  = match FindStatusCondition l t with
    | Some c => Some c
    | None => if decide (Type_ c' = t) then Some c' else None
    end.
Proof.
  induction l as [| c l IH]; simpl.
  - rewrite Find_cons. reflexivity.
  - rewrite !Find_cons. destruct (decide (Type_ c = t)); [reflexivity | exact IH].
Qed.

Lemma Find_Remove (l : list Condition) (t t' : string) :
  FindStatusCondition (RemoveStatusCondition l t) t'
  = if decide (t' = t) then None else FindStatusCondition l t'.
Proof.
  unfold RemoveStatusCondition. induction l as [| c l IH]; simpl.
  - destruct (decide (t' = t)); reflexivity.
  - rewrite filter_cons. destruct (decide (Type_ c <> t)) as [E | E].
    + rewrite !Find_cons. destruct (decide (Type_ c = t')) as [E' | E'].
      * destruct (decide (t' = t)); congruence.
      * exact IH.
    + rewrite IH, Find_cons. destruct (decide (t' = t)); [reflexivity |].
      destruct (decide (Type_ c = t')) as [E' | E']; [| reflexivity].
      exfalso. apply E. congruence.
Qed.

Lemma Remove_absent (l : list Condition) (t : string) :
  condition_absent (RemoveStatusCondition l t) t.
Proof.
  unfold condition_absent, RemoveStatusCondition. apply Forall_forall.
  intros c Hc. apply list_elem_of_filter in Hc. tauto.
Qed.

Lemma absent_Find (l : list Condition) (t : string) :
  condition_absent l t -> FindStatusCondition l t = None.
Proof.
  unfold condition_absent. induction 1 as [| c l Hc _ IH]; [reflexivity |].
  rewrite Find_cons. destruct (decide (Type_ c = t)); [contradiction | exact IH].
Qed.

(** [SetStatusCondition] only reads the clock, and leaves the condition of
    the new type with the new status and reason and every other type as it
    was. *)
Lemma SetStatusCondition_always (P : Call -> Prop) (conditions : list Condition)
    (newCondition : Condition) :
  P time_Now ->
  always P (set_post conditions newCondition)
    (SetStatusCondition conditions newCondition).
Proof.
  intros Hclock. unfold SetStatusCondition.
  destruct (findIndex conditions (Type_ newCondition)) as [i |] eqn:Ei.
  - destruct (findIndex_lookup _ _ _ Ei) as (existing & Hexisting & Ht).
    rewrite Hexisting.
    assert (forall transition,
      set_post conditions newCondition
        (<[ i := {| Type_ := Type_ existing; Status := Status newCondition;
                    ObservedGeneration := ObservedGeneration newCondition;
                    LastTransitionTime := transition;
                    Reason := Reason newCondition;
                    Message := Message newCondition |} ]> conditions)) as Hpost.
    { intros transition.
      edestruct (Find_insert conditions (Type_ newCondition) i) as [H1 H2];
        [exact Ei | | split; [eexists; split; [exact H1 |] | split; [exact H2 |]]];
        simpl; auto.
      unfold unique_types. rewrite list_fmap_insert, list_insert_id; [auto |].
      rewrite list_lookup_fmap, Hexisting. reflexivity. }
    destruct (decide (Status existing = Status newCondition)); simpl;
      [apply Hpost |].
    destruct (Time_IsZero (LastTransitionTime newCondition)); simpl;
      [split; [exact Hclock | intros r; apply Hpost] | apply Hpost].
  - pose proof (findIndex_notin _ _ Ei) as Hnotin. apply findIndex_None in Ei.
    assert (forall c, Type_ c = Type_ newCondition ->
              Status c = Status newCondition -> Reason c = Reason newCondition ->
              Message c = Message newCondition ->
              ObservedGeneration c = ObservedGeneration newCondition ->
              set_post conditions newCondition (conditions ++ [c])%list) as Hpost.
    { intros c Ht Hs Hr Hm Hg. split.
      - exists c. rewrite Find_app, Ei.
        destruct (decide (Type_ c = Type_ newCondition)); [auto | contradiction].
      - split.
        + intros t Hne. rewrite Find_app.
          destruct (FindStatusCondition conditions t); [reflexivity |].
          destruct (decide (Type_ c = t)); congruence.
        + unfold unique_types. intros Hu. rewrite fmap_app. apply NoDup_app.
          split; [exact Hu |]. split; [| apply NoDup_singleton].
          intros x Hx Hin. apply list_elem_of_singleton in Hin. simpl in Hin.
          subst x. rewrite Ht in Hx. contradiction. }
    destruct (Time_IsZero (LastTransitionTime newCondition)); simpl.
    + split; [exact Hclock |]. intros now. apply Hpost; reflexivity.
    + apply Hpost; reflexivity.
Qed.

Lemma SetStatusCondition_Runs (conditions : list Condition)
    (newCondition : Condition) (tr : list Event) (cs : list Condition) :
  Runs (SetStatusCondition conditions newCondition) tr cs ->
  Forall (fun c => c = time_Now) (calls tr) /\ set_post conditions newCondition cs.
Proof. apply always_Runs, SetStatusCondition_always. reflexivity. Qed.

(** The shape of every run of [setNotAccepted]: the event, clock reads, and
    one status patch that carries [Accepted=False] with the reason and no
    [Programmed] condition; the patch error is the result. *)
Lemma setNotAccepted_Runs (policy : WAFPolicy) (reason message : string)
    (tr : list Event) (res : option error) :
  Runs (setNotAccepted policy reason message) tr res ->
  exists (tr0 : list Event) (cs : list Condition) (patched : answer WAFPolicy),
    tr = (event (Recorder_Event policy "Warning" reason message) tt :: tr0
          ++ [event (Status_Patch (with_Conditions policy cs) policy) patched])%list
    /\ Forall (fun c => c = time_Now) (calls tr0)
    /\ writes_not_accepted reason (with_Conditions policy cs)
    /\ res = error_of patched
    /\ (unique_types (Conditions (Status_ policy)) -> unique_types cs).
Proof.
  unfold setNotAccepted. cbn [bind call Runs].
  intros (u & tr1 & -> & now & tr2 & -> & H).
  apply Runs_bind in H as (tr3 & cs & tr4 & Hset & H & ->).
  apply SetStatusCondition_Runs in Hset
    as [Hclock [(c & Hc & Hs & Hr & _) [Hother Hunique]]].
  cbn [bind call Runs] in H. destruct H as (patched & tr5 & -> & H).
  exists (event time_Now now :: tr3), (RemoveStatusCondition cs "Programmed"), patched.
  destruct u. repeat split.
  - rewrite <- app_comm_cons. do 2 f_equal.
    destruct patched; destruct H as [-> _]; reflexivity.
  - constructor; [reflexivity | exact Hclock].
  - exists c. simpl in *. rewrite Find_Remove. simpl. auto.
  - apply Remove_absent.
  - destruct patched; destruct H as [_ ->]; reflexivity.
  - intros Hu. apply Remove_unique, Hunique, Hu.
Qed.

(* ------------------------------------------------------------------------- *)
(** ** CreateOrUpdate and ensureEngine *)
(* ------------------------------------------------------------------------- *)

Lemma mutate_ok (f : Engine -> Engine * option error) (key : NamespacedName)
    (obj obj' : Engine) :
  mutate f key obj = (obj', None) ->
  f obj = (obj', None) /\ key = ObjectKeyFromObject obj'.
Proof.
  unfold mutate. destruct (f obj) as [o [e |]]; [discriminate |].
  destruct (decide (key = ObjectKeyFromObject o)); [| discriminate].
  intros [= <-]. auto.
Qed.

Lemma CreateOrUpdate_always (obj : Engine) (f : Engine -> Engine * option error) :
  always (upsert_call obj f) (fun _ => True) (CreateOrUpdate obj f).
Proof.
  unfold CreateOrUpdate. cbn [bind call always]. split; [reflexivity |].
  intros [existing | err].
  - destruct (mutate f (ObjectKeyFromObject obj) existing) as [o [e |]] eqn:Em;
      cbn [always]; [exact I |].
    apply mutate_ok in Em as [Ef Ek].
    destruct (decide (existing = o)); cbn [bind always]; [exact I |].
    split; [split; eauto |]. intros [? | ?]; exact I.
  - destruct (IsNotFound err); cbn [negb always]; [| exact I].
    destruct (mutate f (ObjectKeyFromObject obj) obj) as [o [e |]] eqn:Em;
      cbn [always]; [exact I |].
    apply mutate_ok in Em as [Ef Ek]. cbn [bind always].
    split; [split; eauto |]. intros [? | ?]; exact I.
Qed.

Lemma SetControllerReference_frame (owner : WAFPolicy) (controlled c' : Engine)
    (err : option error) :
  SetControllerReference owner controlled = (c', err) ->
  eSpec c' = eSpec controlled /\ eName c' = eName controlled
  /\ eNamespace c' = eNamespace controlled.
Proof.
  unfold SetControllerReference, upsertOwnerRef.
  repeat match goal with
         | |- context [match ?x with _ => _ end] => destruct x
         end; intros [= <- <-]; auto.
Qed.

Lemma engineMutateFn_spec (r : WAFPolicyReconciler) (policy : WAFPolicy)
    (workloadLabels : gmap string string) (e0 e : Engine) (err : option error) :
  engineMutateFn r policy workloadLabels e0 = (e, err) ->
  eSpec e = engineSpec r policy workloadLabels.
Proof.
  unfold engineMutateFn. intros H.
  apply SetControllerReference_frame in H as (-> & _ & _). reflexivity.
Qed.

(** The shape of every run of [ensureEngine]: the calls of [CreateOrUpdate],
    then a status phase with one patch.  When the upsert succeeded the patch
    carries [Accepted=True] and [Programmed=True]; when it failed the patch
    leaves [Accepted] as it was, carries [Programmed=False] with reason
    [EngineSyncFailed], and the upsert error is returned. *)
Lemma ensureEngine_Runs (r : WAFPolicyReconciler) (policy : WAFPolicy)
    (workloadLabels : gmap string string) (tr : list Event)
    (res : Result * option error) :
  Runs (ensureEngine r policy workloadLabels) tr res ->
  exists tr1 op err engine tr2 cs patched,
    Runs (CreateOrUpdate (engineObject policy)
            (engineMutateFn r policy workloadLabels)) tr1 (op, err, engine)
    /\ tr = (tr1 ++ tr2)%list
    /\ In (event (Status_Patch (with_Conditions policy cs) policy) patched) tr2
    /\ Forall (status_phase_call (Status_Patch (with_Conditions policy cs) policy))
         (calls tr2)
    /\ match err with
       | Some e => writes_sync_failed (with_Conditions policy cs) policy
                   /\ res = (Result_zero, Some e)
       | None => writes_accepted (with_Conditions policy cs)
                 /\ res = (Result_zero, error_of patched)
       end
    /\ (unique_types (Conditions (Status_ policy)) -> unique_types cs).
Proof.
  unfold ensureEngine. intros H.
  apply Runs_bind in H as (tr1 & [[op err] engine] & tr2 & H1 & H2 & ->).
  exists tr1, op, err, engine, tr2. destruct err as [e |].
  - unfold setConditionFalse in H2. cbn [bind call Runs] in H2.
    destruct H2 as (u & tr3 & -> & now & tr4 & -> & H2).
    apply Runs_bind in H2 as (tr5 & cs & tr6 & Hset & H2 & ->).
    apply SetStatusCondition_Runs in Hset
      as [Hclock [(c & Hc & Hs & Hr & _) [Hother Hunique]]].
    cbn [bind call Runs] in H2. destruct H2 as (patched & tr7 & -> & -> & ->).
    exists cs, patched. split; [exact H1 |]. split; [reflexivity |]. split.
    { simpl. right. right. apply in_or_app. right. left. reflexivity. }
    split.
    { unfold calls. simpl. do 2 (constructor; [exact I |]).
      rewrite map_app. apply Forall_app. split.
      - eapply Forall_impl; [exact Hclock |]. intros ? ->. exact I.
      - constructor; [reflexivity | constructor]. }
    split; [| exact Hunique]. split; [| reflexivity]. split.
    + simpl. apply Hother. discriminate.
    + exists c. auto.
  - cbn [bind call Runs] in H2. destruct H2 as (now & tr3 & -> & H2).
    apply Runs_bind in H2 as (tr4 & cs1 & tr5 & Hset1 & H2 & ->).
    apply SetStatusCondition_Runs in Hset1
      as [Hclock1 [(c1 & Hc1 & Hs1 & Hr1 & _) [_ Hunique1]]].
    cbn [bind call Runs] in H2. destruct H2 as (now' & tr6 & -> & H2).
    apply Runs_bind in H2 as (tr7 & cs & tr8 & Hset2 & H2 & ->).
    apply SetStatusCondition_Runs in Hset2
      as [Hclock2 [(c2 & Hc2 & Hs2 & Hr2 & _) [Hother Hunique2]]].
    cbn [bind call Runs] in H2. destruct H2 as (patched & tr9 & -> & H2).
    exists cs, patched. split; [exact H1 |]. split; [reflexivity |].
    assert (writes_accepted (with_Conditions policy cs)) as Hw.
    { split.
      - exists c1. simpl in *. rewrite Hother by discriminate. auto.
      - exists c2. auto. }
    assert (forall l, Forall (fun c => c = time_Now) l ->
              Forall (status_phase_call
                        (Status_Patch (with_Conditions policy cs) policy)) l)
      as Hcl by (intros l Hl; eapply Forall_impl; [exact Hl | intros ? ->; exact I]).
    destruct patched as [policy' | e]; cbn [bind call Runs] in H2.
    + destruct H2 as (u & tr10 & -> & -> & ->).
      split; [| split; [| split; [split; [exact Hw | reflexivity] | auto]]].
      * simpl. right. apply in_or_app. right. right. apply in_or_app. right.
        left. reflexivity.
      * unfold calls. simpl. constructor; [exact I |].
        rewrite map_app. apply Forall_app. split; [apply Hcl, Hclock1 |].
        simpl. constructor; [exact I |].
        rewrite map_app. apply Forall_app. split; [apply Hcl, Hclock2 |].
        repeat constructor.
    + destruct H2 as [-> ->].
      split; [| split; [| split; [split; [exact Hw | reflexivity] | auto]]].
      * simpl. right. apply in_or_app. right. right. apply in_or_app. right.
        left. reflexivity.
      * unfold calls. simpl. constructor; [exact I |].
        rewrite map_app. apply Forall_app. split; [apply Hcl, Hclock1 |].
        simpl. constructor; [exact I |].
        rewrite map_app. apply Forall_app. split; [apply Hcl, Hclock2 |].
        repeat constructor.
Qed.

(* ------------------------------------------------------------------------- *)
(** ** Events *)
(* ------------------------------------------------------------------------- *)

Lemma resp_at_event (c : Call) (r : Resp c) : resp_at c (event c r) = Some r.
Proof. destruct c; reflexivity. Qed.

Lemma event_inj (c : Call) (r r' : Resp c) : event c r = event c r' -> r = r'.
Proof.
  intros E. apply (f_equal (resp_at c)) in E.
  rewrite !resp_at_event in E. congruence.
Qed.

Lemma event_call (c c' : Call) (r : Resp c) (r' : Resp c') :
  event c r = event c' r' -> c = c'.
Proof. intros E. exact (f_equal call_of E). Qed.

Lemma cons_event_inj (c : Call) (r r' : Resp c) (tr tr' : list Event) :
  event c r :: tr = event c r' :: tr' -> r = r' /\ tr = tr'.
Proof. intros [= E ->]. split; [| reflexivity]. apply event_inj. exact E. Qed.

(* ------------------------------------------------------------------------- *)
(** ** The derived Engine: name, namespace and spec *)
(* ------------------------------------------------------------------------- *)

Lemma CreateOrUpdate_calls (obj : Engine) (f : Engine -> Engine * option error)
    (tr : list Event) (res : OperationResult * option error * Engine) :
  Runs (CreateOrUpdate obj f) tr res -> Forall (upsert_call obj f) (calls tr).
Proof. intros H. exact (proj1 (always_Runs _ _ _ _ _ (CreateOrUpdate_always obj f) H)). Qed.

Lemma CreateOrUpdate_first (obj : Engine) (f : Engine -> Engine * option error)
    (tr : list Event) (res : OperationResult * option error * Engine) :
  Runs (CreateOrUpdate obj f) tr res ->
  exists got tr', tr = event (Get_Engine (ObjectKeyFromObject obj)) got :: tr'.
Proof.
  unfold CreateOrUpdate. cbn [bind call Runs]. intros (got & tr' & -> & _). eauto.
Qed.

Example ensureEngine_creates_wafpolicy_test_gw :
  let programmed :=
    with_Conditions Demo.gw_policy
      [ {| Type_ := "Accepted"; Status := ConditionTrue;
           ObservedGeneration := 1; LastTransitionTime := 101;
           Reason := "Accepted"; Message := "WAFPolicy is accepted" |};
        {| Type_ := "Programmed"; Status := ConditionTrue;
           ObservedGeneration := 1; LastTransitionTime := 102;
           Reason := "Programmed";
           Message := "Engine " +:+ fmt_q "wafpolicy-test-gw" +:+ " created" |} ] in
  calls (trace_of (Demo.run_in [] false
           (ensureEngine Demo.reconciler Demo.gw_policy ∅)))
  = [Get_Engine (Demo.key "wafpolicy-test-gw");
     Create_Engine
       (fst (engineMutateFn Demo.reconciler Demo.gw_policy ∅
               (engineObject Demo.gw_policy)));
     time_Now; time_Now;
     Status_Patch programmed Demo.gw_policy;
     Recorder_Event programmed "Normal" "Programmed"
       "Engine default/wafpolicy-test-gw created"].
Proof. vm_compute. reflexivity. Qed.

(* ------------------------------------------------------------------------- *)
(** ** The translator configuration *)
(* ------------------------------------------------------------------------- *)

(** C10. Two translator configurations with the same default image and poll
    interval, whatever their [EnvoyClusterName], give the same Engine spec
    and the same [ensureEngine] program for every policy and workload
    selector. *)
Theorem EnvoyClusterName_never_read (cfg1 cfg2 : WAFPolicyTranslatorConfig)
    (policy : WAFPolicy) (workloadLabels : gmap string string) :
  DefaultWasmImage cfg1 = DefaultWasmImage cfg2 ->
  DefaultPollInterval cfg1 = DefaultPollInterval cfg2 ->
  engineSpec {| Config := cfg1 |} policy workloadLabels
  = engineSpec {| Config := cfg2 |} policy workloadLabels
  /\ ensureEngine {| Config := cfg1 |} policy workloadLabels
     = ensureEngine {| Config := cfg2 |} policy workloadLabels.
Proof.
  destruct cfg1 as [image1 poll1 name1], cfg2 as [image2 poll2 name2].
  simpl. intros -> ->. split; reflexivity.
Qed.

Lemma EnvoyClusterName_never_read_witness :
  engineSpec Demo.reconciler Demo.gw_policy {[ gatewayNameLabel := "gw1" ]}
  = engineSpec
      {| Config := {| DefaultWasmImage := DefaultWasmImage (Config Demo.reconciler);
                      DefaultPollInterval := 15;
                      EnvoyClusterName := "another-cluster" |} |}
      Demo.gw_policy {[ gatewayNameLabel := "gw1" ]}.
Proof.
  exact (proj1 (EnvoyClusterName_never_read (Config Demo.reconciler)
                  {| DefaultWasmImage := DefaultWasmImage (Config Demo.reconciler);
                     DefaultPollInterval := 15;
                     EnvoyClusterName := "another-cluster" |}
                  Demo.gw_policy {[ gatewayNameLabel := "gw1" ]}
                  eq_refl eq_refl)).
Defined.

(* ------------------------------------------------------------------------- *)
(** ** Watch fan-out *)
(* ------------------------------------------------------------------------- *)

Lemma findPoliciesForTarget_Runs (kind name namespace : string)
    (tr : list Event) (res : list NamespacedName) :
  Runs (findPoliciesForTarget kind name namespace) tr res ->
  exists listed,
    tr = [event (List_WAFPolicy namespace) listed]
    /\ res = match listed with
             | Err _ => []
             | Ok items => map policy_key (filter (targets kind name) items)
             end.
Proof.
  unfold findPoliciesForTarget. cbn [bind call Runs].
  intros (listed & tr' & -> & H). exists listed.
  destruct listed; destruct H as [-> ->]; split; reflexivity.
Qed.

(** C9. [findPoliciesForTarget kind name namespace] lists the policies of the
    namespace once.  When the listing fails it returns the empty list.  When
    the listing holds exactly the policies of the namespace among the
    policies [stored], the keys returned are exactly the keys of the stored
    policies of that namespace whose targetRef has that kind and that
    name. *)
Theorem findPoliciesForTarget_exact (kind name namespace : string)
    (stored : list WAFPolicy) (tr : list Event) (res : list NamespacedName) :
  Runs (findPoliciesForTarget kind name namespace) tr res ->
  exists listed,
    tr = [event (List_WAFPolicy namespace) listed]
    /\ match listed with
       | Err _ => res = []
       | Ok items =>
           (forall p, In p items <-> In p stored /\ Namespace p = namespace) ->
           forall key,
             In key res <->
             exists p, In p stored /\ Namespace p = namespace
                       /\ trKind (TargetRef (Spec p)) = kind
                       /\ trName (TargetRef (Spec p)) = name
                       /\ key = {| nnNamespace := Namespace p; nnName := Name p |}
       end.
Proof.
  intros H. apply findPoliciesForTarget_Runs in H as (listed & -> & ->).
  exists listed. split; [reflexivity |].
  destruct listed as [items | e]; [| reflexivity].
  intros Hlist key. rewrite in_map_iff. split.
  - intros (p & <- & Hp). apply list_elem_of_In, list_elem_of_filter in Hp.
    destruct Hp as [[Hk Hn] Hp]. apply list_elem_of_In, Hlist in Hp as [Hs Hns].
    exists p. auto.
  - intros (p & Hs & Hns & Hk & Hn & ->). exists p. split; [reflexivity |].
    apply list_elem_of_In, list_elem_of_filter. split; [split; assumption |].
    apply list_elem_of_In, Hlist. auto.
Qed.

Lemma findPoliciesForTarget_exact_witness :
  Runs (findPoliciesForTarget "Gateway" "gw1" "default")
    [event (List_WAFPolicy "default") (Ok [Demo.gw_policy; Demo.route_policy])]
    [Demo.key "test-gw"]
  /\ exists listed,
       [event (List_WAFPolicy "default") (Ok [Demo.gw_policy; Demo.route_policy])]
       = [event (List_WAFPolicy "default") listed]
       /\ match listed with
          | Err _ => [Demo.key "test-gw"] = []
          | Ok items =>
              (forall p, In p items <->
                         In p [Demo.gw_policy; Demo.route_policy]
                         /\ Namespace p = "default") ->
              forall key,
                In key [Demo.key "test-gw"] <->
                exists p, In p [Demo.gw_policy; Demo.route_policy]
                          /\ Namespace p = "default"
                          /\ trKind (TargetRef (Spec p)) = "Gateway"
                          /\ trName (TargetRef (Spec p)) = "gw1"
                          /\ key = {| nnNamespace := Namespace p; nnName := Name p |}
          end.
Proof.
  assert (Runs (findPoliciesForTarget "Gateway" "gw1" "default")
            [event (List_WAFPolicy "default") (Ok [Demo.gw_policy; Demo.route_policy])]
            [Demo.key "test-gw"]) as H.
  { unfold findPoliciesForTarget. cbn [bind call Runs].
    eexists; eexists; split; [reflexivity |]. split; reflexivity. }
  split; [exact H |].
  exact (findPoliciesForTarget_exact "Gateway" "gw1" "default"
           [Demo.gw_policy; Demo.route_policy] _ _ H).
Defined.

Example findPoliciesForTarget_on_list_error :
  result_of (run {| env_state := unit;
                    env_answer := fun c s =>
                      (match c return Resp c with
                       | time_Now => 0
                       | Recorder_Event _ _ _ _ => tt
                       | _ => Err (StatusError StatusReasonTimeout "timeout")
                       end, s) |}
               (findPoliciesForTarget "Gateway" "gw1" "default") tt)
  = [].
Proof. reflexivity. Qed.

(* ------------------------------------------------------------------------- *)
(** ** createOrUpdate *)
(* ------------------------------------------------------------------------- *)

Lemma map_get_set_eq (k : string) (v : value) (m : list (string * value)) :
  map_get k (map_set k v m) = Some v.
Proof.
  induction m as [| [k' v'] m IH]; simpl.
  - destruct (decide (k = k)); congruence.
  - destruct (decide (k' = k)) as [E | E]; simpl.
    + destruct (decide (k = k)); congruence.
    + destruct (decide (k' = k)); [contradiction | exact IH].
Qed.

Lemma map_get_delete_eq (k : string) (m : list (string * value)) :
  map_get k (map_delete k m) = None.
Proof.
  induction m as [| [k' v'] m IH]; simpl; [reflexivity |].
  destruct (decide (k' = k)) as [E | E]; simpl; [exact IH |].
  destruct (decide (k' = k)); [contradiction | exact IH].
Qed.

Lemma GetName_metadata (u : Unstructured) :
  GetName u <> "" -> exists md, map_get "metadata" (Object u) = Some (VMap md).
Proof.
  unfold GetName, getNestedString, NestedString. simpl.
  destruct (map_get "metadata" (Object u)) as [[] |]; simpl; try congruence.
  eauto.
Qed.

(** The version token is really copied: an object with a name reads back the
    resource version that was set on it. *)
Lemma GetResourceVersion_SetResourceVersion (u : Unstructured) (rv : string) :
  GetName u <> "" -> GetResourceVersion (SetResourceVersion u rv) = rv.
Proof.
  intros Hn. destruct (GetName_metadata u Hn) as (md & Hmd).
  unfold SetResourceVersion, GetResourceVersion, getNestedString, NestedString,
    setNestedField.
  destruct (decide (rv = "")) as [-> | Hrv]; simpl; rewrite Hmd; simpl.
  - rewrite map_get_set_eq, map_get_delete_eq. reflexivity.
  - rewrite map_get_set_eq, map_get_set_eq. reflexivity.
Qed.

Lemma surfaces_reason (cause : error) (res : option error) :
  surfaces cause res ->
  exists e, res = Some e /\ ReasonForError e = ReasonForError cause
            /\ IsConflict e = IsConflict cause.
Proof. intros (text & ->). eexists. repeat split; reflexivity. Qed.

(** C5. For a desired object with kind and name, [createOrUpdate] first gets
    the object by its identity.  On not-found it calls create with the
    desired object, and returns no error when the create succeeds.  On found
    it calls update, once, with the desired object carrying the resource
    version of the object it got; an update error, a conflict included,
    comes back to the caller wrapped, with its reason, and no further call is
    made. *)
Theorem createOrUpdate_get_then_write (desired : Unstructured)
    (tr : list Event) (res : option error) :
  Empty (GroupVersionKind_of desired) = false -> GetName desired <> "" ->
  Runs (createOrUpdate desired) tr res ->
  exists (key : NamespacedName) (got : answer Unstructured),
    let get :=
      event (Get_Unstructured key
               (SetGroupVersionKind {| Object := [] |}
                  (GroupVersionKind_of desired))) got in
    nnName key = GetName desired
    /\ (GetNamespace desired <> "" -> nnNamespace key = GetNamespace desired)
    /\ match got with
       | Err e =>
           if IsNotFound e then
             exists created,
               tr = [get; event (Create_Unstructured desired) created]
               /\ write_result created res
           else tr = [get] /\ write_result (Err e) res
       | Ok resource =>
           exists desired' updated,
             tr = [get; event (Update_Unstructured desired') updated]
             /\ desired' = SetResourceVersion desired (GetResourceVersion resource)
             /\ GetResourceVersion desired' = GetResourceVersion resource
             /\ write_result updated res
       end.
Proof.
  unfold createOrUpdate. intros -> Hn.
  destruct (decide (GetName desired = "")); [contradiction |].
  cbn [bind call Runs]. intros (got & tr' & -> & H).
  exists {| nnNamespace := if decide (GetNamespace desired = "")
                            then NamespaceDefault else GetNamespace desired;
            nnName := GetName desired |}, got.
  cbn zeta. split; [reflexivity |]. split.
  { cbn [nnNamespace]. destruct (decide (GetNamespace desired = ""));
      [contradiction | reflexivity]. }
  destruct got as [resource | e].
  - cbn [bind call Runs] in H. destruct H as (updated & tr'' & -> & H).
    eexists; exists updated.
    destruct updated; destruct H as [-> ->];
      (split; [reflexivity |]); (split; [reflexivity |]);
      (split; [apply GetResourceVersion_SetResourceVersion, Hn |]);
      cbn [write_result];
      [reflexivity | apply surfaces_reason; eexists; reflexivity].
  - destruct (IsNotFound e).
    + cbn [bind call Runs] in H. destruct H as (created & tr'' & -> & H).
      exists created.
      destruct created; destruct H as [-> ->]; (split; [reflexivity |]);
        cbn [write_result];
        [reflexivity | apply surfaces_reason; eexists; reflexivity].
    + destruct H as [-> ->]. split; [reflexivity |].
      apply surfaces_reason. eexists. reflexivity.
Qed.

Lemma createOrUpdate_get_then_write_witness :
  Empty (GroupVersionKind_of Demo.gateway) = false
  /\ GetName Demo.gateway <> ""
  /\ calls (trace_of (Demo.run_in [Demo.gateway] false
                        (createOrUpdate Demo.gateway)))
     = [Get_Unstructured (Demo.key "gw1")
          (SetGroupVersionKind {| Object := [] |} GatewayGVK);
        Update_Unstructured Demo.gateway]
  /\ exists (key : NamespacedName) (got : answer Unstructured),
       nnName key = GetName Demo.gateway
       /\ (GetNamespace Demo.gateway <> "" ->
           nnNamespace key = GetNamespace Demo.gateway).
Proof.
  split; [reflexivity |]. split; [discriminate |]. split; [reflexivity |].
  destruct (createOrUpdate_get_then_write Demo.gateway _ _ eq_refl
              ltac:(discriminate)
              (run_Runs Cluster.env _ (Demo.cluster [Demo.gateway] false)))
    as (key & got & Hname & Hns & _).
  exists key, got. split; assumption.
Defined.

(** A writer that got in between: the update is refused with a conflict and
    [createOrUpdate] hands the conflict back after that one attempt. *)
Example createOrUpdate_conflict_surfaces :
  let stale := StatusError StatusReasonConflict "the object has been modified" in
  Runs (createOrUpdate Demo.gateway)
    [event (Get_Unstructured (Demo.key "gw1")
              (SetGroupVersionKind {| Object := [] |} GatewayGVK))
       (Ok (SetResourceVersion Demo.gateway "7"));
     event (Update_Unstructured (SetResourceVersion Demo.gateway "7")) (Err stale)]
    (Some (fmt_Errorf_w "failed to update Gateway/gw1 in namespace default: " stale)).
Proof.
  unfold createOrUpdate. cbn [bind call Runs].
  simpl. eexists; eexists; split; [reflexivity |]. simpl.
  eexists; eexists; split; [reflexivity |]. split; reflexivity.
Qed.

(* ------------------------------------------------------------------------- *)
(** ** Deletion *)
(* ------------------------------------------------------------------------- *)

Lemma RemoveFinalizer_frame (policy : WAFPolicy) (finalizer : string) :
  let policy' := RemoveFinalizer policy finalizer in
  Finalizers policy' = filter (fun f => f <> finalizer) (Finalizers policy)
  /\ Name policy' = Name policy /\ Namespace policy' = Namespace policy
  /\ UID policy' = UID policy /\ ResourceVersion policy' = ResourceVersion policy
  /\ Generation policy' = Generation policy
  /\ DeletionTimestamp policy' = DeletionTimestamp policy
  /\ Spec policy' = Spec policy /\ Status_ policy' = Status_ policy.
Proof. repeat split; reflexivity. Qed.

(** C6. When the policy the pass fetched has its deletion timestamp set, the
    pass makes one more call only if the finalizer is present: an update of
    the policy with the finalizer taken out of its finalizer list and every
    other field as fetched.  It makes no get of a target, no Engine call, no
    status patch and emits no event.  It returns an empty result, with no
    error unless that update failed. *)
Theorem Reconcile_deletion (r : WAFPolicyReconciler) (req : NamespacedName)
    (policy : WAFPolicy) (t : Time) (tr : list Event)
    (res : Result * option error) :
  DeletionTimestamp policy = Some t -> t <> 0 ->
  Runs (Reconcile r req) (event (Get_WAFPolicy req) (Ok policy) :: tr) res ->
  if ContainsFinalizer policy wafPolicyFinalizer
  then exists updated,
         tr = [event (Update_WAFPolicy
                        (with_Finalizers policy
                           (filter (fun f => f <> wafPolicyFinalizer)
                              (Finalizers policy)))) updated]
         /\ res = (Result_zero, error_of updated)
  else tr = [] /\ res = (Result_zero, None).
Proof.
  intros Hdel Ht. unfold Reconcile. cbn [bind call Runs].
  intros (got & tr' & E & H). apply cons_event_inj in E as [<- <-].
  unfold DeletionTimestamp_IsZero, Time_IsZero in H. rewrite Hdel in H.
  rewrite bool_decide_eq_false_2 in H by exact Ht. cbn [negb] in H.
  unfold handleDeletion in H.
  destruct (ContainsFinalizer policy wafPolicyFinalizer).
  - cbn [bind call Runs] in H. destruct H as (updated & tr'' & -> & H).
    exists updated. destruct updated; destruct H as [-> ->]; split; reflexivity.
  - destruct H as [-> ->]. split; reflexivity.
Qed.

Lemma Reconcile_deletion_witness :
  DeletionTimestamp Demo.deleting_policy = Some 50 /\ 50 <> 0
  /\ calls (trace_of (Demo.run_in [Demo.gateway] false
                        (Reconcile Demo.reconciler (Demo.key "test-del"))))
     = [Get_WAFPolicy (Demo.key "test-del");
        Update_WAFPolicy (with_Finalizers Demo.deleting_policy [])]
  /\ exists updated,
       [event (Update_WAFPolicy (with_Finalizers Demo.deleting_policy []))
          (Ok (with_Finalizers Demo.deleting_policy []))]
       = [event (Update_WAFPolicy
                   (with_Finalizers Demo.deleting_policy
                      (filter (fun f => f <> wafPolicyFinalizer)
                         (Finalizers Demo.deleting_policy)))) updated]
       /\ result_of (Demo.run_in [Demo.gateway] false
                       (Reconcile Demo.reconciler (Demo.key "test-del")))
          = (Result_zero, error_of updated).
Proof.
  split; [reflexivity |]. split; [discriminate |]. split; [reflexivity |].
  exact (Reconcile_deletion Demo.reconciler (Demo.key "test-del")
           Demo.deleting_policy 50 _ _ eq_refl ltac:(discriminate)
           (run_Runs Cluster.env (Reconcile Demo.reconciler (Demo.key "test-del"))
              (Demo.cluster [Demo.gateway] false))).
Defined.

(* ------------------------------------------------------------------------- *)
(** ** Target resolution *)
(* ------------------------------------------------------------------------- *)

Lemma setNotAccepted_refused (policy : WAFPolicy) (reason message : string)
    (requeue : bool) (tr : list Event) (err : option error) :
  Runs (setNotAccepted policy reason message) tr err ->
  refused policy reason requeue tr ({| Requeue := requeue; RequeueAfter := 0 |}, err).
Proof.
  intros H.
  apply setNotAccepted_Runs in H as (tr0 & cs & patched & -> & Hc & Hw & -> & Hu).
  exists cs, patched.
  split; [| split; [exact Hw | split; [| split; [reflexivity | exact Hu]]]].
  - right. apply in_or_app. right. left. reflexivity.
  - unfold calls. cbn [map]. constructor; [exact I |].
    rewrite map_app. apply Forall_app. split.
    + eapply Forall_impl; [exact Hc | intros ? ->; exact I].
    + repeat constructor.
Qed.

(** A [bind] whose second part only wraps the result. *)
Lemma Runs_bind_Ret {A B : Type} (p : Prog A) (g : A -> B) (tr : list Event) (b : B) :
  Runs (bind p (fun a => Ret (g a))) tr b -> exists a, Runs p tr a /\ b = g a.
Proof.
  intros H. apply Runs_bind in H as (tr1 & a & tr2 & H1 & [-> ->] & ->).
  rewrite app_nil_r. eauto.
Qed.

Lemma reconcileForGateway_cases (r : WAFPolicyReconciler) (policy : WAFPolicy)
    (tr : list Event) (res : Result * option error) :
  Runs (reconcileForGateway r policy) tr res ->
  exists got tr',
    tr = event (Get_Unstructured (target_key policy) gatewayShell) got :: tr'
    /\ match got with
       | Err e =>
           if IsNotFound e then refused policy "TargetNotFound" true tr' res
           else tr' = [] /\ res = (Result_zero, Some e)
       | Ok _ =>
           Runs (ensureEngine r policy
                   {[ gatewayNameLabel := trName (TargetRef (Spec policy)) ]}) tr' res
       end.
Proof.
  unfold reconcileForGateway. cbn [bind call Runs].
  intros (got & tr' & -> & H). exists got, tr'. split; [reflexivity |].
  destruct got as [gw | e]; [exact H |].
  destruct (IsNotFound e); [| exact H].
  apply Runs_bind_Ret in H as (err & H & ->).
  eapply setNotAccepted_refused. exact H.
Qed.

Lemma reconcileForHTTPRoute_cases (r : WAFPolicyReconciler) (policy : WAFPolicy)
    (tr : list Event) (res : Result * option error) :
  Runs (reconcileForHTTPRoute r policy) tr res ->
  exists got tr',
    tr = event (Get_Unstructured (target_key policy) routeShell) got :: tr'
    /\ match got with
       | Err e =>
           if IsNotFound e then refused policy "TargetNotFound" true tr' res
           else tr' = [] /\ res = (Result_zero, Some e)
       | Ok route =>
           match NestedSlice (Object route) ["spec"; "parentRefs"] with
           | NError _ | NAbsent | NFound [] =>
               refused policy "NoParentGateway" false tr' res
           | NFound (VMap firstParent :: _) =>
               let gatewayName :=
                 nested_string (NestedString firstParent ["name"]) in
               if decide (gatewayName = "")
               then refused policy "InvalidParentRef" false tr' res
               else Runs (ensureEngine r policy
                            {[ gatewayNameLabel := gatewayName ]}) tr' res
           | NFound (_ :: _) => refused policy "InvalidParentRef" false tr' res
           end
       end.
Proof.
  unfold reconcileForHTTPRoute. cbn [bind call Runs].
  intros (got & tr' & -> & H). exists got, tr'. split; [reflexivity |].
  assert (forall reason message,
            Runs (err <- setNotAccepted policy reason message ;; Ret (Result_zero, err))
              tr' res -> refused policy reason false tr' res) as Hrefuse.
  { intros reason message H'. apply Runs_bind_Ret in H' as (err & H' & ->).
    eapply setNotAccepted_refused. exact H'. }
  destruct got as [route | e].
  - destruct (NestedSlice (Object route) ["spec"; "parentRefs"]) as [[| first rest] | |];
      try (eapply Hrefuse; exact H).
    destruct first; try (eapply Hrefuse; exact H).
    cbn zeta in H |- *.
    destruct (decide (nested_string (NestedString m ["name"]) = ""));
      [eapply Hrefuse; exact H | exact H].
  - destruct (IsNotFound e); [| exact H].
    apply Runs_bind_Ret in H as (err & H & ->).
    eapply setNotAccepted_refused. exact H.
Qed.

Lemma reconcileTarget_cases (r : WAFPolicyReconciler) (policy : WAFPolicy)
    (tr : list Event) (res : Result * option error) :
  Runs (reconcileTarget r policy) tr res ->
  (trKind (TargetRef (Spec policy)) = "Gateway"
   /\ Runs (reconcileForGateway r policy) tr res)
  \/ (trKind (TargetRef (Spec policy)) = "HTTPRoute"
      /\ Runs (reconcileForHTTPRoute r policy) tr res)
  \/ (trKind (TargetRef (Spec policy)) <> "Gateway"
      /\ trKind (TargetRef (Spec policy)) <> "HTTPRoute"
      /\ refused policy "InvalidTargetRef" false tr res).
Proof.
  unfold reconcileTarget.
  destruct (decide (trKind (TargetRef (Spec policy)) = "Gateway")); [auto |].
  destruct (decide (trKind (TargetRef (Spec policy)) = "HTTPRoute")); [auto |].
  intros H. right. right. apply Runs_bind_Ret in H as (err & H & ->).
  repeat split; try assumption. eapply setNotAccepted_refused. exact H.
Qed.

(** The steps of [Reconcile] before target resolution. *)
Lemma Reconcile_cases (r : WAFPolicyReconciler) (req : NamespacedName)
    (tr : list Event) (res : Result * option error) :
  Runs (Reconcile r req) tr res ->
  exists got tr',
    tr = event (Get_WAFPolicy req) got :: tr'
    /\ match got with
       | Err e =>
           tr' = [] /\ res = (Result_zero, if IsNotFound e then None else Some e)
       | Ok policy =>
           if negb (DeletionTimestamp_IsZero policy)
           then Runs (handleDeletion policy) tr' res
           else if ContainsFinalizer policy wafPolicyFinalizer
           then Runs (reconcileTarget r policy) tr' res
           else exists updated tr'',
               tr' = event (Update_WAFPolicy
                              (AddFinalizer policy wafPolicyFinalizer)) updated
                     :: tr''
               /\ match updated with
                  | Err e => tr'' = [] /\ res = (Result_zero, Some e)
                  | Ok policy' => Runs (reconcileTarget r policy') tr'' res
                  end
       end.
Proof.
  unfold Reconcile. cbn [bind call Runs].
  intros (got & tr' & -> & H). exists got, tr'. split; [reflexivity |].
  destruct got as [policy | e].
  - destruct (negb (DeletionTimestamp_IsZero policy)); [exact H |].
    destruct (ContainsFinalizer policy wafPolicyFinalizer); cbn [negb] in H;
      [exact H |].
    cbn [bind call Runs] in H. destruct H as (updated & tr'' & -> & H).
    exists updated, tr''. split; [reflexivity |]. destruct updated; exact H.
  - destruct (IsNotFound e); exact H.
Qed.

Lemma handleDeletion_cases (policy : WAFPolicy) (tr : list Event)
    (res : Result * option error) :
  Runs (handleDeletion policy) tr res ->
  tr = [] \/ exists updated,
    tr = [event (Update_WAFPolicy (RemoveFinalizer policy wafPolicyFinalizer))
            updated].
Proof.
  unfold handleDeletion. destruct (ContainsFinalizer policy wafPolicyFinalizer).
  - cbn [bind call Runs]. intros (updated & tr' & -> & H). right. exists updated.
    destruct updated; destruct H as [-> _]; reflexivity.
  - intros [-> _]. left. reflexivity.
Qed.

(* ------------------------------------------------------------------------- *)
(** ** What a reconciliation pass may call *)
(* ------------------------------------------------------------------------- *)

Section CallInvariant.
Variable P : Call -> Prop.
Hypothesis P_clock : P time_Now.
Hypothesis P_event : forall obj eventtype reason message,
    P (Recorder_Event obj eventtype reason message).
Hypothesis P_get_policy : forall key, P (Get_WAFPolicy key).
Hypothesis P_update_policy : forall obj, P (Update_WAFPolicy obj).
Hypothesis P_get_target : forall key into, P (Get_Unstructured key into).
Hypothesis P_engine : forall c, is_engine_call c -> P c.
Hypothesis P_status : forall obj base,
    status_kind obj base ->
    (unique_types (Conditions (Status_ base)) ->
     unique_types (Conditions (Status_ obj))) ->
    P (Status_Patch obj base).

Lemma status_phase_invariant (obj base : WAFPolicy) (l : list Call) :
  status_kind obj base ->
  (unique_types (Conditions (Status_ base)) ->
   unique_types (Conditions (Status_ obj))) ->
  Forall (status_phase_call (Status_Patch obj base)) l -> Forall P l.
Proof.
  intros Hk Hu HF. eapply Forall_impl; [exact HF |].
  intros [] Hc; simpl in Hc; try contradiction; auto.
  injection Hc as -> ->. auto.
Qed.

Lemma refused_invariant (policy : WAFPolicy) (reason : string) (requeue : bool)
    (tr : list Event) (res : Result * option error) :
  In reason resolution_reasons ->
  refused policy reason requeue tr res -> Forall P (calls tr).
Proof.
  intros Hr (cs & patched & _ & Hw & Hc & _ & Hu).
  eapply status_phase_invariant; [| | exact Hc]; [right; left; eauto | exact Hu].
Qed.

Lemma ensureEngine_invariant (r : WAFPolicyReconciler) (policy : WAFPolicy)
    (workloadLabels : gmap string string) (tr : list Event)
    (res : Result * option error) :
  Runs (ensureEngine r policy workloadLabels) tr res -> Forall P (calls tr).
Proof.
  intros H.
  apply ensureEngine_Runs in H
    as (tr1 & op & err & engine & tr2 & cs & patched & H1 & -> & _ & H2 & Hk & Hu).
  unfold calls. rewrite map_app. apply Forall_app. split.
  - eapply Forall_impl; [exact (CreateOrUpdate_calls _ _ _ _ H1) |].
    intros [] Hc; simpl in Hc; try contradiction; apply P_engine; exact I.
  - eapply status_phase_invariant; [| | exact H2]; [| exact Hu].
    destruct err; [right; right; tauto | left; tauto].
Qed.

Lemma reconcileTarget_invariant (r : WAFPolicyReconciler) (policy : WAFPolicy)
    (tr : list Event) (res : Result * option error) :
  Runs (reconcileTarget r policy) tr res -> Forall P (calls tr).
Proof.
  intros H. apply reconcileTarget_cases in H as [[_ H] | [[_ H] | (_ & _ & H)]].
  - apply reconcileForGateway_cases in H as (got & tr' & -> & H).
    constructor; [apply P_get_target |].
    destruct got as [gw | e]; [eapply ensureEngine_invariant; exact H |].
    destruct (IsNotFound e).
    + eapply refused_invariant; [| exact H]. simpl. auto.
    + destruct H as [-> _]. constructor.
  - apply reconcileForHTTPRoute_cases in H as (got & tr' & -> & H).
    constructor; [apply P_get_target |].
    assert (forall reason requeue, In reason resolution_reasons ->
              refused policy reason requeue tr' res -> Forall P (calls tr'))
      as Hrefused by (intros; eapply refused_invariant; eassumption).
    destruct got as [route | e].
    + destruct (NestedSlice (Object route) ["spec"; "parentRefs"])
        as [[| first rest] | |];
        try (eapply Hrefused; [| exact H]; simpl; tauto).
      destruct first; try (eapply Hrefused; [| exact H]; simpl; tauto).
      cbn zeta in H.
      destruct (decide (nested_string (NestedString m ["name"]) = ""));
        [eapply Hrefused; [| exact H]; simpl; tauto |].
      eapply ensureEngine_invariant; exact H.
    + destruct (IsNotFound e).
      * eapply Hrefused; [| exact H]. simpl. auto.
      * destruct H as [-> _]. constructor.
  - eapply refused_invariant; [| exact H]. simpl. auto.
Qed.

Lemma Reconcile_invariant (r : WAFPolicyReconciler) (req : NamespacedName)
    (tr : list Event) (res : Result * option error) :
  Runs (Reconcile r req) tr res -> Forall P (calls tr).
Proof.
  intros H. apply Reconcile_cases in H as (got & tr' & -> & H).
  constructor; [apply P_get_policy |].
  destruct got as [policy | e]; [| destruct H as [-> _]; constructor].
  destruct (negb (DeletionTimestamp_IsZero policy)).
  { apply handleDeletion_cases in H as [-> | (updated & ->)];
      repeat constructor. apply P_update_policy. }
  destruct (ContainsFinalizer policy wafPolicyFinalizer);
    [eapply reconcileTarget_invariant; exact H |].
  destruct H as (updated & tr'' & -> & H).
  constructor; [apply P_update_policy |].
  destruct updated as [policy' | e];
    [eapply reconcileTarget_invariant; exact H | destruct H as [-> _]; constructor].
Qed.
End CallInvariant.

(* ------------------------------------------------------------------------- *)
(** ** Accepted and Programmed *)
(* ------------------------------------------------------------------------- *)

Lemma status_kind_consistent (obj base : WAFPolicy) :
  status_kind obj base -> ~ programmed_unaccepted (Conditions (Status_ obj)).
Proof.
  unfold programmed_unaccepted, IsStatusConditionFalse, IsStatusConditionTrue.
  intros [[(c & -> & Hs & _) _] | [(reason & _ & _ & Ha) | [_ (c & -> & Hs & _)]]].
  - rewrite Hs. intros [H _]. discriminate.
  - rewrite (absent_Find _ _ Ha). intros [_ H]. discriminate.
  - rewrite Hs. intros [_ H]. discriminate.
Qed.

Lemma coexist_programmed_unaccepted (l : list Condition) :
  unique_types l -> coexist l -> programmed_unaccepted l.
Proof.
  intros Hu (a & p & Ha & Hp & Hta & Hsa & Htp & Hsp).
  unfold programmed_unaccepted, IsStatusConditionFalse, IsStatusConditionTrue.
  rewrite <- Hta, <- Htp, (unique_Find l a Hu Ha), (unique_Find l p Hu Hp).
  rewrite Hsa, Hsp. split; reflexivity.
Qed.

(** C2. Every run of [setNotAccepted] writes one status with [Accepted=False]
    and the given reason, and no status it writes holds a [Programmed]
    condition.  In every run of a reconciliation pass, no status written
    reads [Programmed=True] together with [Accepted=False] through the
    condition lookup of apimeta; and when the condition types of the policy
    held by the pass are unique, as the status schema has them, no status
    written holds a [Programmed] condition with status True next to an
    [Accepted] condition with status False. *)
Theorem Programmed_excludes_not_Accepted :
  (forall policy reason message tr res,
      Runs (setNotAccepted policy reason message) tr res ->
      Forall no_Programmed_written (calls tr)
      /\ exists obj, In (Status_Patch obj policy) (calls tr)
                     /\ condition_is (Conditions (Status_ obj)) "Accepted"
                          ConditionFalse reason)
  /\ (forall r req tr res,
         Runs (Reconcile r req) tr res ->
         Forall never_programmed_unaccepted (calls tr)
         /\ Forall never_coexist (calls tr)).
Proof.
  split.
  - intros policy reason message tr res H.
    apply (setNotAccepted_refused _ _ _ false) in H
      as (cs & patched & Hin & [Ha Hp] & Hc & _).
    split.
    + eapply Forall_impl; [exact Hc |].
      intros [] Hcall; simpl in Hcall; try exact I.
      injection Hcall as -> ->. exact Hp.
    + exists (with_Conditions policy cs). split; [| exact Ha].
      apply (in_map call_of) in Hin. exact Hin.
  - intros r req tr res H. apply Forall_and.
    apply (Reconcile_invariant
             (fun c => never_programmed_unaccepted c /\ never_coexist c))
      with (r := r) (req := req) (res := res);
      try exact H; try (intros; split; exact I).
    + intros [] Hc; simpl in Hc; try contradiction; split; exact I.
    + intros obj base Hk Hu. pose proof (status_kind_consistent obj base Hk) as Hn.
      split; [exact Hn |]. intros Hbase Hco. apply Hn.
      apply coexist_programmed_unaccepted; [apply Hu, Hbase | exact Hco].
Qed.

Lemma Programmed_excludes_not_Accepted_witness :
  Runs (setNotAccepted Demo.gw_policy "TargetNotFound" "Gateway not found")
    (trace_of (Demo.run_in [] false
                 (setNotAccepted Demo.gw_policy "TargetNotFound" "Gateway not found")))
    (result_of (Demo.run_in [] false
                  (setNotAccepted Demo.gw_policy "TargetNotFound" "Gateway not found")))
  /\ Forall no_Programmed_written
       (calls (trace_of (Demo.run_in [] false
                 (setNotAccepted Demo.gw_policy "TargetNotFound" "Gateway not found"))))
  /\ Runs (Reconcile Demo.reconciler (Demo.key "test-route"))
       (trace_of Demo.route_resolved) (result_of Demo.route_resolved)
  /\ Forall never_programmed_unaccepted (calls (trace_of Demo.route_resolved)).
Proof.
  split; [exact (run_Runs Cluster.env _ (Demo.cluster [] false)) |].
  split; [exact (proj1 (proj1 Programmed_excludes_not_Accepted _ _ _ _ _
                          (run_Runs Cluster.env _ (Demo.cluster [] false)))) |].
  split; [exact (run_Runs Cluster.env _ (Demo.cluster [Demo.gateway; Demo.route] false)) |].
  exact (proj1 (proj2 Programmed_excludes_not_Accepted _ _ _ _
                  (run_Runs Cluster.env _
                     (Demo.cluster [Demo.gateway; Demo.route] false)))).
Defined.

Lemma patched_conditions_In (obj base : WAFPolicy) (l : list Call) :
  In (Status_Patch obj base) l ->
  In (Conditions (Status_ obj)) (omap patched_conditions l).
Proof.
  intros H. apply list_elem_of_In, list_elem_of_omap.
  exists (Status_Patch obj base). split; [apply list_elem_of_In, H | reflexivity].
Qed.

(** The claim C3 fails on a failed Engine create.  In the pass of
    [Demo.sync_failure] the create of the Engine is refused; the pass
    returns that error, and the one status it writes holds a [Programmed]
    condition with status False and reason EngineSyncFailed and no
    [Accepted] condition, so [Accepted=False] with reason EngineSyncFailed
    is written nowhere. *)
Lemma sync_failure_leaves_Accepted_unset :
  Runs (Reconcile Demo.reconciler (Demo.key "test-gw"))
    (trace_of Demo.sync_failure) (result_of Demo.sync_failure)
  /\ result_of Demo.sync_failure
     = (Result_zero, Some (Cluster.NewForbidden "wafpolicy-test-gw"))
  /\ omap patched_conditions (calls (trace_of Demo.sync_failure))
     = [[ {| Type_ := "Programmed"; Status := ConditionFalse;
             ObservedGeneration := 1; LastTransitionTime := 101;
             Reason := "EngineSyncFailed";
             Message := "Failed to create/update Engine: "
                        +:+ Error (Cluster.NewForbidden "wafpolicy-test-gw") |} ]]
  /\ ~ (exists obj base,
          In (Status_Patch obj base) (calls (trace_of Demo.sync_failure))
          /\ condition_is (Conditions (Status_ obj)) "Accepted" ConditionFalse
               "EngineSyncFailed").
Proof.
  assert (omap patched_conditions (calls (trace_of Demo.sync_failure))
          = [[ {| Type_ := "Programmed"; Status := ConditionFalse;
                  ObservedGeneration := 1; LastTransitionTime := 101;
                  Reason := "EngineSyncFailed";
                  Message := "Failed to create/update Engine: "
                             +:+ Error (Cluster.NewForbidden "wafpolicy-test-gw") |} ]])
    as Hpatched by (vm_compute; reflexivity).
  split; [exact (run_Runs Cluster.env _ (Demo.cluster [Demo.gateway] true)) |].
  split; [vm_compute; reflexivity |]. split; [exact Hpatched |].
  intros (obj & base & Hin & c & Hfind & _).
  apply patched_conditions_In in Hin. rewrite Hpatched in Hin.
  destruct Hin as [E | []]. rewrite <- E in Hfind. discriminate Hfind.
Qed.

(* ------------------------------------------------------------------------- *)
(** ** Gateway and HTTPRoute targets *)
(* ------------------------------------------------------------------------- *)

Lemma status_phase_no_target (patch : Call) (l : list Call) :
  Forall (status_phase_call patch) l ->
  Forall (fun c => ~ is_engine_call c /\ ~ is_unstructured_call c) l.
Proof.
  intros H. eapply Forall_impl; [exact H |].
  intros [] Hc; simpl in *; tauto.
Qed.

Lemma refused_no_target (policy : WAFPolicy) (reason : string) (requeue : bool)
    (tr : list Event) (res : Result * option error) :
  refused policy reason requeue tr res ->
  Forall (fun c => ~ is_engine_call c /\ ~ is_unstructured_call c) (calls tr).
Proof.
  intros (cs & patched & _ & _ & Hc & _). eapply status_phase_no_target, Hc.
Qed.

Lemma ensureEngine_no_target (r : WAFPolicyReconciler) (policy : WAFPolicy)
    (workloadLabels : gmap string string) (tr : list Event)
    (res : Result * option error) :
  Runs (ensureEngine r policy workloadLabels) tr res ->
  Forall (fun c => ~ is_unstructured_call c) (calls tr).
Proof.
  intros H.
  apply ensureEngine_Runs in H
    as (tr1 & op & err & engine & tr2 & cs & patched & H1 & -> & _ & H2 & _).
  unfold calls. rewrite map_app. apply Forall_app. split.
  - eapply Forall_impl; [exact (CreateOrUpdate_calls _ _ _ _ H1) |].
    intros [] Hc; simpl in *; tauto.
  - eapply Forall_impl; [exact (status_phase_no_target _ _ H2) |].
    simpl. tauto.
Qed.

(** No call after the get of the target is a call on an unstructured
    object. *)
Lemma target_get_once (tr : list Event) (key : NamespacedName)
    (into : Unstructured) (got : answer Unstructured) :
  Forall (fun c => ~ is_unstructured_call c) (calls tr) ->
  ~ In (event (Get_Unstructured key into) got) tr.
Proof.
  intros HF Hin. apply (in_map call_of) in Hin.
  rewrite Forall_forall in HF. apply (HF _ (proj2 (list_elem_of_In _ _) Hin)).
  exact I.
Qed.

Lemma shells_differ : gatewayShell <> routeShell.
Proof. vm_compute. discriminate. Qed.

Lemma reconcileForHTTPRoute_no_target (r : WAFPolicyReconciler)
    (policy : WAFPolicy) (tr : list Event) (res : Result * option error) :
  Runs (reconcileForHTTPRoute r policy) tr res ->
  exists got tr',
    tr = event (Get_Unstructured (target_key policy) routeShell) got :: tr'
    /\ Forall (fun c => ~ is_unstructured_call c) (calls tr').
Proof.
  intros H. apply reconcileForHTTPRoute_cases in H as (got & tr' & -> & H).
  exists got, tr'. split; [reflexivity |].
  assert (forall reason requeue, refused policy reason requeue tr' res ->
            Forall (fun c => ~ is_unstructured_call c) (calls tr')) as Hrefused.
  { intros reason requeue Hr. eapply Forall_impl; [exact (refused_no_target _ _ _ _ _ Hr) |].
    simpl. tauto. }
  destruct got as [route | e].
  - destruct (NestedSlice (Object route) ["spec"; "parentRefs"])
      as [[| first rest] | |]; try (eapply Hrefused; exact H).
    destruct first; try (eapply Hrefused; exact H).
    cbn zeta in H.
    destruct (decide (nested_string (NestedString m ["name"]) = ""));
      [eapply Hrefused; exact H | eapply ensureEngine_no_target; exact H].
  - destruct (IsNotFound e); [eapply Hrefused; exact H |].
    destruct H as [-> _]. constructor.
Qed.

(** The Gateway case of target resolution, from the switch on. *)
Lemma reconcileTarget_gateway_not_found (r : WAFPolicyReconciler)
    (policy : WAFPolicy) (tr : list Event) (res : Result * option error)
    (key : NamespacedName) (e : error) :
  Runs (reconcileTarget r policy) tr res ->
  In (event (Get_Unstructured key gatewayShell) (Err e)) tr ->
  IsNotFound e = true ->
  trKind (TargetRef (Spec policy)) = "Gateway" /\ key = target_key policy
  /\ exists tr', tr = event (Get_Unstructured key gatewayShell) (Err e) :: tr'
                 /\ refused policy "TargetNotFound" true tr' res.
Proof.
  intros H Hin Hnf.
  apply reconcileTarget_cases in H as [[Hk H] | [[_ H] | (_ & _ & H)]].
  - apply reconcileForGateway_cases in H as (got & tr' & -> & H).
    destruct Hin as [E | Hin].
    + assert (target_key policy = key) as <-.
      { apply event_call in E.
        apply (f_equal (fun c => match c with
                                 | Get_Unstructured k _ => k
                                 | _ => key
                                 end)) in E.
        exact E. }
      apply event_inj in E. subst got. rewrite Hnf in H.
      split; [exact Hk |]. split; [reflexivity |]. exists tr'. split; [reflexivity | exact H].
    + exfalso. revert Hin. apply target_get_once.
      destruct got as [gw | e0]; [eapply ensureEngine_no_target; exact H |].
      destruct (IsNotFound e0).
      * eapply Forall_impl; [exact (refused_no_target _ _ _ _ _ H) |]. simpl. tauto.
      * destruct H as [-> _]. constructor.
  - exfalso.
    apply reconcileForHTTPRoute_no_target in H as (got & tr' & -> & HF).
    destruct Hin as [E | Hin].
    + apply event_call in E.
      apply (f_equal (fun c => match c with
                               | Get_Unstructured _ into => into
                               | _ => gatewayShell
                               end)) in E.
      exact (shells_differ (eq_sym E)).
    + revert Hin. apply target_get_once. exact HF.
  - exfalso. revert Hin. apply target_get_once.
    eapply Forall_impl; [exact (refused_no_target _ _ _ _ _ H) |]. simpl. tauto.
Qed.

(** C7. In every run of a reconciliation pass in which the get of the
    Gateway is answered not-found, the policy of the pass targets a Gateway
    under that name in its own namespace, the pass writes [Accepted=False]
    with reason TargetNotFound and no [Programmed] condition, returns
    [Requeue] set (a requeue that the rate limiter of the work queue delays),
    and makes no call on an Engine: no get, no create, no update. *)
Theorem gateway_not_found_refused (r : WAFPolicyReconciler)
    (req : NamespacedName) (tr : list Event) (res : Result * option error)
    (key : NamespacedName) (e : error) :
  Runs (Reconcile r req) tr res ->
  In (event (Get_Unstructured key gatewayShell) (Err e)) tr ->
  IsNotFound e = true ->
  exists policy cs,
    trKind (TargetRef (Spec policy)) = "Gateway"
    /\ key = {| nnNamespace := Namespace policy;
                nnName := trName (TargetRef (Spec policy)) |}
    /\ In (Status_Patch (with_Conditions policy cs) policy) (calls tr)
    /\ writes_not_accepted "TargetNotFound" (with_Conditions policy cs)
    /\ fst res = {| Requeue := true; RequeueAfter := 0 |}
    /\ Forall (fun c => ~ is_engine_call c) (calls tr).
Proof.
  intros H Hin Hnf.
  assert (forall policy tr',
            Runs (reconcileTarget r policy) tr' res ->
            In (event (Get_Unstructured key gatewayShell) (Err e)) tr' ->
            exists policy cs,
              trKind (TargetRef (Spec policy)) = "Gateway"
              /\ key = target_key policy
              /\ In (Status_Patch (with_Conditions policy cs) policy) (calls tr')
              /\ writes_not_accepted "TargetNotFound" (with_Conditions policy cs)
              /\ fst res = {| Requeue := true; RequeueAfter := 0 |}
              /\ Forall (fun c => ~ is_engine_call c) (calls tr')) as Hcore.
  { intros policy tr' H' Hin'.
    destruct (reconcileTarget_gateway_not_found _ _ _ _ _ _ H' Hin' Hnf)
      as (Hk & -> & tr'' & -> & Hr).
    pose proof (refused_no_target _ _ _ _ _ Hr) as HF.
    destruct Hr as (cs & patched & Hp & Hw & _ & -> & _).
    exists policy, cs. repeat split; try assumption; try reflexivity.
    - right. exact (in_map call_of _ _ Hp).
    - apply Hw.
    - apply Hw.
    - constructor; [simpl; tauto |].
      eapply Forall_impl; [exact HF |]. simpl. tauto. }
  apply Reconcile_cases in H as (got & tr' & -> & H).
  destruct Hin as [E | Hin]; [apply event_call in E; discriminate E |].
  destruct got as [policy | e0]; [| destruct H as [-> _]; destruct Hin].
  destruct (negb (DeletionTimestamp_IsZero policy)).
  { apply handleDeletion_cases in H as [-> | (updated & ->)]; [destruct Hin |].
    destruct Hin as [E | []]. apply event_call in E. discriminate E. }
  assert (forall policy tr',
            Runs (reconcileTarget r policy) tr' res ->
            In (event (Get_Unstructured key gatewayShell) (Err e)) tr' ->
            forall prefix, Forall (fun c => ~ is_engine_call c) (calls prefix) ->
            exists policy cs,
              trKind (TargetRef (Spec policy)) = "Gateway"
              /\ key = target_key policy
              /\ In (Status_Patch (with_Conditions policy cs) policy)
                   (calls (prefix ++ tr'))
              /\ writes_not_accepted "TargetNotFound" (with_Conditions policy cs)
              /\ fst res = {| Requeue := true; RequeueAfter := 0 |}
              /\ Forall (fun c => ~ is_engine_call c) (calls (prefix ++ tr')))
    as Hlift.
  { intros p tr0 H' Hin' prefix Hprefix.
    destruct (Hcore p tr0 H' Hin') as (p' & cs & Hk & Hkey & Hp & Hw & Hq & HF).
    exists p', cs. unfold calls in *. rewrite map_app.
    repeat split; try assumption; try apply Hw.
    - apply in_or_app. right. exact Hp.
    - apply Forall_app. split; assumption. }
  destruct (ContainsFinalizer policy wafPolicyFinalizer).
  - apply (Hlift policy tr' H Hin [event (Get_WAFPolicy req) (Ok policy)]).
    repeat constructor. simpl. tauto.
  - destruct H as (updated & tr'' & -> & H).
    destruct Hin as [E | Hin]; [apply event_call in E; discriminate E |].
    destruct updated as [policy' | e0]; [| destruct H as [-> _]; destruct Hin].
    apply (Hlift policy' tr'' H Hin
             [event (Get_WAFPolicy req) (Ok policy);
              event (Update_WAFPolicy (AddFinalizer policy wafPolicyFinalizer))
                (Ok policy')]).
    repeat constructor; simpl; tauto.
Qed.

Lemma gateway_not_found_refused_witness :
  Runs (Reconcile Demo.reconciler (Demo.key "test-gw"))
    (trace_of Demo.gateway_missing) (result_of Demo.gateway_missing)
  /\ In (event (Get_Unstructured (Demo.key "gw1") gatewayShell)
           (Err (Cluster.NewNotFound "gw1")))
       (trace_of Demo.gateway_missing)
  /\ IsNotFound (Cluster.NewNotFound "gw1") = true
  /\ exists policy cs,
       trKind (TargetRef (Spec policy)) = "Gateway"
       /\ Demo.key "gw1" = {| nnNamespace := Namespace policy;
                              nnName := trName (TargetRef (Spec policy)) |}
       /\ In (Status_Patch (with_Conditions policy cs) policy)
            (calls (trace_of Demo.gateway_missing))
       /\ writes_not_accepted "TargetNotFound" (with_Conditions policy cs)
       /\ fst (result_of Demo.gateway_missing)
          = {| Requeue := true; RequeueAfter := 0 |}
       /\ Forall (fun c => ~ is_engine_call c)
            (calls (trace_of Demo.gateway_missing)).
Proof.
  assert (In (event (Get_Unstructured (Demo.key "gw1") gatewayShell)
                (Err (Cluster.NewNotFound "gw1")))
            (trace_of Demo.gateway_missing)) as Hin
    by (vm_compute; right; left; reflexivity).
  split; [exact (run_Runs Cluster.env _ (Demo.cluster [] false)) |].
  split; [exact Hin |]. split; [reflexivity |].
  exact (gateway_not_found_refused Demo.reconciler (Demo.key "test-gw") _ _ _ _
           (run_Runs Cluster.env _ (Demo.cluster [] false)) Hin eq_refl).
Defined.

Example gateway_missing_pass :
  omap patched_conditions (calls (trace_of Demo.gateway_missing))
  = [[ {| Type_ := "Accepted"; Status := ConditionFalse;
          ObservedGeneration := 1; LastTransitionTime := 101;
          Reason := "TargetNotFound";
          Message := "Gateway " +:+ fmt_q "gw1" +:+ " not found" |} ]]
  /\ result_of Demo.gateway_missing
     = ({| Requeue := true; RequeueAfter := 0 |}, None).
Proof. split; vm_compute; reflexivity. Qed.

Lemma engineSpec_selects (r : WAFPolicyReconciler) (policy : WAFPolicy)
    (gatewayName : string) :
  selects_gateway gatewayName
    (engineSpec r policy {[ gatewayNameLabel := gatewayName ]}).
Proof. unfold selects_gateway, engineSpec. simpl. eauto 10. Qed.

Lemma ensureEngine_selects (r : WAFPolicyReconciler) (policy : WAFPolicy)
    (gatewayName : string) (tr : list Event) (res : Result * option error) :
  Runs (ensureEngine r policy {[ gatewayNameLabel := gatewayName ]}) tr res ->
  Forall (engine_selects gatewayName) (calls tr).
Proof.
  intros H.
  apply ensureEngine_Runs in H
    as (tr1 & op & err & engine & tr2 & cs & patched & H1 & -> & _ & H2 & _).
  unfold calls. rewrite map_app. apply Forall_app. split.
  - eapply Forall_impl; [exact (CreateOrUpdate_calls _ _ _ _ H1) |].
    intros [] Hc; simpl in *; try exact I;
      destruct Hc as (_ & e0 & Hf); apply engineMutateFn_spec in Hf;
      rewrite Hf; apply engineSpec_selects.
  - eapply Forall_impl; [exact H2 |].
    intros [] Hc; simpl in *; solve [exact I | contradiction].
Qed.

Example route_without_parents_refused :
  omap patched_conditions
    (calls (trace_of (Demo.run_in
       [Demo.object "gateway.networking.k8s.io/v1" "HTTPRoute" "r1"
          [("spec", VMap [("parentRefs", VSlice [])])]]
       false (Reconcile Demo.reconciler (Demo.key "test-route")))))
  = [[ {| Type_ := "Accepted"; Status := ConditionFalse;
          ObservedGeneration := 1; LastTransitionTime := 101;
          Reason := "NoParentGateway";
          Message := "HTTPRoute " +:+ fmt_q "r1" +:+ " has no parentRefs" |} ]].
Proof. vm_compute. reflexivity. Qed.

(* ------------------------------------------------------------------------- *)
(** ** Status condition utilities *)
(* ------------------------------------------------------------------------- *)

Lemma Find_index (l : list Condition) (t : string) (c : Condition) :
  FindStatusCondition l t = Some c <->
  exists i, findIndex l t = Some i /\ l !! i = Some c.
Proof.
  unfold FindStatusCondition. destruct (findIndex l t) as [i |]; simpl.
  - split; [intros H; eauto | intros (j & [= <-] & H); exact H].
  - split; [discriminate | intros (j & [=] & _)].
Qed.

(** The list [SetStatusCondition] leaves, element by element. *)
Lemma SetStatusCondition_exact (conditions : list Condition)
    (newCondition : Condition) (tr : list Event) (cs : list Condition) :
  Runs (SetStatusCondition conditions newCondition) tr cs ->
  exists c,
    same_outcome c newCondition
    /\ ((findIndex conditions (Type_ newCondition) = None
         /\ cs = (conditions ++ [c])%list
         /\ if Time_IsZero (LastTransitionTime newCondition)
            then tr = [event time_Now (LastTransitionTime c)]
            else tr = [] /\ LastTransitionTime c = LastTransitionTime newCondition)
        \/ (exists i old,
              findIndex conditions (Type_ newCondition) = Some i
              /\ conditions !! i = Some old
              /\ cs = <[ i := c ]> conditions
              /\ if decide (Status old = Status newCondition)
                 then tr = [] /\ LastTransitionTime c = LastTransitionTime old
                 else if Time_IsZero (LastTransitionTime newCondition)
                      then tr = [event time_Now (LastTransitionTime c)]
                      else tr = []
                           /\ LastTransitionTime c
                              = LastTransitionTime newCondition)).
Proof.
  unfold SetStatusCondition.
  destruct (findIndex conditions (Type_ newCondition)) as [i |] eqn:Ei.
  - destruct (findIndex_lookup _ _ _ Ei) as (old & Hold & Ht). rewrite Hold.
    assert (forall t, same_outcome
              {| Type_ := Type_ old; Status := Status newCondition;
                 ObservedGeneration := ObservedGeneration newCondition;
                 LastTransitionTime := t; Reason := Reason newCondition;
                 Message := Message newCondition |} newCondition) as Hsame
      by (intros t; repeat split; simpl; auto).
    destruct (decide (Status old = Status newCondition)) as [Es | Es].
    + cbn [bind Runs]. intros [-> ->]. eexists. split; [apply Hsame |].
      right. exists i, old. repeat split; auto.
      destruct (decide (Status old = Status newCondition)); [auto | contradiction].
    + destruct (Time_IsZero (LastTransitionTime newCondition)) eqn:Ez;
        cbn [bind call Runs].
      * intros (t & tr' & -> & -> & ->). eexists. split; [apply Hsame |].
        right. exists i, old. repeat split; auto.
        destruct (decide (Status old = Status newCondition)); [contradiction |].
        reflexivity.
      * intros [-> ->]. eexists. split; [apply Hsame |].
        right. exists i, old. repeat split; auto.
        destruct (decide (Status old = Status newCondition)); [contradiction |].
        auto.
  - destruct (Time_IsZero (LastTransitionTime newCondition)) eqn:Ez;
      cbn [bind call Runs].
    + intros (t & tr' & -> & -> & ->).
      exists (with_LastTransitionTime newCondition t).
      split; [repeat split |]. left. auto.
    + intros [-> ->]. exists newCondition. split; [repeat split |]. left. auto.
Qed.

Lemma same_outcome_eq (c c' : Condition) :
  same_outcome c c' -> LastTransitionTime c = LastTransitionTime c' -> c = c'.
Proof.
  destruct c, c'. unfold same_outcome. simpl.
  intros (-> & -> & -> & -> & ->) ->. reflexivity.
Qed.

Lemma absent_Remove (l : list Condition) (t : string) :
  condition_absent l t -> RemoveStatusCondition l t = l.
Proof.
  unfold condition_absent, RemoveStatusCondition.
  induction 1 as [| c l Hc _ IH]; [reflexivity |].
  rewrite filter_cons. destruct (decide (Type_ c <> t)); [| contradiction].
  f_equal. exact IH.
Qed.

Lemma Remove_keeps_absent (l : list Condition) (t t' : string) :
  condition_absent l t -> condition_absent (RemoveStatusCondition l t') t.
Proof.
  unfold condition_absent, RemoveStatusCondition. rewrite !Forall_forall.
  intros H c Hc. apply list_elem_of_filter in Hc as [_ Hc]. auto.
Qed.

(** The body shared by [setConditionTrue] and [setConditionFalse]: read the
    clock, then set the condition. *)
Lemma stamped_condition (conditions : list Condition) (status : ConditionStatus)
    (generation : Z) (conditionType reason message : string)
    (tr : list Event) (cs : list Condition) :
  Runs (now <- call time_Now ;;
        SetStatusCondition conditions
          {| Type_ := conditionType; Status := status;
             ObservedGeneration := generation; LastTransitionTime := now;
             Reason := reason; Message := message |}) tr cs ->
  clock_only tr
  /\ (exists c, FindStatusCondition cs conditionType = Some c
                /\ Status c = status /\ ObservedGeneration c = generation
                /\ Reason c = reason /\ Message c = message
                /\ transition_time conditions conditionType status tr
                     (LastTransitionTime c))
  /\ (forall t, t <> conditionType ->
        FindStatusCondition cs t = FindStatusCondition conditions t)
  /\ (unique_types conditions -> unique_types cs)
  /\ (length cs = length conditions
      \/ (FindStatusCondition conditions conditionType = None
          /\ length cs = S (length conditions))).
Proof.
  cbn [bind call Runs]. intros (now & tr' & -> & H).
  destruct (SetStatusCondition_Runs _ _ _ _ H) as [Hclock [_ [Hother Hunique]]].
  apply SetStatusCondition_exact in H as (c & Hsame & Hcases).
  destruct Hsame as (Ht & Hs & Hg & Hr & Hm). simpl in Ht, Hs, Hg, Hr, Hm.
  cbn [Type_ Status LastTransitionTime] in Hcases, Hother.
  split; [constructor; [reflexivity | exact Hclock] |].
  split; [| split; [exact Hother | split; [exact Hunique |]]].
  - exists c. unfold transition_time.
    destruct Hcases as [(Hnone & -> & Htime) | (i & old & Hi & Hold & -> & Htime)].
    + rewrite Find_app, (findIndex_None _ _ Hnone).
      destruct (decide (Type_ c = conditionType)); [| contradiction].
      repeat split; auto.
      destruct (Time_IsZero now).
      * subst tr'. right. left. reflexivity.
      * destruct Htime as [-> ->]. left. reflexivity.
    + destruct (Find_insert conditions conditionType i c Hi Ht) as [-> _].
      rewrite (proj2 (Find_index conditions conditionType old)) by eauto.
      repeat split; auto.
      destruct (decide (Status old = status)); [apply Htime |].
      destruct (Time_IsZero now).
      * subst tr'. right. left. reflexivity.
      * destruct Htime as [-> ->]. left. reflexivity.
  - destruct Hcases as [(Hnone & -> & _) | (i & old & _ & _ & -> & _)].
    + right. split; [apply findIndex_None, Hnone |].
      rewrite length_app. simpl. lia.
    + left. apply length_insert.
Qed.

(** Setting a condition that is already there with the same status,
    generation, reason and message changes nothing, whatever the clock
    says. *)
Lemma stamped_condition_again (conditions : list Condition)
    (status : ConditionStatus) (generation : Z)
    (conditionType reason message : string)
    (tr : list Event) (cs : list Condition) :
  has_condition conditions conditionType status generation reason message ->
  Runs (now <- call time_Now ;;
        SetStatusCondition conditions
          {| Type_ := conditionType; Status := status;
             ObservedGeneration := generation; LastTransitionTime := now;
             Reason := reason; Message := message |}) tr cs ->
  cs = conditions.
Proof.
  intros (c0 & Hfind & Hs0 & Hg0 & Hr0 & Hm0).
  cbn [bind call Runs]. intros (now & tr' & -> & H).
  apply Find_index in Hfind as (i0 & Hi0 & Hl0).
  pose proof (findIndex_lookup _ _ _ Hi0) as (c0' & Hl0' & Ht0).
  rewrite Hl0 in Hl0'. injection Hl0' as <-.
  apply SetStatusCondition_exact in H as (c & Hsame & Hcases).
  destruct Hsame as (Ht & Hs & Hg & Hr & Hm). simpl in Ht, Hs, Hg, Hr, Hm.
  cbn [Type_ Status LastTransitionTime] in Hcases.
  destruct Hcases as [(Hnone & _) | (i & old & Hi & Hold & -> & Htime)];
    [congruence |].
  assert (i = i0) as -> by congruence.
  assert (old = c0) as -> by congruence.
  destruct (decide (Status c0 = status)); [| contradiction].
  destruct Htime as [_ Htime].
  apply list_insert_id. rewrite Hl0. f_equal. symmetry.
  apply same_outcome_eq; [| exact Htime].
  repeat split; congruence.
Qed.

(** X1. [setConditionTrue] and [setConditionFalse] only read the clock and
    leave the condition of the given type with the status, generation,
    reason and message; its transition time is the one it had when it
    already had that status, else a clock reading of this call; every other
    type is as it was and the list grows by one only for a new type. *)
Theorem setCondition_contract (conditions : list Condition) (generation : Z)
    (conditionType reason message : string) (tr : list Event)
    (cs : list Condition) :
  (Runs (setConditionTrue conditions generation conditionType reason message)
     tr cs ->
   condition_set conditions conditionType ConditionTrue generation reason
     message tr cs)
  /\ (Runs (setConditionFalse conditions generation conditionType reason message)
        tr cs ->
      condition_set conditions conditionType ConditionFalse generation reason
        message tr cs).
Proof.
  split; intros H; apply stamped_condition; exact H.
Qed.

Lemma setCondition_contract_witness :
  Runs (setConditionTrue degraded_conditions 2 "Degraded" "StillBroken" "again")
    (trace_of (Demo.run_in [] false
       (setConditionTrue degraded_conditions 2 "Degraded" "StillBroken" "again")))
    (result_of (Demo.run_in [] false
       (setConditionTrue degraded_conditions 2 "Degraded" "StillBroken" "again")))
  /\ condition_set degraded_conditions "Degraded" ConditionTrue 2 "StillBroken"
       "again"
       (trace_of (Demo.run_in [] false
          (setConditionTrue degraded_conditions 2 "Degraded" "StillBroken" "again")))
       (result_of (Demo.run_in [] false
          (setConditionTrue degraded_conditions 2 "Degraded" "StillBroken" "again"))).
Proof.
  split; [exact (run_Runs Cluster.env _ (Demo.cluster [] false)) |].
  exact (proj1 (setCondition_contract _ _ _ _ _ _ _)
           (run_Runs Cluster.env _ (Demo.cluster [] false))).
Defined.

(** The transition time of a condition that keeps its status stays: here
    Degraded was True since 10 and is set to True again at 101. *)
Example setConditionTrue_keeps_transition_time :
  FindStatusCondition
    (result_of (Demo.run_in [] false
       (setConditionTrue degraded_conditions 2 "Degraded" "StillBroken" "again")))
    "Degraded"
  = Some {| Type_ := "Degraded"; Status := ConditionTrue; ObservedGeneration := 2;
            LastTransitionTime := 10; Reason := "StillBroken";
            Message := "again" |}.
Proof. reflexivity. Qed.

Lemma Runs_clock_app (tr1 tr2 : list Event) :
  clock_only tr1 -> clock_only tr2 -> clock_only (tr1 ++ tr2).
Proof.
  unfold clock_only, calls. rewrite map_app. intros H1 H2.
  apply Forall_app. split; assumption.
Qed.

Lemma condition_set_has (conditions : list Condition) (conditionType : string)
    (status : ConditionStatus) (generation : Z) (reason message : string)
    (tr : list Event) (cs : list Condition) :
  condition_set conditions conditionType status generation reason message tr cs ->
  has_condition cs conditionType status generation reason message.
Proof. intros (_ & (c & H & Hs & Hg & Hr & Hm & _) & _). exists c. auto. Qed.

(** What every run of [setStatusReady] leaves; the contract and the
    idempotence of the helper both rest on it. *)
Lemma setStatusReady_Runs (conditions : list Condition) (generation : Z)
    (reason message : string) (tr : list Event) (cs : list Condition) :
  Runs (setStatusReady conditions generation reason message) tr cs ->
  clock_only tr
  /\ has_condition cs "Ready" ConditionTrue generation reason message
  /\ condition_absent cs "Degraded"
  /\ condition_absent cs "Progressing"
  /\ (forall t, t <> "Ready" -> t <> "Degraded" -> t <> "Progressing" ->
        FindStatusCondition cs t = FindStatusCondition conditions t).
Proof.
  unfold setStatusReady, setConditionTrue. intros H.
  apply Runs_bind in H as (tr1 & cs1 & tr2 & H1 & [-> ->] & ->).
  rewrite app_nil_r.
  apply stamped_condition in H1 as (Hclock & (c & Hc & Hs & Hg & Hr & Hm & _) & Hother & _).
  split; [exact Hclock |]. split; [| split; [| split]].
  - exists c. rewrite !Find_Remove. simpl. auto.
  - apply Remove_keeps_absent, Remove_absent.
  - apply Remove_absent.
  - intros t H1 H2 H3. rewrite !Find_Remove.
    destruct (decide (t = "Progressing")); [contradiction |].
    destruct (decide (t = "Degraded")); [contradiction |].
    apply Hother, H1.
Qed.

(** X2. [setStatusReady] only reads the clock and leaves Ready=True with the
    generation, reason and message, no Degraded and no Progressing
    condition, and every other condition type as it was. *)
Theorem setStatusReady_contract (conditions : list Condition) (generation : Z)
    (reason message : string) (tr : list Event) (cs : list Condition) :
  Runs (setStatusReady conditions generation reason message) tr cs ->
  clock_only tr
  /\ has_condition cs "Ready" ConditionTrue generation reason message
  /\ condition_absent cs "Degraded"
  /\ condition_absent cs "Progressing"
  /\ (forall t, t <> "Ready" -> t <> "Degraded" -> t <> "Progressing" ->
        FindStatusCondition cs t = FindStatusCondition conditions t).
Proof. apply setStatusReady_Runs. Qed.

Lemma setStatusReady_contract_witness :
  Runs (setStatusReady degraded_conditions 2 "Reconciled" "ok")
    (trace_of (Demo.run_in [] false
       (setStatusReady degraded_conditions 2 "Reconciled" "ok")))
    (result_of (Demo.run_in [] false
       (setStatusReady degraded_conditions 2 "Reconciled" "ok")))
  /\ result_of (Demo.run_in [] false
       (setStatusReady degraded_conditions 2 "Reconciled" "ok"))
     = [ {| Type_ := "Ready"; Status := ConditionTrue; ObservedGeneration := 2;
            LastTransitionTime := 101; Reason := "Reconciled"; Message := "ok" |} ]
  /\ condition_absent
       (result_of (Demo.run_in [] false
          (setStatusReady degraded_conditions 2 "Reconciled" "ok")))
       "Degraded".
Proof.
  split; [exact (run_Runs Cluster.env _ (Demo.cluster [] false)) |].
  split; [reflexivity |].
  exact (proj1 (proj2 (proj2 (setStatusReady_contract _ _ _ _ _ _
           (run_Runs Cluster.env _ (Demo.cluster [] false)))))).
Defined.

(** What every run of [setStatusConditionDegraded] leaves; the contract and the
    idempotence of the helper both rest on it. *)
Lemma setStatusConditionDegraded_Runs (conditions : list Condition)
    (generation : Z) (reason message : string) (tr : list Event)
    (cs : list Condition) :
  Runs (setStatusConditionDegraded conditions generation reason message) tr cs ->
  clock_only tr
  /\ has_condition cs "Ready" ConditionFalse generation reason message
  /\ has_condition cs "Degraded" ConditionTrue generation reason message
  /\ condition_absent cs "Progressing"
  /\ (forall t, t <> "Ready" -> t <> "Degraded" -> t <> "Progressing" ->
        FindStatusCondition cs t = FindStatusCondition conditions t).
Proof.
  unfold setStatusConditionDegraded, setConditionTrue, setConditionFalse. intros H.
  apply Runs_bind in H as (tr1 & cs1 & tr2 & H1 & H & ->).
  apply Runs_bind in H as (tr3 & cs2 & tr4 & H2 & [-> ->] & ->).
  rewrite app_nil_r.
  apply stamped_condition in H1
    as (Hclock1 & (c1 & Hc1 & Hs1 & Hg1 & Hr1 & Hm1 & _) & Hother1 & _).
  apply stamped_condition in H2
    as (Hclock2 & (c2 & Hc2 & Hs2 & Hg2 & Hr2 & Hm2 & _) & Hother2 & _).
  split; [apply Runs_clock_app; assumption |]. split; [| split; [| split]].
  - exists c1. rewrite Find_Remove. simpl.
    rewrite Hother2 by discriminate. auto.
  - exists c2. rewrite Find_Remove. simpl. auto.
  - apply Remove_absent.
  - intros t H1 H2 H3. rewrite Find_Remove.
    destruct (decide (t = "Progressing")); [contradiction |].
    rewrite Hother2, Hother1 by assumption. reflexivity.
Qed.

(** X3. [setStatusConditionDegraded] only reads the clock and leaves
    Ready=False and Degraded=True with the generation, reason and message,
    no Progressing condition, and every other condition type as it was. *)
Theorem setStatusConditionDegraded_contract (conditions : list Condition)
    (generation : Z) (reason message : string) (tr : list Event)
    (cs : list Condition) :
  Runs (setStatusConditionDegraded conditions generation reason message) tr cs ->
  clock_only tr
  /\ has_condition cs "Ready" ConditionFalse generation reason message
  /\ has_condition cs "Degraded" ConditionTrue generation reason message
  /\ condition_absent cs "Progressing"
  /\ (forall t, t <> "Ready" -> t <> "Degraded" -> t <> "Progressing" ->
        FindStatusCondition cs t = FindStatusCondition conditions t).
Proof. apply setStatusConditionDegraded_Runs. Qed.

Lemma setStatusConditionDegraded_contract_witness :
  Runs (setStatusConditionDegraded degraded_conditions 2 "Broken" "bad")
    (trace_of (Demo.run_in [] false
       (setStatusConditionDegraded degraded_conditions 2 "Broken" "bad")))
    (result_of (Demo.run_in [] false
       (setStatusConditionDegraded degraded_conditions 2 "Broken" "bad")))
  /\ condition_absent
       (result_of (Demo.run_in [] false
          (setStatusConditionDegraded degraded_conditions 2 "Broken" "bad")))
       "Progressing".
Proof.
  split; [exact (run_Runs Cluster.env _ (Demo.cluster [] false)) |].
  exact (proj1 (proj2 (proj2 (proj2 (setStatusConditionDegraded_contract _ _ _ _ _ _
           (run_Runs Cluster.env _ (Demo.cluster [] false))))))).
Defined.

(** What every run of [setStatusProgressing] leaves; the contract and the
    idempotence of the helper both rest on it. *)
Lemma setStatusProgressing_Runs (conditions : list Condition)
    (generation : Z) (reason message : string) (tr : list Event)
    (cs : list Condition) :
  Runs (setStatusProgressing conditions generation reason message) tr cs ->
  clock_only tr
  /\ has_condition cs "Ready" ConditionFalse generation reason message
  /\ has_condition cs "Progressing" ConditionTrue generation reason message
  /\ FindStatusCondition cs "Degraded" = FindStatusCondition conditions "Degraded"
  /\ (forall t, t <> "Ready" -> t <> "Progressing" ->
        FindStatusCondition cs t = FindStatusCondition conditions t)
  /\ (length conditions <= length cs)%nat.
Proof.
  unfold setStatusProgressing, setConditionTrue, setConditionFalse. intros H.
  apply Runs_bind in H as (tr1 & cs1 & tr2 & H1 & H2 & ->).
  apply stamped_condition in H1
    as (Hclock1 & (c1 & Hc1 & Hs1 & Hg1 & Hr1 & Hm1 & _) & Hother1 & _ & Hlen1).
  apply stamped_condition in H2
    as (Hclock2 & (c2 & Hc2 & Hs2 & Hg2 & Hr2 & Hm2 & _) & Hother2 & _ & Hlen2).
  split; [apply Runs_clock_app; assumption |].
  split; [| split; [| split; [| split]]].
  - exists c1. rewrite Hother2 by discriminate. auto.
  - exists c2. auto.
  - rewrite Hother2, Hother1 by discriminate. reflexivity.
  - intros t H1 H2. rewrite Hother2, Hother1 by assumption. reflexivity.
  - destruct Hlen1 as [Hl1 | [_ Hl1]], Hlen2 as [Hl2 | [_ Hl2]]; lia.
Qed.

(** X4. [setStatusProgressing] only reads the clock and leaves Ready=False
    and Progressing=True with the generation, reason and message.  It
    removes nothing: every other condition type, Degraded included, is as it
    was, so a Degraded=True condition stays next to Progressing=True. *)
Theorem setStatusProgressing_contract (conditions : list Condition)
    (generation : Z) (reason message : string) (tr : list Event)
    (cs : list Condition) :
  Runs (setStatusProgressing conditions generation reason message) tr cs ->
  clock_only tr
  /\ has_condition cs "Ready" ConditionFalse generation reason message
  /\ has_condition cs "Progressing" ConditionTrue generation reason message
  /\ FindStatusCondition cs "Degraded" = FindStatusCondition conditions "Degraded"
  /\ (forall t, t <> "Ready" -> t <> "Progressing" ->
        FindStatusCondition cs t = FindStatusCondition conditions t)
  /\ (length conditions <= length cs)%nat.
Proof. apply setStatusProgressing_Runs. Qed.

Lemma setStatusProgressing_contract_witness :
  Runs (setStatusProgressing degraded_conditions 2 "Retrying" "retry")
    (trace_of (Demo.run_in [] false
       (setStatusProgressing degraded_conditions 2 "Retrying" "retry")))
    (result_of (Demo.run_in [] false
       (setStatusProgressing degraded_conditions 2 "Retrying" "retry")))
  /\ IsStatusConditionTrue
       (result_of (Demo.run_in [] false
          (setStatusProgressing degraded_conditions 2 "Retrying" "retry")))
       "Degraded" = true
  /\ FindStatusCondition
       (result_of (Demo.run_in [] false
          (setStatusProgressing degraded_conditions 2 "Retrying" "retry")))
       "Degraded"
     = FindStatusCondition degraded_conditions "Degraded".
Proof.
  split; [exact (run_Runs Cluster.env _ (Demo.cluster [] false)) |].
  split; [reflexivity |].
  exact (proj1 (proj2 (proj2 (proj2 (setStatusProgressing_contract _ _ _ _ _ _
           (run_Runs Cluster.env _ (Demo.cluster [] false))))))).
Defined.

(** X5. The three status helpers are idempotent: run again with the same
    generation, reason and message on the list they left, they leave that
    list unchanged, transition times included, whatever the clock reads. *)
Theorem status_helpers_idempotent (conditions : list Condition) (generation : Z)
    (reason message : string) (tr1 tr2 : list Event) (cs1 cs2 : list Condition) :
  (Runs (setStatusReady conditions generation reason message) tr1 cs1 ->
   Runs (setStatusReady cs1 generation reason message) tr2 cs2 -> cs2 = cs1)
  /\ (Runs (setStatusConditionDegraded conditions generation reason message) tr1 cs1 ->
      Runs (setStatusConditionDegraded cs1 generation reason message) tr2 cs2 ->
      cs2 = cs1)
  /\ (Runs (setStatusProgressing conditions generation reason message) tr1 cs1 ->
      Runs (setStatusProgressing cs1 generation reason message) tr2 cs2 ->
      cs2 = cs1).
Proof.
  split; [| split].
  - intros H1 H2. apply setStatusReady_Runs in H1 as (_ & Hr & Hd & Hp & _).
    unfold setStatusReady, setConditionTrue in H2.
    apply Runs_bind in H2 as (tr3 & cs3 & tr4 & H2 & [_ ->] & _).
    apply (stamped_condition_again _ _ _ _ _ _ _ _ Hr) in H2. subst cs3.
    rewrite (absent_Remove _ _ Hd). apply absent_Remove, Hp.
  - intros H1 H2.
    apply setStatusConditionDegraded_Runs in H1 as (_ & Hr & Hd & Hp & _).
    unfold setStatusConditionDegraded, setConditionTrue, setConditionFalse in H2.
    apply Runs_bind in H2 as (tr3 & cs3 & tr4 & H2 & H3 & _).
    apply Runs_bind in H3 as (tr5 & cs4 & tr6 & H3 & [_ ->] & _).
    apply (stamped_condition_again _ _ _ _ _ _ _ _ Hr) in H2. subst cs3.
    apply (stamped_condition_again _ _ _ _ _ _ _ _ Hd) in H3. subst cs4.
    apply absent_Remove, Hp.
  - intros H1 H2.
    apply setStatusProgressing_Runs in H1 as (_ & Hr & Hp & _).
    unfold setStatusProgressing, setConditionTrue, setConditionFalse in H2.
    apply Runs_bind in H2 as (tr3 & cs3 & tr4 & H2 & H3 & _).
    apply (stamped_condition_again _ _ _ _ _ _ _ _ Hr) in H2. subst cs3.
    apply (stamped_condition_again _ _ _ _ _ _ _ _ Hp) in H3. exact H3.
Qed.

Lemma status_helpers_idempotent_witness :
  Runs (setStatusReady degraded_conditions 2 "Reconciled" "ok")
    (trace_of (Demo.run_in [] false
       (setStatusReady degraded_conditions 2 "Reconciled" "ok")))
    (result_of (Demo.run_in [] false
       (setStatusReady degraded_conditions 2 "Reconciled" "ok")))
  /\ result_of (Demo.run_in [] true
       (setStatusReady
          (result_of (Demo.run_in [] false
             (setStatusReady degraded_conditions 2 "Reconciled" "ok")))
          2 "Reconciled" "ok"))
     = result_of (Demo.run_in [] false
         (setStatusReady degraded_conditions 2 "Reconciled" "ok")).
Proof.
  split; [exact (run_Runs Cluster.env _ (Demo.cluster [] false)) |].
  exact (proj1 (status_helpers_idempotent degraded_conditions 2 "Reconciled" "ok"
                  _ _ _ _)
           (run_Runs Cluster.env _ (Demo.cluster [] false))
           (run_Runs Cluster.env _ (Demo.cluster [] true))).
Defined.

(* ------------------------------------------------------------------------- *)
(** ** setNotAccepted in detail *)
(* ------------------------------------------------------------------------- *)

(** The calls of every run of [setNotAccepted] and the conditions it
    patches; the contract and the idempotence both rest on it. *)
Lemma setNotAccepted_patch (policy : WAFPolicy) (reason message : string)
    (tr : list Event) (res : option error) :
  Runs (setNotAccepted policy reason message) tr res ->
  exists (tr0 : list Event) (cs : list Condition) (patched : answer WAFPolicy),
    tr = (event (Recorder_Event policy "Warning" reason message) tt :: tr0
          ++ [event (Status_Patch (with_Conditions policy cs) policy) patched])%list
    /\ clock_only tr0
    /\ has_condition cs "Accepted" ConditionFalse (Generation policy) reason message
    /\ condition_absent cs "Programmed"
    /\ (forall t, t <> "Accepted" -> t <> "Programmed" ->
          FindStatusCondition cs t
          = FindStatusCondition (Conditions (Status_ policy)) t)
    /\ (Conditions (Status_ policy) = [] -> length cs = 1%nat)
    /\ res = error_of patched.
Proof.
  unfold setNotAccepted. cbn [bind call Runs].
  intros (u & tr1 & -> & now & tr2 & -> & H).
  apply Runs_bind in H as (tr3 & cs & tr4 & Hset & H & ->).
  assert (Runs (now <- call time_Now ;;
                SetStatusCondition (Conditions (Status_ policy))
                  {| Type_ := "Accepted"; Status := ConditionFalse;
                     ObservedGeneration := Generation policy;
                     LastTransitionTime := now;
                     Reason := reason; Message := message |})
            (event time_Now now :: tr3) cs) as Hstamp
    by (cbn [bind call Runs]; eauto).
  apply stamped_condition in Hstamp
    as (Hclock & (c & Hc & Hs & Hg & Hr & Hm & _) & Hother & _ & Hlen).
  apply SetStatusCondition_exact in Hset as (c' & Hsame & Hcases).
  cbn [bind call Runs] in H. destruct H as (patched & tr5 & -> & H).
  exists (event time_Now now :: tr3), (RemoveStatusCondition cs "Programmed"), patched.
  destruct u. split; [| split; [exact Hclock | split; [| split; [| split; [| split]]]]].
  - rewrite <- app_comm_cons. do 2 f_equal.
    destruct patched; destruct H as [-> _]; reflexivity.
  - exists c. rewrite Find_Remove. simpl. auto.
  - apply Remove_absent.
  - intros t H1 H2. rewrite Find_Remove.
    destruct (decide (t = "Programmed")); [contradiction |]. apply Hother, H1.
  - intros Hnil. rewrite Hnil in Hcases. simpl in Hcases.
    destruct Hcases as [(_ & -> & _) | (i & old & [=] & _)].
    destruct Hsame as [Ht _]. simpl in Ht.
    unfold RemoveStatusCondition. simpl. rewrite filter_cons.
    destruct (decide (Type_ c' <> "Programmed")) as [_ | E]; [reflexivity |].
    exfalso. apply E. rewrite Ht. discriminate.
  - destruct patched; destruct H as [_ ->]; reflexivity.
Qed.

(** X6. Every run of [setNotAccepted] emits the Warning event with the reason
    and message first, then reads the clock, then patches the status once.
    The patched object is the policy with only its conditions changed:
    Accepted is False with the policy's generation, the reason and the
    message, no Programmed condition is left, and every other condition type
    is as it was.  For a policy without conditions exactly one condition is
    written.  The error of the patch is the result. *)
Theorem setNotAccepted_contract (policy : WAFPolicy) (reason message : string)
    (tr : list Event) (res : option error) :
  Runs (setNotAccepted policy reason message) tr res ->
  exists (tr0 : list Event) (cs : list Condition) (patched : answer WAFPolicy),
    tr = (event (Recorder_Event policy "Warning" reason message) tt :: tr0
          ++ [event (Status_Patch (with_Conditions policy cs) policy) patched])%list
    /\ clock_only tr0
    /\ has_condition cs "Accepted" ConditionFalse (Generation policy) reason message
    /\ condition_absent cs "Programmed"
    /\ (forall t, t <> "Accepted" -> t <> "Programmed" ->
          FindStatusCondition cs t
          = FindStatusCondition (Conditions (Status_ policy)) t)
    /\ (Conditions (Status_ policy) = [] -> length cs = 1%nat)
    /\ res = error_of patched.
Proof. apply setNotAccepted_patch. Qed.

Lemma setNotAccepted_contract_witness :
  Runs (setNotAccepted Demo.gw_policy "TargetNotFound" "Gateway not found")
    (trace_of (Demo.run_in [] false
       (setNotAccepted Demo.gw_policy "TargetNotFound" "Gateway not found")))
    (result_of (Demo.run_in [] false
       (setNotAccepted Demo.gw_policy "TargetNotFound" "Gateway not found")))
  /\ exists (tr0 : list Event) (cs : list Condition) (patched : answer WAFPolicy),
       trace_of (Demo.run_in [] false
         (setNotAccepted Demo.gw_policy "TargetNotFound" "Gateway not found"))
       = (event (Recorder_Event Demo.gw_policy "Warning" "TargetNotFound"
                   "Gateway not found") tt :: tr0
          ++ [event (Status_Patch (with_Conditions Demo.gw_policy cs) Demo.gw_policy)
                patched])%list
       /\ length cs = 1%nat.
Proof.
  split; [exact (run_Runs Cluster.env _ (Demo.cluster [] false)) |].
  destruct (setNotAccepted_contract _ _ _ _ _
              (run_Runs Cluster.env
                 (setNotAccepted Demo.gw_policy "TargetNotFound" "Gateway not found")
                 (Demo.cluster [] false)))
    as (tr0 & cs & patched & Htr & _ & _ & _ & _ & Hlen & _).
  exists tr0, cs, patched. split; [exact Htr | apply Hlen; reflexivity].
Defined.

(** X7. [setNotAccepted] is idempotent: run again, with the same reason and
    message, on the policy as the first run patched it, it patches the very
    same object, so the merge patch of the second run is empty. *)
Theorem setNotAccepted_idempotent (policy : WAFPolicy) (reason message : string)
    (tr1 tr2 : list Event) (res1 res2 : option error)
    (obj1 obj2 base2 : WAFPolicy) :
  Runs (setNotAccepted policy reason message) tr1 res1 ->
  In (Status_Patch obj1 policy) (calls tr1) ->
  Runs (setNotAccepted obj1 reason message) tr2 res2 ->
  In (Status_Patch obj2 base2) (calls tr2) ->
  base2 = obj1 /\ obj2 = obj1.
Proof.
  intros H1 Hin1 H2 Hin2.
  apply setNotAccepted_patch in H1
    as (tr0 & cs & patched & -> & Hclock & Ha & Hp & _).
  assert (obj1 = with_Conditions policy cs) as ->.
  { unfold calls in Hin1. rewrite map_cons, map_app in Hin1.
    destruct Hin1 as [E | Hin1]; [discriminate E |].
    apply in_app_or in Hin1 as [Hin1 | [E | []]].
    - unfold clock_only in Hclock. rewrite Forall_forall in Hclock.
      apply list_elem_of_In, Hclock in Hin1. discriminate Hin1.
    - injection E as <-. reflexivity. }
  unfold setNotAccepted in H2. cbn [bind call Runs] in H2.
  destruct H2 as (u & tr3 & -> & now & tr4 & -> & H2).
  apply Runs_bind in H2 as (tr5 & cs' & tr6 & Hset & H2 & ->).
  assert (cs' = cs) as ->.
  { eapply (stamped_condition_again
              (Conditions (Status_ (with_Conditions policy cs)))).
    - exact Ha.
    - cbn [bind call Runs]. exists now, tr5. split; [reflexivity |].
      exact Hset. }
  apply SetStatusCondition_Runs in Hset as [Hclock' _].
  cbn [bind call Runs] in H2. destruct H2 as (patched' & tr7 & -> & H2).
  assert (tr7 = []) as -> by (destruct patched'; destruct H2 as [-> _]; reflexivity).
  unfold calls in Hin2. cbn [map] in Hin2. rewrite map_app in Hin2.
  destruct Hin2 as [E | [E | Hin2]]; [discriminate E | discriminate E |].
  apply in_app_or in Hin2 as [Hin2 | [E | []]].
  - rewrite Forall_forall in Hclock'.
    apply list_elem_of_In, Hclock' in Hin2. discriminate Hin2.
  - injection E as <- <-. split; [reflexivity |].
    rewrite (absent_Remove _ _ Hp). reflexivity.
Qed.

Lemma setNotAccepted_idempotent_witness :
  Runs (setNotAccepted Demo.gw_policy "TargetNotFound" "Gateway not found")
    (trace_of (Demo.run_in [] false
       (setNotAccepted Demo.gw_policy "TargetNotFound" "Gateway not found")))
    (result_of (Demo.run_in [] false
       (setNotAccepted Demo.gw_policy "TargetNotFound" "Gateway not found")))
  /\ In (Status_Patch refused_policy Demo.gw_policy)
       (calls (trace_of (Demo.run_in [] false
          (setNotAccepted Demo.gw_policy "TargetNotFound" "Gateway not found"))))
  /\ In (Status_Patch refused_policy refused_policy)
       (calls (trace_of (Demo.run_in [] true
          (setNotAccepted refused_policy "TargetNotFound" "Gateway not found"))))
  /\ refused_policy = refused_policy /\ refused_policy = refused_policy.
Proof.
  assert (In (Status_Patch refused_policy Demo.gw_policy)
            (calls (trace_of (Demo.run_in [] false
               (setNotAccepted Demo.gw_policy "TargetNotFound" "Gateway not found")))))
    as Hin1 by (vm_compute; right; right; left; reflexivity).
  assert (In (Status_Patch refused_policy refused_policy)
            (calls (trace_of (Demo.run_in [] true
               (setNotAccepted refused_policy "TargetNotFound" "Gateway not found")))))
    as Hin2 by (vm_compute; right; right; left; reflexivity).
  split; [exact (run_Runs Cluster.env _ (Demo.cluster [] false)) |].
  split; [exact Hin1 |]. split; [exact Hin2 |].
  exact (setNotAccepted_idempotent _ _ _ _ _ _ _ _ _ _
           (run_Runs Cluster.env _ (Demo.cluster [] false)) Hin1
           (run_Runs Cluster.env _ (Demo.cluster [] true)) Hin2).
Defined.

(* ------------------------------------------------------------------------- *)
(** ** The steps of a pass *)
(* ------------------------------------------------------------------------- *)

(** X8. When the get of the policy fails, the pass makes no other call.  A
    not-found error ends the pass with success; any other error is handed
    back as it is.  No requeue is asked for. *)
Theorem Reconcile_policy_get_failed (r : WAFPolicyReconciler)
    (req : NamespacedName) (e : error) (tr : list Event)
    (res : Result * option error) :
  Runs (Reconcile r req) (event (Get_WAFPolicy req) (Err e) :: tr) res ->
  tr = []
  /\ fst res = Result_zero
  /\ (IsNotFound e = true -> snd res = None)
  /\ (IsNotFound e = false -> snd res = Some e).
Proof.
  intros H. apply Reconcile_cases in H as (got & tr' & E & H).
  apply cons_event_inj in E as [<- <-]. destruct H as [-> ->].
  repeat split; simpl; intros ->; reflexivity.
Qed.

Lemma Reconcile_policy_get_failed_witness :
  Runs (Reconcile Demo.reconciler (Demo.key "non-existent"))
    (event (Get_WAFPolicy (Demo.key "non-existent"))
       (Err (Cluster.NewNotFound "non-existent")) :: [])
    (Result_zero, None)
  /\ snd (Result_zero, @None error) = None.
Proof.
  assert (Runs (Reconcile Demo.reconciler (Demo.key "non-existent"))
            (event (Get_WAFPolicy (Demo.key "non-existent"))
               (Err (Cluster.NewNotFound "non-existent")) :: [])
            (Result_zero, None)) as H
    by exact (run_Runs Cluster.env
                (Reconcile Demo.reconciler (Demo.key "non-existent"))
                (Demo.cluster [] false)).
  split; [exact H |].
  exact (proj1 (proj2 (proj2 (Reconcile_policy_get_failed _ _ _ _ _ H))) eq_refl).
Defined.

(** X9. For a fetched policy that is not under deletion and lacks the
    finalizer, the next call of the pass is an update of the policy with the
    finalizer appended to its finalizer list and nothing else changed.  When
    that update fails the pass ends there with its error; when it succeeds
    target resolution runs on the policy the update returned. *)
Theorem Reconcile_attaches_finalizer_first (r : WAFPolicyReconciler)
    (req : NamespacedName) (policy : WAFPolicy) (tr : list Event)
    (res : Result * option error) :
  DeletionTimestamp_IsZero policy = true ->
  ContainsFinalizer policy wafPolicyFinalizer = false ->
  Runs (Reconcile r req) (event (Get_WAFPolicy req) (Ok policy) :: tr) res ->
  exists updated tr',
    tr = event (Update_WAFPolicy
                  (with_Finalizers policy
                     (Finalizers policy ++ [wafPolicyFinalizer])%list)) updated
         :: tr'
    /\ match updated with
       | Err e => tr' = [] /\ res = (Result_zero, Some e)
       | Ok policy' => Runs (reconcileTarget r policy') tr' res
       end.
Proof.
  intros Hlive Hfin H. apply Reconcile_cases in H as (got & tr' & E & H).
  apply cons_event_inj in E as [<- <-].
  rewrite Hlive, Hfin in H. cbn [negb] in H.
  destruct H as (updated & tr'' & -> & H). exists updated, tr''.
  split; [| exact H]. unfold AddFinalizer. rewrite Hfin. reflexivity.
Qed.

Lemma Reconcile_attaches_finalizer_first_witness :
  DeletionTimestamp_IsZero fresh_policy = true
  /\ ContainsFinalizer fresh_policy wafPolicyFinalizer = false
  /\ Runs (Reconcile Demo.reconciler (Demo.key "test-new"))
       (event (Get_WAFPolicy (Demo.key "test-new")) (Ok fresh_policy)
        :: tail (trace_of (run Cluster.env
                   (Reconcile Demo.reconciler (Demo.key "test-new")) fresh_cluster)))
       (result_of (run Cluster.env
          (Reconcile Demo.reconciler (Demo.key "test-new")) fresh_cluster))
  /\ exists updated tr',
       tail (trace_of (run Cluster.env
               (Reconcile Demo.reconciler (Demo.key "test-new")) fresh_cluster))
       = event (Update_WAFPolicy
                  (with_Finalizers fresh_policy
                     (Finalizers fresh_policy ++ [wafPolicyFinalizer])%list))
           updated :: tr'.
Proof.
  assert (Runs (Reconcile Demo.reconciler (Demo.key "test-new"))
            (event (Get_WAFPolicy (Demo.key "test-new")) (Ok fresh_policy)
             :: tail (trace_of (run Cluster.env
                        (Reconcile Demo.reconciler (Demo.key "test-new"))
                        fresh_cluster)))
            (result_of (run Cluster.env
               (Reconcile Demo.reconciler (Demo.key "test-new")) fresh_cluster)))
    as H by exact (run_Runs Cluster.env
                     (Reconcile Demo.reconciler (Demo.key "test-new")) fresh_cluster).
  split; [reflexivity |]. split; [reflexivity |]. split; [exact H |].
  destruct (Reconcile_attaches_finalizer_first _ _ fresh_policy _ _ eq_refl eq_refl H)
    as (updated & tr' & Htr & _).
  exists updated, tr'. exact Htr.
Defined.

(** The calls of target resolution and Engine synthesis for a policy. *)
Lemma status_phase_target_phase (policy : WAFPolicy) (cs : list Condition)
    (l : list Call) :
  Forall (status_phase_call (Status_Patch (with_Conditions policy cs) policy)) l ->
  Forall (target_phase_call policy) l.
Proof.
  intros H. eapply Forall_impl; [exact H |].
  intros [] Hc; simpl in Hc; try contradiction; try exact I.
  injection Hc as -> ->. simpl. auto.
Qed.

Lemma refused_target_phase (policy : WAFPolicy) (reason : string)
    (requeue : bool) (tr : list Event) (res : Result * option error) :
  refused policy reason requeue tr res -> Forall (target_phase_call policy) (calls tr).
Proof.
  intros (cs & patched & _ & _ & Hc & _). eapply status_phase_target_phase, Hc.
Qed.

Lemma ensureEngine_target_phase (r : WAFPolicyReconciler) (policy : WAFPolicy)
    (workloadLabels : gmap string string) (tr : list Event)
    (res : Result * option error) :
  Runs (ensureEngine r policy workloadLabels) tr res ->
  Forall (target_phase_call policy) (calls tr).
Proof.
  intros H.
  apply ensureEngine_Runs in H
    as (tr1 & op & err & engine & tr2 & cs & patched & H1 & -> & _ & H2 & _).
  unfold calls. rewrite map_app. apply Forall_app. split.
  - eapply Forall_impl; [exact (CreateOrUpdate_calls _ _ _ _ H1) |].
    intros [] Hc; simpl in Hc; try contradiction; exact I.
  - eapply status_phase_target_phase, H2.
Qed.

Lemma reconcileTarget_target_phase (r : WAFPolicyReconciler) (policy : WAFPolicy)
    (tr : list Event) (res : Result * option error) :
  Runs (reconcileTarget r policy) tr res ->
  Forall (target_phase_call policy) (calls tr).
Proof.
  intros H. apply reconcileTarget_cases in H as [[_ H] | [[_ H] | (_ & _ & H)]].
  - apply reconcileForGateway_cases in H as (got & tr' & -> & H).
    constructor; [reflexivity |].
    destruct got as [gw | e]; [eapply ensureEngine_target_phase; exact H |].
    destruct (IsNotFound e).
    + eapply refused_target_phase; exact H.
    + destruct H as [-> _]. constructor.
  - apply reconcileForHTTPRoute_cases in H as (got & tr' & -> & H).
    constructor; [reflexivity |].
    destruct got as [route | e].
    + destruct (NestedSlice (Object route) ["spec"; "parentRefs"])
        as [[| first rest] | |]; try (eapply refused_target_phase; exact H).
      destruct first; try (eapply refused_target_phase; exact H).
      cbn zeta in H.
      destruct (decide (nested_string (NestedString m ["name"]) = ""));
        [eapply refused_target_phase; exact H
        | eapply ensureEngine_target_phase; exact H].
    + destruct (IsNotFound e); [eapply refused_target_phase; exact H |].
      destruct H as [-> _]. constructor.
  - eapply refused_target_phase; exact H.
Qed.

(** After the get of the policy: an optional update of the finalizers, then
    either nothing or target resolution for the policy in hand. *)
Lemma Reconcile_phases (r : WAFPolicyReconciler) (req : NamespacedName)
    (fetched : WAFPolicy) (tr : list Event) (res : Result * option error) :
  Runs (Reconcile r req) (event (Get_WAFPolicy req) (Ok fetched) :: tr) res ->
  exists head rest,
    tr = (head ++ rest)%list
    /\ (head = []
        \/ (exists updated,
              head = [event (Update_WAFPolicy
                               (with_Finalizers fetched
                                  (Finalizers fetched ++ [wafPolicyFinalizer])%list))
                        updated]
              /\ DeletionTimestamp_IsZero fetched = true)
        \/ (exists updated,
              head = [event (Update_WAFPolicy
                               (with_Finalizers fetched
                                  (filter (fun f => f <> wafPolicyFinalizer)
                                     (Finalizers fetched)))) updated]
              /\ DeletionTimestamp_IsZero fetched = false))
    /\ (rest = []
        \/ (exists policy, Runs (reconcileTarget r policy) rest res
                           /\ DeletionTimestamp_IsZero fetched = true
                           /\ (head = [] -> policy = fetched))).
Proof.
  intros H. apply Reconcile_cases in H as (got & tr' & E & H).
  apply cons_event_inj in E as [<- <-].
  destruct (DeletionTimestamp_IsZero fetched) eqn:Hlive; cbn [negb] in H.
  - destruct (ContainsFinalizer fetched wafPolicyFinalizer) eqn:Hfin.
    + exists [], tr. split; [reflexivity |]. split; [left; reflexivity |].
      right. exists fetched. auto.
    + destruct H as (updated & tr'' & -> & H).
      exists [event (Update_WAFPolicy (AddFinalizer fetched wafPolicyFinalizer))
                updated], tr''.
      split; [reflexivity |]. split.
      * right. left. exists updated. unfold AddFinalizer. rewrite Hfin. auto.
      * destruct updated as [policy' | e].
        -- right. exists policy'. repeat split; [exact H | discriminate].
        -- left. apply H.
  - apply handleDeletion_cases in H as [-> | (updated & ->)].
    + exists [], []. split; [reflexivity |]. split; left; reflexivity.
    + exists [event (Update_WAFPolicy (RemoveFinalizer fetched wafPolicyFinalizer))
                updated], [].
      split; [reflexivity |]. split; [| left; reflexivity].
      right. right. exists updated. auto.
Qed.

(** X10. A pass writes the policy it fetched in two ways only: at most one
    update that changes nothing but the finalizer list (the controller's
    finalizer appended, or taken out), and status patches that change
    nothing but the conditions.  The spec of the policy is never written. *)
Theorem Reconcile_policy_write_frame (r : WAFPolicyReconciler)
    (req : NamespacedName) (fetched : WAFPolicy) (tr : list Event)
    (res : Result * option error) :
  Runs (Reconcile r req) (event (Get_WAFPolicy req) (Ok fetched) :: tr) res ->
  Forall (policy_write_frame fetched) (calls tr)
  /\ (length (omap updated_policy (calls tr)) <= 1)%nat.
Proof.
  intros H. apply Reconcile_phases in H as (head & rest & -> & Hhead & Hrest).
  assert (Forall (fun c => policy_write_frame fetched c
                           /\ updated_policy c = None) (calls rest)) as Hr.
  { destruct Hrest as [-> | (policy & H & _)]; [constructor |].
    eapply Forall_impl; [exact (reconcileTarget_target_phase _ _ _ _ H) |].
    intros [] Hc; simpl in Hc; try contradiction; try (split; [exact I | reflexivity]).
    destruct Hc as [-> Hobj]. split; [exact Hobj | reflexivity]. }
  assert (omap updated_policy (calls rest) = []) as Hnone.
  { clear -Hr. induction Hr as [| c l [_ Hc] _ IH]; [reflexivity |].
    simpl. rewrite Hc. exact IH. }
  unfold calls in *. rewrite map_app, omap_app, Hnone, app_nil_r.
  split.
  - apply Forall_app. split; [| eapply Forall_impl; [exact Hr | tauto]].
    destruct Hhead as [-> | [(updated & -> & _) | (updated & -> & _)]];
      [constructor | constructor; [simpl; auto | constructor] ..].
  - destruct Hhead as [-> | [(updated & -> & _) | (updated & -> & _)]];
      simpl; lia.
Qed.

Lemma Reconcile_policy_write_frame_witness :
  Runs (Reconcile Demo.reconciler (Demo.key "test-new"))
    (event (Get_WAFPolicy (Demo.key "test-new")) (Ok fresh_policy)
     :: tail (trace_of (run Cluster.env
                (Reconcile Demo.reconciler (Demo.key "test-new")) fresh_cluster)))
    (result_of (run Cluster.env
       (Reconcile Demo.reconciler (Demo.key "test-new")) fresh_cluster))
  /\ Forall (policy_write_frame fresh_policy)
       (calls (tail (trace_of (run Cluster.env
          (Reconcile Demo.reconciler (Demo.key "test-new")) fresh_cluster)))).
Proof.
  assert (Runs (Reconcile Demo.reconciler (Demo.key "test-new"))
            (event (Get_WAFPolicy (Demo.key "test-new")) (Ok fresh_policy)
             :: tail (trace_of (run Cluster.env
                        (Reconcile Demo.reconciler (Demo.key "test-new"))
                        fresh_cluster)))
            (result_of (run Cluster.env
               (Reconcile Demo.reconciler (Demo.key "test-new")) fresh_cluster)))
    as H by exact (run_Runs Cluster.env
                     (Reconcile Demo.reconciler (Demo.key "test-new")) fresh_cluster).
  split; [exact H |].
  exact (proj1 (Reconcile_policy_write_frame _ _ fresh_policy _ _ H)).
Defined.

(** X11. No run of a pass lists policies, and none creates or updates an
    unstructured object: Gateways and HTTPRoutes are only read. *)
Theorem Reconcile_never_writes_targets (r : WAFPolicyReconciler)
    (req : NamespacedName) (tr : list Event) (res : Result * option error) :
  Runs (Reconcile r req) tr res -> Forall pass_call (calls tr).
Proof.
  intros H.
  apply (Reconcile_invariant pass_call) with (r := r) (req := req) (res := res);
    try exact H; try (intros; exact I).
  intros [] Hc; simpl in Hc; try contradiction; exact I.
Qed.

Lemma Reconcile_never_writes_targets_witness :
  Runs (Reconcile Demo.reconciler (Demo.key "test-route"))
    (trace_of Demo.route_resolved) (result_of Demo.route_resolved)
  /\ Forall pass_call (calls (trace_of Demo.route_resolved)).
Proof.
  split; [exact (run_Runs Cluster.env _ (Demo.cluster [Demo.gateway; Demo.route] false)) |].
  exact (Reconcile_never_writes_targets _ _ _ _
           (run_Runs Cluster.env _ (Demo.cluster [Demo.gateway; Demo.route] false))).
Defined.

Lemma no_target_lookup (l : list Call) :
  Forall (fun c => ~ is_unstructured_call c) l -> omap target_lookup l = [].
Proof.
  induction 1 as [| c l Hc _ IH]; [reflexivity |].
  simpl. destruct c; simpl in *; try exact IH; exfalso; apply Hc; exact I.
Qed.

Lemma reconcileTarget_one_lookup (r : WAFPolicyReconciler) (policy : WAFPolicy)
    (tr : list Event) (res : Result * option error) :
  Runs (reconcileTarget r policy) tr res ->
  omap target_lookup (calls tr) = []
  \/ omap target_lookup (calls tr) = [target_key policy].
Proof.
  intros H. apply reconcileTarget_cases in H as [[_ H] | [[_ H] | (_ & _ & H)]].
  - right. apply reconcileForGateway_cases in H as (got & tr' & -> & H).
    simpl. f_equal. apply no_target_lookup.
    destruct got as [gw | e]; [eapply ensureEngine_no_target; exact H |].
    destruct (IsNotFound e).
    + eapply Forall_impl; [exact (refused_no_target _ _ _ _ _ H) |]. simpl. tauto.
    + destruct H as [-> _]. constructor.
  - right. apply reconcileForHTTPRoute_no_target in H as (got & tr' & -> & H).
    simpl. f_equal. apply no_target_lookup, H.
  - left. apply no_target_lookup.
    eapply Forall_impl; [exact (refused_no_target _ _ _ _ _ H) |]. simpl. tauto.
Qed.

(** X12. A pass for a fetched policy that is live and carries the finalizer
    looks up at most one target, and only under the policy's own namespace
    and target name; every status patch is based on the fetched policy; and
    the policy is neither fetched again nor updated. *)
Theorem Reconcile_own_namespace_target (r : WAFPolicyReconciler)
    (req : NamespacedName) (fetched : WAFPolicy) (tr : list Event)
    (res : Result * option error) :
  DeletionTimestamp_IsZero fetched = true ->
  ContainsFinalizer fetched wafPolicyFinalizer = true ->
  Runs (Reconcile r req) (event (Get_WAFPolicy req) (Ok fetched) :: tr) res ->
  Forall (target_phase_call fetched) (calls tr)
  /\ (omap target_lookup (calls tr) = []
      \/ omap target_lookup (calls tr)
         = [ {| nnNamespace := Namespace fetched;
                nnName := trName (TargetRef (Spec fetched)) |} ]).
Proof.
  intros Hlive Hfin H. apply Reconcile_cases in H as (got & tr' & E & H).
  apply cons_event_inj in E as [<- <-].
  rewrite Hlive, Hfin in H. cbn [negb] in H. split.
  - eapply reconcileTarget_target_phase; exact H.
  - eapply reconcileTarget_one_lookup; exact H.
Qed.

Lemma Reconcile_own_namespace_target_witness :
  DeletionTimestamp_IsZero Demo.route_policy = true
  /\ ContainsFinalizer Demo.route_policy wafPolicyFinalizer = true
  /\ Runs (Reconcile Demo.reconciler (Demo.key "test-route"))
       (event (Get_WAFPolicy (Demo.key "test-route")) (Ok Demo.route_policy)
        :: tail (trace_of Demo.route_resolved))
       (result_of Demo.route_resolved)
  /\ Forall (target_phase_call Demo.route_policy)
       (calls (tail (trace_of Demo.route_resolved))).
Proof.
  assert (Runs (Reconcile Demo.reconciler (Demo.key "test-route"))
            (event (Get_WAFPolicy (Demo.key "test-route")) (Ok Demo.route_policy)
             :: tail (trace_of Demo.route_resolved))
            (result_of Demo.route_resolved)) as H
    by exact (run_Runs Cluster.env
                (Reconcile Demo.reconciler (Demo.key "test-route"))
                (Demo.cluster [Demo.gateway; Demo.route] false)).
  split; [reflexivity |]. split; [reflexivity |]. split; [exact H |].
  exact (proj1 (Reconcile_own_namespace_target _ _ Demo.route_policy _ _
                  eq_refl eq_refl H)).
Defined.

(** X13. For a fetched, live policy with the finalizer whose targetRef kind
    is neither "Gateway" nor "HTTPRoute", the pass refuses the policy with
    reason InvalidTargetRef: it writes Accepted=False with that reason,
    looks up no target, makes no Engine call and asks for no requeue. *)
Theorem Reconcile_unsupported_kind (r : WAFPolicyReconciler)
    (req : NamespacedName) (fetched : WAFPolicy) (tr : list Event)
    (res : Result * option error) :
  DeletionTimestamp_IsZero fetched = true ->
  ContainsFinalizer fetched wafPolicyFinalizer = true ->
  trKind (TargetRef (Spec fetched)) <> "Gateway" ->
  trKind (TargetRef (Spec fetched)) <> "HTTPRoute" ->
  Runs (Reconcile r req) (event (Get_WAFPolicy req) (Ok fetched) :: tr) res ->
  refused fetched "InvalidTargetRef" false tr res
  /\ Forall (fun c => ~ is_engine_call c /\ ~ is_unstructured_call c) (calls tr)
  /\ fst res = Result_zero.
Proof.
  intros Hlive Hfin Hg Hr H. apply Reconcile_cases in H as (got & tr' & E & H).
  apply cons_event_inj in E as [<- <-].
  rewrite Hlive, Hfin in H. cbn [negb] in H.
  apply reconcileTarget_cases in H as [[Hk _] | [[Hk _] | (_ & _ & H)]];
    try contradiction.
  split; [exact H |]. split; [exact (refused_no_target _ _ _ _ _ H) |].
  destruct H as (cs & patched & _ & _ & _ & -> & _). reflexivity.
Qed.

Lemma Reconcile_unsupported_kind_witness :
  Runs (Reconcile Demo.reconciler (Demo.key "test-svc"))
    (event (Get_WAFPolicy (Demo.key "test-svc")) (Ok service_policy)
     :: tail (trace_of (run Cluster.env
                (Reconcile Demo.reconciler (Demo.key "test-svc")) fresh_cluster)))
    (result_of (run Cluster.env
       (Reconcile Demo.reconciler (Demo.key "test-svc")) fresh_cluster))
  /\ refused service_policy "InvalidTargetRef" false
       (tail (trace_of (run Cluster.env
          (Reconcile Demo.reconciler (Demo.key "test-svc")) fresh_cluster)))
       (result_of (run Cluster.env
          (Reconcile Demo.reconciler (Demo.key "test-svc")) fresh_cluster)).
Proof.
  assert (Runs (Reconcile Demo.reconciler (Demo.key "test-svc"))
            (event (Get_WAFPolicy (Demo.key "test-svc")) (Ok service_policy)
             :: tail (trace_of (run Cluster.env
                        (Reconcile Demo.reconciler (Demo.key "test-svc"))
                        fresh_cluster)))
            (result_of (run Cluster.env
               (Reconcile Demo.reconciler (Demo.key "test-svc")) fresh_cluster)))
    as H by exact (run_Runs Cluster.env
                     (Reconcile Demo.reconciler (Demo.key "test-svc")) fresh_cluster).
  split; [exact H |].
  exact (proj1 (Reconcile_unsupported_kind _ _ service_policy _ _ eq_refl eq_refl
                  ltac:(discriminate) ltac:(discriminate) H)).
Defined.

Lemma ensureEngine_result (r : WAFPolicyReconciler) (policy : WAFPolicy)
    (workloadLabels : gmap string string) (tr : list Event)
    (res : Result * option error) :
  Runs (ensureEngine r policy workloadLabels) tr res -> fst res = Result_zero.
Proof.
  intros H.
  apply ensureEngine_Runs in H
    as (tr1 & op & err & engine & tr2 & cs & patched & _ & _ & _ & _ & Hk & _).
  destruct err; destruct Hk as [_ ->]; reflexivity.
Qed.

Lemma refused_requeue (policy : WAFPolicy) (reason : string) (requeue : bool)
    (tr : list Event) (res : Result * option error) :
  refused policy reason requeue tr res ->
  fst res = {| Requeue := requeue; RequeueAfter := 0 |}
  /\ exists obj base, In (Status_Patch obj base) (calls tr)
                      /\ writes_not_accepted reason obj.
Proof.
  intros (cs & patched & Hin & Hw & _ & -> & _). split; [reflexivity |].
  exists (with_Conditions policy cs), policy. split; [| exact Hw].
  exact (in_map call_of _ _ Hin).
Qed.

Lemma reconcileTarget_requeue (r : WAFPolicyReconciler) (policy : WAFPolicy)
    (tr : list Event) (res : Result * option error) :
  Runs (reconcileTarget r policy) tr res ->
  RequeueAfter (fst res) = 0
  /\ (Requeue (fst res) = true ->
      exists obj base, In (Status_Patch obj base) (calls tr)
                       /\ writes_not_accepted "TargetNotFound" obj).
Proof.
  intros H.
  assert (forall reason tr0, refused policy reason false tr0 res ->
            RequeueAfter (fst res) = 0
            /\ (Requeue (fst res) = true ->
                exists obj base, In (Status_Patch obj base) (calls (tr ++ tr0))
                                 /\ writes_not_accepted "TargetNotFound" obj))
    as Hfalse.
  { intros reason tr0 Hr. apply refused_requeue in Hr as [-> _].
    split; [reflexivity | discriminate]. }
  assert (forall tr0 ev, refused policy "TargetNotFound" true tr0 res ->
            RequeueAfter (fst res) = 0
            /\ (Requeue (fst res) = true ->
                exists obj base, In (Status_Patch obj base) (calls (ev :: tr0))
                                 /\ writes_not_accepted "TargetNotFound" obj))
    as Htrue.
  { intros tr0 ev Hr. apply refused_requeue in Hr as [-> (obj & base & Hin & Hw)].
    split; [reflexivity |]. intros _. exists obj, base. split; [right; exact Hin | exact Hw]. }
  assert (forall labels tr0, Runs (ensureEngine r policy labels) tr0 res ->
            RequeueAfter (fst res) = 0
            /\ (Requeue (fst res) = true ->
                exists obj base, In (Status_Patch obj base) (calls tr)
                                 /\ writes_not_accepted "TargetNotFound" obj))
    as Hengine.
  { intros labels tr0 He. rewrite (ensureEngine_result _ _ _ _ _ He).
    split; [reflexivity | discriminate]. }
  assert (forall e, res = (Result_zero, Some e) ->
            RequeueAfter (fst res) = 0
            /\ (Requeue (fst res) = true ->
                exists obj base, In (Status_Patch obj base) (calls tr)
                                 /\ writes_not_accepted "TargetNotFound" obj))
    as Herr by (intros e ->; split; [reflexivity | discriminate]).
  assert (forall reason tr0, refused policy reason false tr0 res ->
            RequeueAfter (fst res) = 0
            /\ (Requeue (fst res) = true ->
                exists obj base, In (Status_Patch obj base) (calls tr)
                                 /\ writes_not_accepted "TargetNotFound" obj))
    as Hfalse'.
  { intros reason tr0 Hr. apply refused_requeue in Hr as [-> _].
    split; [reflexivity | discriminate]. }
  clear Hfalse.
  apply reconcileTarget_cases in H as [[_ H] | [[_ H] | (_ & _ & H)]].
  - apply reconcileForGateway_cases in H as (got & tr' & -> & H).
    destruct got as [gw | e]; [eapply Hengine; exact H |].
    destruct (IsNotFound e); [apply Htrue, H | eapply Herr, H].
  - apply reconcileForHTTPRoute_cases in H as (got & tr' & -> & H).
    destruct got as [route | e].
    + destruct (NestedSlice (Object route) ["spec"; "parentRefs"])
        as [[| first rest] | |]; try (eapply Hfalse'; exact H).
      destruct first; try (eapply Hfalse'; exact H).
      cbn zeta in H.
      destruct (decide (nested_string (NestedString m ["name"]) = ""));
        [eapply Hfalse'; exact H | eapply Hengine; exact H].
    + destruct (IsNotFound e); [apply Htrue, H | eapply Herr, H].
  - eapply Hfalse'; exact H.
Qed.

(** X14. No pass asks for a delayed requeue ([RequeueAfter] stays zero), and
    a pass returns [Requeue] set only when it wrote Accepted=False with
    reason TargetNotFound. *)
Theorem Reconcile_requeue_only_for_missing_target (r : WAFPolicyReconciler)
    (req : NamespacedName) (tr : list Event) (res : Result * option error) :
  Runs (Reconcile r req) tr res ->
  RequeueAfter (fst res) = 0
  /\ (Requeue (fst res) = true ->
      exists obj base, In (Status_Patch obj base) (calls tr)
                       /\ writes_not_accepted "TargetNotFound" obj).
Proof.
  intros H. apply Reconcile_cases in H as (got & tr' & -> & H).
  assert (forall policy tr0 prefix,
            Runs (reconcileTarget r policy) tr0 res ->
            RequeueAfter (fst res) = 0
            /\ (Requeue (fst res) = true ->
                exists obj base, In (Status_Patch obj base) (calls (prefix ++ tr0))
                                 /\ writes_not_accepted "TargetNotFound" obj))
    as Hlift.
  { intros policy tr0 prefix H0.
    apply reconcileTarget_requeue in H0 as [Hafter Hreq].
    split; [exact Hafter |]. intros Hq.
    destruct (Hreq Hq) as (obj & base & Hin & Hw). exists obj, base.
    split; [| exact Hw]. unfold calls. rewrite map_app. apply in_or_app. auto. }
  destruct got as [policy | e].
  - destruct (negb (DeletionTimestamp_IsZero policy)).
    { unfold handleDeletion in H.
      destruct (ContainsFinalizer policy wafPolicyFinalizer).
      - cbn [bind call Runs] in H. destruct H as ([? | ?] & tr'' & _ & _ & ->);
          split; [reflexivity | discriminate | reflexivity | discriminate].
      - destruct H as [_ ->]. split; [reflexivity | discriminate]. }
    destruct (ContainsFinalizer policy wafPolicyFinalizer).
    + apply (Hlift policy tr' [event (Get_WAFPolicy req) (Ok policy)] H).
    + destruct H as (updated & tr'' & -> & H).
      destruct updated as [policy' | e].
      * apply (Hlift policy' tr''
                 [event (Get_WAFPolicy req) (Ok policy);
                  event (Update_WAFPolicy (AddFinalizer policy wafPolicyFinalizer))
                    (Ok policy')] H).
      * destruct H as [_ ->]. split; [reflexivity | discriminate].
  - destruct H as [_ ->]. split; [reflexivity | discriminate].
Qed.

Lemma Reconcile_requeue_only_for_missing_target_witness :
  Runs (Reconcile Demo.reconciler (Demo.key "test-gw"))
    (trace_of Demo.gateway_missing) (result_of Demo.gateway_missing)
  /\ Requeue (fst (result_of Demo.gateway_missing)) = true
  /\ exists obj base,
       In (Status_Patch obj base) (calls (trace_of Demo.gateway_missing))
       /\ writes_not_accepted "TargetNotFound" obj.
Proof.
  split; [exact (run_Runs Cluster.env _ (Demo.cluster [] false)) |].
  split; [reflexivity |].
  exact (proj2 (Reconcile_requeue_only_for_missing_target
                  Demo.reconciler (Demo.key "test-gw")
                  (trace_of Demo.gateway_missing) (result_of Demo.gateway_missing)
                  (run_Runs Cluster.env _ (Demo.cluster [] false))) eq_refl).
Defined.

(* ------------------------------------------------------------------------- *)
(** ** The Engine of a policy: owner reference, spec and events *)
(* ------------------------------------------------------------------------- *)

Lemma policy_owner_ref_same (policy : WAFPolicy) :
  referSameObject (policy_owner_ref policy) (policy_owner_ref policy) = true.
Proof.
  unfold referSameObject, policy_owner_ref. cbn [orAPIVersion orKind orName].
  change (ParseGroupVersion "waf.k8s.coraza.io/v1alpha1")
    with (Some {| gvGroup := "waf.k8s.coraza.io"; gvVersion := "v1alpha1" |}).
  rewrite !bool_decide_eq_true_2 by reflexivity. reflexivity.
Qed.

Lemma controller_after_insert (owners : list OwnerReference)
    (ref : OwnerReference) (idx : nat) :
  orController ref = Some true ->
  referSameObject ref ref = true ->
  indexOwnerRef owners ref = Some idx ->
  (forall ex, head (filter (fun r => orController r = Some true) owners) = Some ex ->
     referSameObject ex ref = true) ->
  head (filter (fun r => orController r = Some true) (<[idx := ref]> owners))
  = Some ref
  /\ indexOwnerRef (<[idx := ref]> owners) ref = Some idx
  /\ In ref (<[idx := ref]> owners).
Proof.
  intros Hc Hs. revert idx.
  induction owners as [| r rest IH]; intros idx Hi Hex; simpl in Hi;
    [discriminate |].
  destruct (referSameObject r ref) eqn:Er.
  - injection Hi as <-. simpl. rewrite filter_cons.
    destruct (decide (orController ref = Some true)); [| contradiction].
    simpl. rewrite Hs. auto.
  - destruct (indexOwnerRef rest ref) as [i |] eqn:Ei; [| discriminate].
    simpl in Hi. injection Hi as <-. simpl.
    rewrite filter_cons in Hex. rewrite filter_cons.
    destruct (decide (orController r = Some true)).
    + exfalso. specialize (Hex r eq_refl). congruence.
    + destruct (IH i eq_refl Hex) as (H1 & H2 & H3). rewrite Er, H2. simpl. auto.
Qed.

Lemma controller_after_append (owners : list OwnerReference)
    (ref : OwnerReference) :
  orController ref = Some true ->
  referSameObject ref ref = true ->
  indexOwnerRef owners ref = None ->
  (forall ex, head (filter (fun r => orController r = Some true) owners) = Some ex ->
     referSameObject ex ref = true) ->
  head (filter (fun r => orController r = Some true) (owners ++ [ref])%list)
  = Some ref
  /\ indexOwnerRef (owners ++ [ref])%list ref = Some (length owners)
  /\ In ref (owners ++ [ref])%list.
Proof.
  intros Hc Hs.
  induction owners as [| r rest IH]; intros Hi Hex; simpl in Hi.
  - simpl. rewrite filter_cons.
    destruct (decide (orController ref = Some true)); [| contradiction].
    simpl. rewrite Hs. auto.
  - destruct (referSameObject r ref) eqn:Er; [discriminate |].
    destruct (indexOwnerRef rest ref) as [i |] eqn:Ei; [discriminate |].
    simpl. rewrite filter_cons in Hex. rewrite filter_cons.
    destruct (decide (orController r = Some true)).
    + exfalso. specialize (Hex r eq_refl). congruence.
    + destruct (IH eq_refl Hex) as (H1 & H2 & H3). rewrite Er, H2. simpl. auto.
Qed.

Lemma upsertOwnerRef_controller (policy : WAFPolicy) (e0 : Engine) :
  (forall ex, GetControllerOf e0 = Some ex ->
     referSameObject ex (policy_owner_ref policy) = true) ->
  let e := upsertOwnerRef (policy_owner_ref policy) e0 in
  GetControllerOf e = Some (policy_owner_ref policy)
  /\ In (policy_owner_ref policy) (eOwnerReferences e)
  /\ upsertOwnerRef (policy_owner_ref policy) e = e.
Proof.
  intros Hex. cbn zeta. unfold GetControllerOf.
  destruct (indexOwnerRef (eOwnerReferences e0) (policy_owner_ref policy))
    as [idx |] eqn:Ei.
  - assert (upsertOwnerRef (policy_owner_ref policy) e0
            = with_eOwnerReferences e0
                (<[idx := policy_owner_ref policy]> (eOwnerReferences e0))) as ->
      by (unfold upsertOwnerRef; rewrite Ei; reflexivity).
    cbn [eOwnerReferences with_eOwnerReferences].
    destruct (controller_after_insert _ (policy_owner_ref policy) idx eq_refl
                (policy_owner_ref_same policy) Ei Hex) as (H1 & H2 & H3).
    split; [exact H1 |]. split; [exact H3 |].
    unfold upsertOwnerRef. cbn [eOwnerReferences with_eOwnerReferences].
    rewrite H2, list_insert_insert_eq. reflexivity.
  - assert (upsertOwnerRef (policy_owner_ref policy) e0
            = with_eOwnerReferences e0
                (eOwnerReferences e0 ++ [policy_owner_ref policy])%list) as ->
      by (unfold upsertOwnerRef; rewrite Ei; reflexivity).
    cbn [eOwnerReferences with_eOwnerReferences].
    destruct (controller_after_append _ (policy_owner_ref policy) eq_refl
                (policy_owner_ref_same policy) Ei Hex) as (H1 & H2 & H3).
    split; [exact H1 |]. split; [exact H3 |].
    unfold upsertOwnerRef. cbn [eOwnerReferences with_eOwnerReferences].
    rewrite H2, list_insert_id; [reflexivity |].
    rewrite lookup_app_r by reflexivity.
    rewrite Nat.sub_diag. reflexivity.
Qed.

Lemma SetControllerReference_ok (owner : WAFPolicy) (e0 e : Engine) :
  SetControllerReference owner e0 = (e, None) ->
  GetControllerOf e = Some (policy_owner_ref owner)
  /\ In (policy_owner_ref owner) (eOwnerReferences e)
  /\ SetControllerReference owner e = (e, None).
Proof.
  unfold SetControllerReference.
  change {| orAPIVersion := GroupVersion_String WAFPolicy_GVK;
            orKind := Kind WAFPolicy_GVK; orName := Name owner;
            orUID := UID owner; orController := Some true;
            orBlockOwnerDeletion := Some true |}
    with (policy_owner_ref owner).
  destruct (validateOwner owner e0) eqn:Ev; [discriminate |].
  assert (forall e', eNamespace e' = eNamespace e0 ->
            validateOwner owner e' = None) as Hv.
  { intros e' En. unfold validateOwner in *. rewrite En. exact Ev. }
  assert ((forall ex, GetControllerOf e0 = Some ex ->
             referSameObject ex (policy_owner_ref owner) = true) ->
          upsertOwnerRef (policy_owner_ref owner) e0 = e ->
          GetControllerOf e = Some (policy_owner_ref owner)
          /\ In (policy_owner_ref owner) (eOwnerReferences e)
          /\ match validateOwner owner e with
             | Some err => (e, Some err)
             | None =>
                 match GetControllerOf e with
                 | Some existing =>
                     if referSameObject existing (policy_owner_ref owner)
                     then (upsertOwnerRef (policy_owner_ref owner) e, None)
                     else (e, Some (fmt_Errorf
                            "Object is already owned by another controller"))
                 | None => (upsertOwnerRef (policy_owner_ref owner) e, None)
                 end
             end = (e, None)) as Hup.
  { intros Hex <-.
    destruct (upsertOwnerRef_controller owner e0 Hex) as (H1 & H2 & H3).
    split; [exact H1 |]. split; [exact H2 |].
    rewrite Hv.
    - rewrite H1, policy_owner_ref_same, H3. reflexivity.
    - unfold upsertOwnerRef.
      destruct (indexOwnerRef (eOwnerReferences e0) (policy_owner_ref owner));
        reflexivity. }
  destruct (GetControllerOf e0) as [existing |] eqn:Eg.
  - destruct (referSameObject existing (policy_owner_ref owner)) eqn:Es;
      [| discriminate].
    intros [= E]. apply Hup; [| exact E]. intros ex [= <-]. exact Es.
  - intros [= E]. apply Hup; [| exact E]. intros ex [=].
Qed.

Lemma with_eSpec_id (e : Engine) (s : EngineSpec) :
  eSpec e = s -> with_eSpec e s = e.
Proof. intros <-. destruct e. reflexivity. Qed.

(** The mutate function is idempotent: an Engine it produced is left as it
    is by a second application. *)
Lemma engineMutateFn_idempotent (r : WAFPolicyReconciler) (policy : WAFPolicy)
    (workloadLabels : gmap string string) (e0 e : Engine) :
  engineMutateFn r policy workloadLabels e0 = (e, None) ->
  engineMutateFn r policy workloadLabels e = (e, None).
Proof.
  intros H. pose proof (engineMutateFn_spec _ _ _ _ _ _ H) as Hs.
  unfold engineMutateFn in *. rewrite (with_eSpec_id e _ Hs).
  apply SetControllerReference_ok in H. tauto.
Qed.

Lemma engineMutateFn_engine_of_policy (r : WAFPolicyReconciler)
    (policy : WAFPolicy) (workloadLabels : gmap string string) (e0 e : Engine) :
  engineMutateFn r policy workloadLabels e0 = (e, None) ->
  engine_of_policy r policy workloadLabels e.
Proof.
  intros H. split; [exact (engineMutateFn_spec _ _ _ _ _ _ H) |].
  unfold engineMutateFn in H. apply SetControllerReference_ok in H. tauto.
Qed.

(** X15. Every Engine that [ensureEngine] creates or updates carries the
    spec computed from the policy and the configuration, whatever spec the
    stored Engine had, and has the policy as its controller: the first
    controller reference on it names the policy's kind, name and UID, with
    [controller] and [blockOwnerDeletion] set. *)
Theorem ensureEngine_writes_engine_of_policy (r : WAFPolicyReconciler)
    (policy : WAFPolicy) (workloadLabels : gmap string string)
    (tr : list Event) (res : Result * option error) :
  Runs (ensureEngine r policy workloadLabels) tr res ->
  Forall (writes_engine_of_policy r policy workloadLabels) (calls tr).
Proof.
  intros H.
  apply ensureEngine_Runs in H
    as (tr1 & op & err & engine & tr2 & cs & patched & H1 & -> & _ & H2 & _).
  unfold calls. rewrite map_app. apply Forall_app. split.
  - eapply Forall_impl; [exact (CreateOrUpdate_calls _ _ _ _ H1) |].
    intros [] Hc; simpl in *; try exact I;
      destruct Hc as (_ & e0 & Hf);
      exact (engineMutateFn_engine_of_policy _ _ _ _ _ Hf).
  - eapply Forall_impl; [exact H2 |].
    intros [] Hc; simpl in *; solve [exact I | contradiction].
Qed.

Lemma ensureEngine_writes_engine_of_policy_witness :
  Runs (ensureEngine Demo.reconciler Demo.gw_policy (gateway_labels Demo.gw_policy))
    (trace_of (run Cluster.env
       (ensureEngine Demo.reconciler Demo.gw_policy (gateway_labels Demo.gw_policy))
       (Demo.cluster [Demo.gateway] false)))
    (result_of (run Cluster.env
       (ensureEngine Demo.reconciler Demo.gw_policy (gateway_labels Demo.gw_policy))
       (Demo.cluster [Demo.gateway] false)))
  /\ Forall (writes_engine_of_policy Demo.reconciler Demo.gw_policy
               (gateway_labels Demo.gw_policy))
       (calls (trace_of (run Cluster.env
          (ensureEngine Demo.reconciler Demo.gw_policy (gateway_labels Demo.gw_policy))
          (Demo.cluster [Demo.gateway] false)))).
Proof.
  split; [exact (run_Runs Cluster.env _ (Demo.cluster [Demo.gateway] false)) |].
  exact (ensureEngine_writes_engine_of_policy _ _ _ _ _
           (run_Runs Cluster.env _ (Demo.cluster [Demo.gateway] false))).
Defined.

Lemma cons_event_eq (c c' : Call) (r : Resp c) (r' : Resp c')
    (tr tr' : list Event) :
  event c r :: tr = event c' r' :: tr' -> c = c' /\ tr = tr'.
Proof.
  intros E. split.
  - exact (f_equal (fun l => match l with x :: _ => call_of x | [] => c end) E).
  - exact (f_equal (fun l => match l with _ :: l' => l' | [] => [] end) E).
Qed.

(** What [CreateOrUpdate] does after a get that found the object. *)
Lemma CreateOrUpdate_found (obj : Engine) (f : Engine -> Engine * option error)
    (key : NamespacedName) (existing : Engine) (tr : list Event)
    (res : OperationResult * option error * Engine) :
  Runs (CreateOrUpdate obj f) (event (Get_Engine key) (Ok existing) :: tr) res ->
  match mutate f (ObjectKeyFromObject obj) existing with
  | (o, Some e) => tr = [] /\ res = (OperationResultNone, Some e, o)
  | (o, None) =>
      if decide (existing = o) then tr = [] /\ res = (OperationResultNone, None, o)
      else exists updated,
          tr = [event (Update_Engine o) updated]
          /\ res = match updated with
                   | Err err => (OperationResultNone, Some err, o)
                   | Ok o' => (OperationResultUpdated, None, o')
                   end
  end.
Proof.
  unfold CreateOrUpdate. cbn [bind call Runs]. intros (got & tr' & E & H).
  destruct (cons_event_eq _ _ _ _ _ _ E) as [Ek _]. injection Ek as ->.
  apply cons_event_inj in E as [<- <-].
  destruct (mutate f (ObjectKeyFromObject obj) existing) as [o [e |]].
  - destruct H as [-> ->]. auto.
  - destruct (decide (existing = o)).
    + destruct H as [-> ->]. auto.
    + cbn [bind call Runs] in H. destruct H as (updated & tr'' & -> & H).
      exists updated. destruct updated; destruct H as [-> ->]; auto.
Qed.

Lemma ensureEngine_found (r : WAFPolicyReconciler) (policy : WAFPolicy)
    (workloadLabels : gmap string string) (key : NamespacedName)
    (existing : Engine) (tr : list Event) (res : Result * option error) :
  Runs (ensureEngine r policy workloadLabels)
    (event (Get_Engine key) (Ok existing) :: tr) res ->
  exists tr1 op err engine tr2 cs patched,
    Runs (CreateOrUpdate (engineObject policy)
            (engineMutateFn r policy workloadLabels))
      (event (Get_Engine key) (Ok existing) :: tr1) (op, err, engine)
    /\ tr = (tr1 ++ tr2)%list
    /\ In (event (Status_Patch (with_Conditions policy cs) policy) patched) tr2
    /\ Forall (status_phase_call (Status_Patch (with_Conditions policy cs) policy))
         (calls tr2)
    /\ match err with
       | Some e => writes_sync_failed (with_Conditions policy cs) policy
                   /\ res = (Result_zero, Some e)
       | None => writes_accepted (with_Conditions policy cs)
                 /\ res = (Result_zero, error_of patched)
       end.
Proof.
  intros H.
  apply ensureEngine_Runs in H
    as (tr1 & op & err & engine & tr2 & cs & patched & H1 & E & Hin & H2 & Hk & _).
  destruct (CreateOrUpdate_first _ _ _ _ H1) as (got & tr1' & ->).
  simpl in E. destruct (cons_event_eq _ _ _ _ _ _ E) as [Ek ->].
  injection Ek as ->. apply cons_event_inj in E as [<- _].
  exists tr1', op, err, engine, tr2, cs, patched. auto.
Qed.

(** X16. When the Engine found under the derived name is controlled by
    another object, [ensureEngine] writes no Engine: it makes no further
    Engine call, returns an error, and writes [Programmed=False] with reason
    EngineSyncFailed, leaving [Accepted] as it was. *)
Theorem ensureEngine_foreign_controller (r : WAFPolicyReconciler)
    (policy : WAFPolicy) (workloadLabels : gmap string string)
    (key : NamespacedName) (existing : Engine) (other : OwnerReference)
    (tr : list Event) (res : Result * option error) :
  GetControllerOf existing = Some other ->
  referSameObject other (policy_owner_ref policy) = false ->
  Runs (ensureEngine r policy workloadLabels)
    (event (Get_Engine key) (Ok existing) :: tr) res ->
  Forall (fun c => ~ is_engine_call c) (calls tr)
  /\ (exists e, res = (Result_zero, Some e))
  /\ exists cs patched,
       In (event (Status_Patch (with_Conditions policy cs) policy) patched) tr
       /\ writes_sync_failed (with_Conditions policy cs) policy.
Proof.
  intros Hc Hs H.
  apply ensureEngine_found in H
    as (tr1 & op & err & engine & tr2 & cs & patched & H1 & -> & Hin & H2 & Hk).
  apply CreateOrUpdate_found in H1.
  assert (exists o e, mutate (engineMutateFn r policy workloadLabels)
                        (ObjectKeyFromObject (engineObject policy)) existing
                      = (o, Some e)) as (o & e & Em).
  { unfold mutate, engineMutateFn, SetControllerReference.
    destruct (validateOwner policy _); [eauto |].
    unfold GetControllerOf in *. cbn [eOwnerReferences with_eSpec].
    rewrite Hc.
    change {| orAPIVersion := GroupVersion_String WAFPolicy_GVK;
              orKind := Kind WAFPolicy_GVK; orName := Name policy;
              orUID := UID policy; orController := Some true;
              orBlockOwnerDeletion := Some true |}
      with (policy_owner_ref policy).
    rewrite Hs. eauto. }
  rewrite Em in H1. destruct H1 as [-> [= -> -> ->]]. simpl.
  destruct Hk as [Hw ->]. split; [| split; [eauto | eauto]].
  eapply Forall_impl; [exact H2 |].
  intros [] Hp; simpl in *; tauto.
Qed.

Lemma ensureEngine_foreign_controller_witness :
  GetControllerOf foreign_engine
  = Some {| orAPIVersion := "apps/v1"; orKind := "Deployment"; orName := "other";
            orUID := "uid-d"; orController := Some true;
            orBlockOwnerDeletion := None |}
  /\ Runs (ensureEngine Demo.reconciler Demo.gw_policy (gateway_labels Demo.gw_policy))
       (event (Get_Engine (Demo.key "wafpolicy-test-gw")) (Ok foreign_engine)
        :: tail (trace_of (run Cluster.env
             (ensureEngine Demo.reconciler Demo.gw_policy
                (gateway_labels Demo.gw_policy)) foreign_cluster)))
       (result_of (run Cluster.env
          (ensureEngine Demo.reconciler Demo.gw_policy
             (gateway_labels Demo.gw_policy)) foreign_cluster))
  /\ Forall (fun c => ~ is_engine_call c)
       (calls (tail (trace_of (run Cluster.env
          (ensureEngine Demo.reconciler Demo.gw_policy
             (gateway_labels Demo.gw_policy)) foreign_cluster)))).
Proof.
  assert (Runs (ensureEngine Demo.reconciler Demo.gw_policy
                  (gateway_labels Demo.gw_policy))
            (event (Get_Engine (Demo.key "wafpolicy-test-gw")) (Ok foreign_engine)
             :: tail (trace_of (run Cluster.env
                  (ensureEngine Demo.reconciler Demo.gw_policy
                     (gateway_labels Demo.gw_policy)) foreign_cluster)))
            (result_of (run Cluster.env
               (ensureEngine Demo.reconciler Demo.gw_policy
                  (gateway_labels Demo.gw_policy)) foreign_cluster))) as H
    by exact (run_Runs Cluster.env
                (ensureEngine Demo.reconciler Demo.gw_policy
                   (gateway_labels Demo.gw_policy)) foreign_cluster).
  split; [reflexivity |]. split; [exact H |].
  exact (proj1 (ensureEngine_foreign_controller _ Demo.gw_policy _ _ foreign_engine _
                  _ _ eq_refl eq_refl H)).
Defined.

(** X17. An Engine that is already as the mutate function leaves it is not
    written again: after a get that finds it, [ensureEngine] makes no further
    Engine call, and when the Engine is under the derived key the pass still
    writes [Accepted=True] and [Programmed=True] and returns the error of
    the patch only. *)
Theorem ensureEngine_in_sync_no_write (r : WAFPolicyReconciler)
    (policy : WAFPolicy) (workloadLabels : gmap string string)
    (key : NamespacedName) (e0 existing : Engine)
    (tr : list Event) (res : Result * option error) :
  engineMutateFn r policy workloadLabels e0 = (existing, None) ->
  Runs (ensureEngine r policy workloadLabels)
    (event (Get_Engine key) (Ok existing) :: tr) res ->
  Forall (fun c => ~ is_engine_call c) (calls tr)
  /\ (ObjectKeyFromObject existing = ObjectKeyFromObject (engineObject policy) ->
      exists cs patched,
        In (event (Status_Patch (with_Conditions policy cs) policy) patched) tr
        /\ writes_accepted (with_Conditions policy cs)
        /\ res = (Result_zero, error_of patched)).
Proof.
  intros Hm H. apply engineMutateFn_idempotent in Hm.
  apply ensureEngine_found in H
    as (tr1 & op & err & engine & tr2 & cs & patched & H1 & -> & Hin & H2 & Hk).
  apply CreateOrUpdate_found in H1. unfold mutate in H1. rewrite Hm in H1.
  assert (tr1 = []
          /\ (ObjectKeyFromObject existing = ObjectKeyFromObject (engineObject policy)
              -> err = None)) as [-> Herr].
  { destruct (decide (ObjectKeyFromObject (engineObject policy)
                      = ObjectKeyFromObject existing)) as [E | E].
    - destruct (decide (existing = existing)); [| contradiction].
      destruct H1 as [-> [= _ <- _]]. auto.
    - destruct H1 as [-> _]. split; [reflexivity |]. intros E'. congruence. }
  simpl. split.
  - eapply Forall_impl; [exact H2 |]. intros [] Hp; simpl in *; tauto.
  - intros E. rewrite (Herr E) in Hk. destruct Hk as [Hw ->]. eauto.
Qed.

Lemma ensureEngine_in_sync_no_write_witness :
  engineMutateFn Demo.reconciler Demo.gw_policy (gateway_labels Demo.gw_policy)
    (engineObject Demo.gw_policy) = (synced_engine, None)
  /\ Runs (ensureEngine Demo.reconciler Demo.gw_policy (gateway_labels Demo.gw_policy))
       (event (Get_Engine (Demo.key "wafpolicy-test-gw")) (Ok synced_engine)
        :: tail (trace_of (run Cluster.env
             (ensureEngine Demo.reconciler Demo.gw_policy
                (gateway_labels Demo.gw_policy)) synced_cluster)))
       (result_of (run Cluster.env
          (ensureEngine Demo.reconciler Demo.gw_policy
             (gateway_labels Demo.gw_policy)) synced_cluster))
  /\ Forall (fun c => ~ is_engine_call c)
       (calls (tail (trace_of (run Cluster.env
          (ensureEngine Demo.reconciler Demo.gw_policy
             (gateway_labels Demo.gw_policy)) synced_cluster)))).
Proof.
  assert (Runs (ensureEngine Demo.reconciler Demo.gw_policy
                  (gateway_labels Demo.gw_policy))
            (event (Get_Engine (Demo.key "wafpolicy-test-gw")) (Ok synced_engine)
             :: tail (trace_of (run Cluster.env
                  (ensureEngine Demo.reconciler Demo.gw_policy
                     (gateway_labels Demo.gw_policy)) synced_cluster)))
            (result_of (run Cluster.env
               (ensureEngine Demo.reconciler Demo.gw_policy
                  (gateway_labels Demo.gw_policy)) synced_cluster))) as H
    by exact (run_Runs Cluster.env
                (ensureEngine Demo.reconciler Demo.gw_policy
                   (gateway_labels Demo.gw_policy)) synced_cluster).
  split; [reflexivity |]. split; [exact H |].
  exact (proj1 (ensureEngine_in_sync_no_write Demo.reconciler Demo.gw_policy
                  (gateway_labels Demo.gw_policy) _ (engineObject Demo.gw_policy)
                  synced_engine _ _ eq_refl H)).
Defined.

(** X18. [ensureEngine] records a Normal event, with reason Programmed, only
    in a pass that returns no error, and then on the policy as the status
    patch returned it; a Warning event it records has reason
    EngineSyncFailed, is on the policy of the pass, and the pass returns an
    error.  A pass that returns no error has recorded the Normal event. *)
Theorem ensureEngine_events (r : WAFPolicyReconciler) (policy : WAFPolicy)
    (workloadLabels : gmap string string) (tr : list Event)
    (res : Result * option error) :
  Runs (ensureEngine r policy workloadLabels) tr res ->
  Forall (engine_event policy res) (calls tr)
  /\ (snd res = None ->
      exists obj base patched message,
        In (event (Status_Patch obj base) (Ok patched)) tr
        /\ In (Recorder_Event patched "Normal" "Programmed" message) (calls tr)).
Proof.
  unfold ensureEngine. intros H.
  apply Runs_bind in H as (tr1 & [[op err] engine] & tr2 & H1 & H2 & ->).
  assert (Forall (engine_event policy res) (calls tr1)) as Hfirst.
  { eapply Forall_impl; [exact (CreateOrUpdate_calls _ _ _ _ H1) |].
    intros [] Hc; simpl in *; solve [exact I | contradiction]. }
  assert (forall l, Forall (fun c => c = time_Now) l ->
            Forall (engine_event policy res) l) as Hcl
    by (intros l Hl; eapply Forall_impl; [exact Hl | intros ? ->; exact I]).
  unfold calls. rewrite map_app, Forall_app. destruct err as [e |].
  - unfold setConditionFalse in H2. cbn [bind call Runs] in H2.
    destruct H2 as (u & tr3 & -> & now & tr4 & -> & H2).
    apply Runs_bind in H2 as (tr5 & cs & tr6 & Hset & H2 & ->).
    apply SetStatusCondition_Runs in Hset as [Hclock _].
    cbn [bind call Runs] in H2. destruct H2 as (patched & tr7 & -> & -> & ->).
    split; [| discriminate]. split; [exact Hfirst |]. simpl.
    constructor; [right; repeat split; discriminate |].
    constructor; [exact I |]. rewrite map_app. apply Forall_app. split.
    + apply Hcl, Hclock.
    + repeat constructor.
  - cbn [bind call Runs] in H2. destruct H2 as (now & tr3 & -> & H2).
    apply Runs_bind in H2 as (tr4 & cs1 & tr5 & Hset1 & H2 & ->).
    apply SetStatusCondition_Runs in Hset1 as [Hclock1 _].
    cbn [bind call Runs] in H2. destruct H2 as (now' & tr6 & -> & H2).
    apply Runs_bind in H2 as (tr7 & cs & tr8 & Hset2 & H2 & ->).
    apply SetStatusCondition_Runs in Hset2 as [Hclock2 _].
    cbn [bind call Runs] in H2. destruct H2 as (patched & tr9 & -> & H2).
    destruct patched as [policy' | e]; cbn [bind call Runs] in H2.
    + destruct H2 as (u & tr10 & -> & -> & ->). split.
      * split; [exact Hfirst |]. simpl. constructor; [exact I |].
        rewrite map_app. apply Forall_app. split; [apply Hcl, Hclock1 |].
        simpl. constructor; [exact I |].
        rewrite map_app. apply Forall_app. split; [apply Hcl, Hclock2 |].
        simpl. constructor; [exact I |]. constructor; [| constructor].
        left. auto.
      * intros _. eexists _, _, policy', _. split.
        -- apply in_or_app. right. right. apply in_or_app. right. right.
           apply in_or_app. right. left. reflexivity.
        -- repeat first [rewrite map_app | progress cbn [map]].
           apply in_or_app. right. right. apply in_or_app. right. right.
           apply in_or_app. right. right. left. reflexivity.
    + destruct H2 as [-> ->]. split; [| discriminate].
      split; [exact Hfirst |]. simpl. constructor; [exact I |].
      rewrite map_app. apply Forall_app. split; [apply Hcl, Hclock1 |].
      simpl. constructor; [exact I |].
      rewrite map_app. apply Forall_app. split; [apply Hcl, Hclock2 |].
      repeat constructor.
Qed.

Lemma ensureEngine_events_witness :
  Runs (ensureEngine Demo.reconciler Demo.gw_policy (gateway_labels Demo.gw_policy))
    (trace_of (run Cluster.env
       (ensureEngine Demo.reconciler Demo.gw_policy (gateway_labels Demo.gw_policy))
       (Demo.cluster [Demo.gateway] false)))
    (result_of (run Cluster.env
       (ensureEngine Demo.reconciler Demo.gw_policy (gateway_labels Demo.gw_policy))
       (Demo.cluster [Demo.gateway] false)))
  /\ snd (result_of (run Cluster.env
       (ensureEngine Demo.reconciler Demo.gw_policy (gateway_labels Demo.gw_policy))
       (Demo.cluster [Demo.gateway] false))) = None
  /\ exists obj base patched message,
       In (event (Status_Patch obj base) (Ok patched))
         (trace_of (run Cluster.env
            (ensureEngine Demo.reconciler Demo.gw_policy
               (gateway_labels Demo.gw_policy))
            (Demo.cluster [Demo.gateway] false)))
       /\ In (Recorder_Event patched "Normal" "Programmed" message)
            (calls (trace_of (run Cluster.env
               (ensureEngine Demo.reconciler Demo.gw_policy
                  (gateway_labels Demo.gw_policy))
               (Demo.cluster [Demo.gateway] false)))).
Proof.
  split; [exact (run_Runs Cluster.env _ (Demo.cluster [Demo.gateway] false)) |].
  split; [reflexivity |].
  exact (proj2 (ensureEngine_events Demo.reconciler Demo.gw_policy
                  (gateway_labels Demo.gw_policy)
                  (trace_of (run Cluster.env
                     (ensureEngine Demo.reconciler Demo.gw_policy
                        (gateway_labels Demo.gw_policy))
                     (Demo.cluster [Demo.gateway] false)))
                  (result_of (run Cluster.env
                     (ensureEngine Demo.reconciler Demo.gw_policy
                        (gateway_labels Demo.gw_policy))
                     (Demo.cluster [Demo.gateway] false)))
                  (run_Runs Cluster.env _ (Demo.cluster [Demo.gateway] false)))
           eq_refl).
Defined.

(* ------------------------------------------------------------------------- *)
(** ** Fan-out from targets to policies *)
(* ------------------------------------------------------------------------- *)

Lemma NoDup_key_inj (items : list WAFPolicy) (p p' : WAFPolicy) :
  NoDup (map policy_key items) -> p ∈ items -> p' ∈ items ->
  policy_key p = policy_key p' -> p = p'.
Proof.
  induction items as [| q items IH]; intros Hnd Hp Hp' E; [inversion Hp |].
  simpl in Hnd. apply NoDup_cons in Hnd as [Hq Hnd].
  apply elem_of_cons in Hp as [-> | Hp]; apply elem_of_cons in Hp' as [-> | Hp'].
  - reflexivity.
  - exfalso. apply Hq. rewrite E. apply list_elem_of_fmap_2. exact Hp'.
  - exfalso. apply Hq. rewrite <- E. apply list_elem_of_fmap_2. exact Hp.
  - apply IH; assumption.
Qed.

(** X22. A change of a Gateway and a change of an HTTPRoute never enqueue
    the same listed policy: on one listing with distinct keys, the requests
    [findPoliciesForGateway] returns and those [findPoliciesForHTTPRoute]
    returns are disjoint, whatever the two objects are named; each result
    keeps the order of the listing and has no duplicates. *)
Theorem findPolicies_kinds_disjoint (gw route : Unstructured)
    (items : list WAFPolicy) (ns ns' : string) (res res' : list NamespacedName) :
  NoDup (map policy_key items) ->
  Runs (findPoliciesForGateway gw) [event (List_WAFPolicy ns) (Ok items)] res ->
  Runs (findPoliciesForHTTPRoute route) [event (List_WAFPolicy ns') (Ok items)] res' ->
  (forall key, In key res -> ~ In key res')
  /\ sublist res (map policy_key items) /\ sublist res' (map policy_key items)
  /\ NoDup res /\ NoDup res'.
Proof.
  intros Hnd H H'.
  apply findPoliciesForTarget_Runs in H as (listed & E & ->).
  destruct (cons_event_eq _ _ _ _ _ _ E) as [[= ->] _].
  apply cons_event_inj in E as [<- _].
  apply findPoliciesForTarget_Runs in H' as (listed' & E & ->).
  destruct (cons_event_eq _ _ _ _ _ _ E) as [[= ->] _].
  apply cons_event_inj in E as [<- _].
  assert (forall kind name,
            sublist (map policy_key (filter (targets kind name) items))
              (map policy_key items)) as Hsub
    by (intros; apply fmap_sublist, sublist_filter).
  split; [| split; [apply Hsub | split; [apply Hsub |
            split; eapply sublist_NoDup; try exact Hnd; apply Hsub]]].
  intros key Hin Hin'.
  apply in_map_iff in Hin as (p & Ep & Hp).
  apply in_map_iff in Hin' as (p' & Ep' & Hp').
  apply list_elem_of_In, list_elem_of_filter in Hp as [[Hk _] Hp].
  apply list_elem_of_In, list_elem_of_filter in Hp' as [[Hk' _] Hp'].
  assert (p = p') as <- by (eapply NoDup_key_inj; eauto; congruence).
  congruence.
Qed.

Lemma findPolicies_kinds_disjoint_witness :
  NoDup (map policy_key [Demo.gw_policy; Demo.route_policy; Demo.deleting_policy])
  /\ (forall key,
        In key (result_of (Demo.run_in [] false (findPoliciesForGateway Demo.gateway))) ->
        ~ In key (result_of (Demo.run_in [] false
                               (findPoliciesForHTTPRoute Demo.route)))).
Proof.
  assert (NoDup (map policy_key
                   [Demo.gw_policy; Demo.route_policy; Demo.deleting_policy])) as Hnd.
  { simpl. repeat (apply NoDup_cons; split;
              [rewrite ?elem_of_cons, elem_of_nil; intros Hx;
               repeat destruct Hx as [Hx | Hx]; solve [discriminate Hx | exact Hx] |]).
    apply NoDup_nil. exact I. }
  split; [exact Hnd |].
  exact (proj1 (findPolicies_kinds_disjoint Demo.gateway Demo.route
                  [Demo.gw_policy; Demo.route_policy; Demo.deleting_policy]
                  "default" "default" _ _ Hnd
                  (run_Runs Cluster.env (findPoliciesForGateway Demo.gateway)
                     (Demo.cluster [] false))
                  (run_Runs Cluster.env (findPoliciesForHTTPRoute Demo.route)
                     (Demo.cluster [] false)))).
Defined.

(* ------------------------------------------------------------------------- *)
(** ** createOrUpdate: what is sent to the store *)
(* ------------------------------------------------------------------------- *)

Lemma map_get_set_ne (k k' : string) (v : value) (m : list (string * value)) :
  k <> k' -> map_get k (map_set k' v m) = map_get k m.
Proof.
  intros Hk. induction m as [| [k0 v0] m IH]; simpl.
  - destruct (decide (k' = k)); congruence.
  - destruct (decide (k0 = k')) as [-> | E]; simpl.
    + destruct (decide (k' = k)); congruence.
    + destruct (decide (k0 = k)); [reflexivity | exact IH].
Qed.

Lemma map_get_delete_ne (k k' : string) (m : list (string * value)) :
  k <> k' -> map_get k (map_delete k' m) = map_get k m.
Proof.
  intros Hk. induction m as [| [k0 v0] m IH]; simpl; [reflexivity |].
  destruct (decide (k0 = k')) as [-> | E]; simpl.
  - destruct (decide (k' = k)); [congruence | exact IH].
  - destruct (decide (k0 = k)); [reflexivity | exact IH].
Qed.

Lemma same_but_version_of_fields (a b : Unstructured) :
  (forall k, k <> "metadata" -> map_get k (Object a) = map_get k (Object b)) ->
  (forall k, k <> "resourceVersion" ->
     NestedFieldNoCopy (VMap (Object a)) ["metadata"; k]
     = NestedFieldNoCopy (VMap (Object b)) ["metadata"; k]) ->
  same_but_version a b.
Proof.
  intros Htop Hmd.
  assert (forall k, k <> "resourceVersion" ->
            getNestedString (Object a) ["metadata"; k]
            = getNestedString (Object b) ["metadata"; k]) as Hs.
  { intros k Hk. unfold getNestedString, NestedString. rewrite (Hmd k Hk).
    reflexivity. }
  assert (forall k, k <> "metadata" ->
            getNestedString (Object a) [k] = getNestedString (Object b) [k]) as Ht.
  { intros k Hk. unfold getNestedString, NestedString. simpl.
    rewrite (Htop k Hk). reflexivity. }
  split; [apply Hs; discriminate |]. split; [apply Hs; discriminate |].
  split; [| auto].
  unfold GroupVersionKind_of, GetAPIVersion, GetKind.
  rewrite (Ht "apiVersion"), (Ht "kind") by discriminate. reflexivity.
Qed.

(** Setting the resource version changes nothing else on an object. *)
Lemma SetResourceVersion_frame (u : Unstructured) (rv : string) :
  same_but_version (SetResourceVersion u rv) u.
Proof.
  apply same_but_version_of_fields.
  - intros k Hk. unfold SetResourceVersion, setNestedField.
    destruct (decide (rv = "")); simpl;
      destruct (map_get "metadata" (Object u)) as [[] |]; simpl;
      try reflexivity; apply map_get_set_ne; exact Hk.
  - intros k Hk. unfold SetResourceVersion, setNestedField.
    destruct (decide (rv = "")); simpl;
      destruct (map_get "metadata" (Object u)) as [[] |] eqn:Em; simpl;
      rewrite ?Em, ?map_get_set_eq; simpl;
      rewrite ?map_get_delete_ne, ?map_get_set_ne by exact Hk;
      try reflexivity.
    destruct (decide ("resourceVersion" = k)); [congruence | reflexivity].
Qed.

Lemma cut_slash_append (s g v : string) :
  cut_slash s = Some (g, v) -> s = g +:+ "/" +:+ v.
Proof.
  revert g. induction s as [| c s IH]; intros g; simpl; [discriminate |].
  destruct (decide (c = Ascii.ascii_of_nat 47)) as [-> | Hc].
  - intros [= <- <-]. reflexivity.
  - destruct (cut_slash s) as [[a b] |]; [| discriminate].
    simpl. intros [= <- <-].
    change (String c s = String c (a +:+ "/" +:+ b)). f_equal. apply IH. reflexivity.
Qed.

(** Printing a parsed group and version and parsing it again gives the same
    group and version. *)
Lemma ParseGroupVersion_String (s : string) (gv : GroupVersion) (kind : string) :
  ParseGroupVersion s = Some gv ->
  ParseGroupVersion
    (GroupVersion_String
       {| Group := gvGroup gv; Version := gvVersion gv; Kind := kind |})
  = Some gv.
Proof.
  unfold ParseGroupVersion at 1.
  destruct (decide (s = "")); [intros [= <-]; reflexivity |].
  destruct (decide (s = "/")); [intros [= <-]; reflexivity |].
  destruct (cut_slash s) as [[g v] |] eqn:Es.
  - destruct (cut_slash v) as [? |] eqn:Ev; [discriminate |]. intros [= <-].
    unfold GroupVersion_String. cbn [Group Version gvGroup gvVersion].
    pose proof (cut_slash_append _ _ _ Es) as E.
    destruct (decide (g = "")) as [-> | Hg].
    + unfold ParseGroupVersion.
      destruct (decide (v = "")) as [-> | Hv];
        [change ("" +:+ "/" +:+ "") with "/" in E; congruence |].
      destruct (decide (v = "/")) as [-> | Hv']; [discriminate Ev |].
      rewrite Ev. reflexivity.
    + rewrite <- E. unfold ParseGroupVersion.
      destruct (decide (s = "")); [contradiction |].
      destruct (decide (s = "/")); [contradiction |].
      rewrite Es, Ev. reflexivity.
  - intros [= <-]. unfold GroupVersion_String. cbn [Group Version gvGroup gvVersion].
    destruct (decide ("" = "")); [| congruence].
    unfold ParseGroupVersion.
    destruct (decide (s = "")); [contradiction |].
    destruct (decide (s = "/")); [contradiction |].
    rewrite Es. reflexivity.
Qed.

Lemma shell_GroupVersionKind (desired : Unstructured) :
  let into := SetGroupVersionKind {| Object := [] |} (GroupVersionKind_of desired) in
  GroupVersionKind_of into = GroupVersionKind_of desired
  /\ forall k, k <> "apiVersion" -> k <> "kind" -> map_get k (Object into) = None.
Proof.
  cbn zeta.
  assert (forall gvk,
            Object (SetGroupVersionKind {| Object := [] |} gvk)
            = [("apiVersion", VString (GroupVersion_String gvk));
               ("kind", VString (Kind gvk))]) as Hobj by reflexivity.
  split.
  - unfold GroupVersionKind_of at 1. unfold GetAPIVersion, GetKind, getNestedString,
      NestedString. rewrite Hobj. simpl.
    unfold GroupVersionKind_of.
    destruct (ParseGroupVersion (GetAPIVersion desired)) as [gv |] eqn:Ep.
    + rewrite (ParseGroupVersion_String _ _ _ Ep). reflexivity.
    + reflexivity.
  - intros k Hk Hk'. rewrite Hobj. simpl.
    destruct (decide ("apiVersion" = k)); [congruence |].
    destruct (decide ("kind" = k)); [congruence | reflexivity].
Qed.

(** X23. Whatever [createOrUpdate] sends to the store belongs to the desired
    object: the shell of the get carries exactly the group, version and kind
    of the desired object (printing and parsing the apiVersion again loses
    nothing) and holds no other field; the object of a create or an update
    has the name, namespace, group, version and kind of the desired object,
    every top-level field of it outside [metadata], and every metadata field
    of it other than the resource version.  No other kind of call is made. *)
Theorem createOrUpdate_sends_desired (desired : Unstructured)
    (tr : list Event) (res : option error) :
  Runs (createOrUpdate desired) tr res ->
  Forall (upsert_of_desired desired) (calls tr).
Proof.
  assert (same_but_version desired desired) as Hrefl
    by (apply same_but_version_of_fields; reflexivity).
  unfold createOrUpdate.
  destruct (Empty (GroupVersionKind_of desired)); [intros [-> _]; constructor |].
  destruct (decide (GetName desired = "")); [intros [-> _]; constructor |].
  cbn [bind call Runs]. intros (got & tr' & -> & H).
  simpl. constructor; [exact (shell_GroupVersionKind desired) |].
  destruct got as [resource | err].
  - cbn [bind call Runs] in H. destruct H as (updated & tr'' & -> & H).
    assert (tr'' = []) as -> by (destruct updated; destruct H; assumption).
    simpl. constructor; [apply SetResourceVersion_frame | constructor].
  - destruct (IsNotFound err).
    + cbn [bind call Runs] in H. destruct H as (created & tr'' & -> & H).
      assert (tr'' = []) as -> by (destruct created; destruct H; assumption).
      simpl. constructor; [exact Hrefl | constructor].
    + destruct H as [-> _]. constructor.
Qed.

Lemma createOrUpdate_sends_desired_witness :
  Runs (createOrUpdate Demo.desired)
    (trace_of (Demo.run_in [] false (createOrUpdate Demo.desired)))
    (result_of (Demo.run_in [] false (createOrUpdate Demo.desired)))
  /\ Forall (upsert_of_desired Demo.desired)
       (calls (trace_of (Demo.run_in [] false (createOrUpdate Demo.desired)))).
Proof.
  split; [exact (run_Runs Cluster.env _ (Demo.cluster [] false)) |].
  exact (createOrUpdate_sends_desired _ _ _
           (run_Runs Cluster.env (createOrUpdate Demo.desired)
              (Demo.cluster [] false))).
Defined.

(* ------------------------------------------------------------------------- *)
(** ** The finalizer over the life of a policy *)
(* ------------------------------------------------------------------------- *)

Lemma ContainsFinalizer_AddFinalizer (policy : WAFPolicy) (finalizer : string) :
  ContainsFinalizer (AddFinalizer policy finalizer) finalizer = true.
Proof.
  unfold AddFinalizer. destruct (ContainsFinalizer policy finalizer) eqn:E;
    [exact E |].
  unfold ContainsFinalizer. simpl. apply bool_decide_eq_true_2.
  apply elem_of_app. right. apply list_elem_of_singleton. reflexivity.
Qed.

Lemma ContainsFinalizer_RemoveFinalizer (policy : WAFPolicy) (finalizer : string) :
  ContainsFinalizer (RemoveFinalizer policy finalizer) finalizer = false.
Proof.
  unfold ContainsFinalizer, RemoveFinalizer. simpl. apply bool_decide_eq_false_2.
  intros H. apply list_elem_of_filter in H as [H _]. congruence.
Qed.

Lemma filter_ne_id (finalizer : string) (l : list string) :
  finalizer ∉ l -> filter (fun f => f <> finalizer) l = l.
Proof.
  induction l as [| f l IH]; intros H; [reflexivity |].
  apply not_elem_of_cons in H as [Hf Hl]. rewrite filter_cons.
  destruct (decide (f <> finalizer)) as [| n]; [| exfalso; apply n; congruence].
  f_equal. apply IH, Hl.
Qed.

(** X24. The two finalizer steps are not repeated and undo each other.  A
    pass that fetches a live policy as [AddFinalizer] left it makes no
    update of the policy; a pass that fetches a policy under deletion as
    [RemoveFinalizer] left it makes no call at all after the get and returns
    no error; and taking the finalizer out of a policy it was attached to
    gives the policy back, with its other finalizers in their order. *)
Theorem finalizer_steps_converge (r : WAFPolicyReconciler) (req : NamespacedName)
    (policy : WAFPolicy) (tr : list Event) (res : Result * option error) :
  (DeletionTimestamp_IsZero policy = true ->
   Runs (Reconcile r req)
     (event (Get_WAFPolicy req) (Ok (AddFinalizer policy wafPolicyFinalizer)) :: tr)
     res ->
   omap updated_policy (calls tr) = [])
  /\ (DeletionTimestamp_IsZero policy = false ->
      Runs (Reconcile r req)
        (event (Get_WAFPolicy req) (Ok (RemoveFinalizer policy wafPolicyFinalizer))
         :: tr) res ->
      tr = [] /\ res = (Result_zero, None))
  /\ (ContainsFinalizer policy wafPolicyFinalizer = false ->
      RemoveFinalizer (AddFinalizer policy wafPolicyFinalizer) wafPolicyFinalizer
      = policy).
Proof.
  split; [| split].
  - intros Hlive H. apply Reconcile_cases in H as (got & tr' & E & H).
    apply cons_event_inj in E as [<- <-].
    rewrite ContainsFinalizer_AddFinalizer in H.
    assert (DeletionTimestamp_IsZero (AddFinalizer policy wafPolicyFinalizer) = true)
      as Hl.
    { unfold AddFinalizer.
      destruct (ContainsFinalizer policy wafPolicyFinalizer); exact Hlive. }
    rewrite Hl in H. cbn [negb] in H.
    pose proof (reconcileTarget_target_phase _ _ _ _ H) as HF.
    induction HF as [| c l Hc _ IH]; [reflexivity |].
    simpl. destruct c; simpl in *; try exact IH; contradiction.
  - intros Hdel H. apply Reconcile_cases in H as (got & tr' & E & H).
    apply cons_event_inj in E as [<- <-].
    assert (DeletionTimestamp_IsZero (RemoveFinalizer policy wafPolicyFinalizer)
            = false) as Hd by exact Hdel.
    rewrite Hd in H. cbn [negb] in H. unfold handleDeletion in H.
    rewrite ContainsFinalizer_RemoveFinalizer in H. exact H.
  - intros Hc. unfold AddFinalizer. rewrite Hc. unfold RemoveFinalizer. simpl.
    rewrite filter_app, filter_ne_id.
    + rewrite filter_cons.
      destruct (decide (wafPolicyFinalizer <> wafPolicyFinalizer)) as [n |];
        [exfalso; apply n; reflexivity |].
      rewrite filter_nil, app_nil_r. destruct policy. reflexivity.
    + unfold ContainsFinalizer in Hc. apply bool_decide_eq_false_1 in Hc. exact Hc.
Qed.

Lemma finalizer_steps_converge_witness :
  DeletionTimestamp_IsZero Demo.deleting_policy = false
  /\ Runs (Reconcile Demo.reconciler (Demo.key "test-del"))
       (event (Get_WAFPolicy (Demo.key "test-del"))
          (Ok (RemoveFinalizer Demo.deleting_policy wafPolicyFinalizer))
        :: tail (trace_of (run Cluster.env
             (Reconcile Demo.reconciler (Demo.key "test-del"))
             (Cluster.with_policies (Demo.cluster [] false)
                [RemoveFinalizer Demo.deleting_policy wafPolicyFinalizer]))))
       (result_of (run Cluster.env
          (Reconcile Demo.reconciler (Demo.key "test-del"))
          (Cluster.with_policies (Demo.cluster [] false)
             [RemoveFinalizer Demo.deleting_policy wafPolicyFinalizer])))
  /\ tail (trace_of (run Cluster.env
       (Reconcile Demo.reconciler (Demo.key "test-del"))
       (Cluster.with_policies (Demo.cluster [] false)
          [RemoveFinalizer Demo.deleting_policy wafPolicyFinalizer]))) = [].
Proof.
  assert (Runs (Reconcile Demo.reconciler (Demo.key "test-del"))
            (event (Get_WAFPolicy (Demo.key "test-del"))
               (Ok (RemoveFinalizer Demo.deleting_policy wafPolicyFinalizer))
             :: tail (trace_of (run Cluster.env
                  (Reconcile Demo.reconciler (Demo.key "test-del"))
                  (Cluster.with_policies (Demo.cluster [] false)
                     [RemoveFinalizer Demo.deleting_policy wafPolicyFinalizer]))))
            (result_of (run Cluster.env
               (Reconcile Demo.reconciler (Demo.key "test-del"))
               (Cluster.with_policies (Demo.cluster [] false)
                  [RemoveFinalizer Demo.deleting_policy wafPolicyFinalizer]))))
    as H by exact (run_Runs Cluster.env
                     (Reconcile Demo.reconciler (Demo.key "test-del"))
                     (Cluster.with_policies (Demo.cluster [] false)
                        [RemoveFinalizer Demo.deleting_policy wafPolicyFinalizer])).
  split; [reflexivity |]. split; [exact H |].
  exact (proj1 (proj1 (proj2 (finalizer_steps_converge Demo.reconciler
                               (Demo.key "test-del") Demo.deleting_policy _ _))
                  eq_refl H)).
Defined.

(* ------------------------------------------------------------------------- *)
(** ** The chart helpers *)
(* ------------------------------------------------------------------------- *)

Lemma length_take_string (n : nat) (s : string) :
  (String.length (helm.take_string n s) <= n)%nat
  /\ (String.length (helm.take_string n s) <= String.length s)%nat.
Proof.
  revert s. induction n as [| n IH]; intros s; simpl; [lia |].
  destruct s as [| c rest]; simpl; [lia |]. destruct (IH rest). lia.
Qed.

Lemma length_trunc (c : Z) (s : string) :
  0 <= c -> (String.length (helm.trunc c s) <= Z.to_nat c)%nat.
Proof.
  intros Hc. unfold helm.trunc.
  destruct (c <? 0) eqn:E; [apply Z.ltb_lt in E; lia |]. cbn [andb].
  destruct (0 <=? c) eqn:E0; [| apply Z.leb_gt in E0; lia]. cbn [andb].
  destruct (c <? Z.of_nat (String.length s)) eqn:E1.
  - apply length_take_string.
  - apply Z.ltb_ge in E1. lia.
Qed.

Lemma length_trimSuffix (suffix s : string) :
  (String.length (helm.trimSuffix suffix s) <= String.length s)%nat.
Proof.
  unfold helm.trimSuffix. destruct (helm.HasSuffix s suffix); [| lia].
  apply length_take_string.
Qed.

Lemma length_name_pipeline (s : string) :
  (String.length (helm.trimSuffix "-" (helm.trunc 63 s)) <= 63)%nat.
Proof.
  pose proof (length_trimSuffix "-" (helm.trunc 63 s)).
  pose proof (length_trunc 63 s ltac:(lia)).
  change (Z.to_nat 63) with 63%nat in *. lia.
Qed.

(** X25. The names the chart derives fit a Kubernetes name or label value:
    for every chart, release and overrides, "coraza-operator.name",
    "coraza-operator.fullname", the service account name and the value of
    the "helm.sh/chart" label are at most 63 bytes long. *)
Theorem chart_names_fit (ctx : helm.Context) :
  (String.length (helm.name ctx) <= 63)%nat
  /\ (String.length (helm.fullname ctx) <= 63)%nat
  /\ (String.length (helm.serviceAccountName ctx) <= 63)%nat
  /\ (String.length (helm.chart_label ctx) <= 63)%nat.
Proof.
  assert (String.length (helm.fullname ctx) <= 63)%nat as Hfull.
  { unfold helm.fullname.
    destruct (decide (helm.Values_fullnameOverride ctx <> ""));
      [apply length_name_pipeline |].
    cbn zeta. destruct (helm.contains _ _); apply length_name_pipeline. }
  split; [apply length_name_pipeline |]. split; [exact Hfull |].
  split; [exact Hfull | apply length_name_pipeline].
Qed.

Lemma occurs_take_string (a : Ascii.ascii) (n : nat) (s : string) :
  helm.occurs a s = false -> helm.occurs a (helm.take_string n s) = false.
Proof.
  revert s. induction n as [| n IH]; intros s; [destruct s; reflexivity |].
  destruct s as [| c rest]; simpl; [reflexivity |].
  intros H. apply orb_false_iff in H as [-> H]. simpl. apply IH, H.
Qed.

Lemma occurs_drop_string (a : Ascii.ascii) (n : nat) (s : string) :
  helm.occurs a s = false -> helm.occurs a (helm.drop_string n s) = false.
Proof.
  revert s. induction n as [| n IH]; intros s; [destruct s; auto |].
  destruct s as [| c rest]; simpl; [reflexivity |].
  intros H. apply orb_false_iff in H as [_ H]. apply IH, H.
Qed.

Lemma occurs_replace (old new : Ascii.ascii) (s : string) :
  old <> new -> helm.occurs old (helm.replace old new s) = false.
Proof.
  intros Hne. induction s as [| c rest IH]; simpl; [reflexivity |].
  rewrite IH, orb_false_r. apply bool_decide_eq_false_2.
  destruct (decide (c = old)); congruence.
Qed.

Lemma prefix_take_string (n : nat) (s : string) :
  String.prefix (helm.take_string n s) s = true.
Proof.
  revert s. induction n as [| n IH]; intros s; [destruct s; reflexivity |].
  destruct s as [| c rest]; simpl; [reflexivity |].
  destruct (Ascii.ascii_dec c c); [apply IH | contradiction].
Qed.

Lemma prefix_refl (s : string) : String.prefix s s = true.
Proof.
  induction s as [| c rest IH]; simpl; [reflexivity |].
  destruct (Ascii.ascii_dec c c); [exact IH | contradiction].
Qed.

Lemma prefix_trans (a b c : string) :
  String.prefix a b = true -> String.prefix b c = true -> String.prefix a c = true.
Proof.
  revert b c. induction a as [| x a IH]; intros b c;
    [intros _ _; destruct c; reflexivity |].
  destruct b as [| y b]; simpl; [discriminate |].
  destruct (Ascii.ascii_dec x y) as [-> |]; [| discriminate].
  destruct c as [| z c]; simpl; [discriminate |].
  destruct (Ascii.ascii_dec y z) as [-> |]; [| discriminate].
  apply IH.
Qed.

(** X26. The value of the "helm.sh/chart" label never holds a plus sign,
    whatever the chart name and version are, and is a prefix of the chart
    name and version joined by a dash with each plus sign replaced by an
    underscore: truncation and trimming only cut at the end. *)
Theorem chart_label_has_no_plus (ctx : helm.Context) :
  helm.occurs helm.plus (helm.chart_label ctx) = false
  /\ String.prefix (helm.chart_label ctx)
       (helm.replace helm.plus helm.underscore
          (helm.Chart_Name ctx +:+ "-" +:+ helm.Chart_Version ctx)) = true.
Proof.
  unfold helm.chart_label.
  set (s := helm.replace helm.plus helm.underscore
              (helm.Chart_Name ctx +:+ "-" +:+ helm.Chart_Version ctx)).
  assert (helm.occurs helm.plus s = false) as Hs
    by (apply occurs_replace; discriminate).
  assert (helm.occurs helm.plus (helm.trunc 63 s) = false
          /\ String.prefix (helm.trunc 63 s) s = true) as [Ht Hp].
  { unfold helm.trunc. cbn [Z.ltb Z.compare andb Z.leb].
    destruct (63 <? Z.of_nat (String.length s)).
    - split; [apply occurs_take_string, Hs | apply prefix_take_string].
    - split; [exact Hs | apply prefix_refl]. }
  unfold helm.trimSuffix. destruct (helm.HasSuffix (helm.trunc 63 s) "-").
  - split; [apply occurs_take_string, Ht |].
    eapply prefix_trans; [apply prefix_take_string | exact Hp].
  - split; [exact Ht | exact Hp].
Qed.

(* ------------------------------------------------------------------------- *)
(** ** The resource builders of the test framework *)
(* ------------------------------------------------------------------------- *)

Lemma NestedFieldNoCopy_app (v v' : value) (p q : list string) :
  NestedFieldNoCopy v p = NFound v' ->
  NestedFieldNoCopy v (p ++ q)%list = NestedFieldNoCopy v' q.
Proof.
  revert v. induction p as [| f p IH]; intros v; simpl.
  - intros [= ->]. reflexivity.
  - destruct v; try discriminate.
    destruct (map_get f m); [apply IH | discriminate].
Qed.

Lemma map_get_labels (l : list (string * string)) (k : string) :
  NoDup l.*1 ->
  map_get k ((fun kv => (fst kv, VString (snd kv))) <$> l)
  = VString <$> (list_to_map l : gmap string string) !! k.
Proof.
  induction l as [| [k' v] l IH]; intros Hnd; simpl; [reflexivity |].
  apply NoDup_cons in Hnd as [Hk Hnd].
  destruct (decide (k' = k)) as [-> | Hne].
  - rewrite lookup_insert_eq. reflexivity.
  - rewrite lookup_insert_ne by exact Hne. apply IH, Hnd.
Qed.

Lemma labels_value_lookup (workloadLabels : gmap string string) (k : string) :
  NestedFieldNoCopy (framework.labels_value workloadLabels) [k]
  = match workloadLabels !! k with
    | Some v => NFound (VString v)
    | None => NAbsent
    end.
Proof.
  unfold framework.labels_value. simpl.
  rewrite map_get_labels by apply NoDup_fst_map_to_list.
  rewrite list_to_map_to_list. destruct (workloadLabels !! k); reflexivity.
Qed.

(** X27. Whatever options it is given, [BuildEngine] builds an Engine with
    the given name and namespace, the mode "gateway", and no empty setting:
    the failure policy and the image are never empty and the poll interval
    is never zero, an option that is set being kept as it is; the rule set
    reference has a namespace exactly when the option is not empty. *)
Theorem BuildEngine_defaults (CORAZA_WASM_IMAGE namespace name : string)
    (opts : framework.EngineOpts) :
  let obj := framework.BuildEngine CORAZA_WASM_IMAGE namespace name opts in
  GetName obj = name /\ GetNamespace obj = namespace
  /\ GroupVersionKind_of obj = EngineGVK
  /\ NestedString (Object obj) ["spec"; "driver"; "istio"; "wasm"; "mode"]
     = NFound "gateway"
  /\ (exists failurePolicy,
        NestedString (Object obj) ["spec"; "failurePolicy"] = NFound failurePolicy
        /\ failurePolicy <> ""
        /\ (framework.FailurePolicy opts <> "" ->
            failurePolicy = framework.FailurePolicy opts))
  /\ (exists image,
        NestedString (Object obj) ["spec"; "driver"; "istio"; "wasm"; "image"]
        = NFound image
        /\ image <> ""
        /\ (framework.WasmImage opts <> "" -> image = framework.WasmImage opts))
  /\ (exists pollInterval,
        NestedFieldNoCopy (VMap (Object obj))
          ["spec"; "driver"; "istio"; "wasm"; "ruleSetCacheServer";
           "pollIntervalSeconds"] = NFound (VInt pollInterval)
        /\ pollInterval <> 0
        /\ (framework.PollInterval opts <> 0 ->
            pollInterval = framework.PollInterval opts))
  /\ NestedString (Object obj) ["spec"; "ruleSet"; "namespace"]
     = (if decide (framework.RuleSetNamespace opts = "") then NAbsent
        else NFound (framework.RuleSetNamespace opts)).
Proof.
  cbn zeta. split; [reflexivity |]. split; [reflexivity |].
  split; [reflexivity |]. split; [reflexivity |].
  split; [| split; [| split]].
  - eexists. split; [reflexivity |].
    destruct (decide (framework.FailurePolicy opts = "")); split;
      solve [discriminate | assumption | contradiction | reflexivity].
  - eexists. split; [reflexivity |].
    destruct (decide (framework.WasmImage opts = "")); split;
      try solve [assumption | contradiction | reflexivity].
    unfold framework.defaultWasmImage.
    destruct (decide (CORAZA_WASM_IMAGE <> "")); [assumption | discriminate].
  - eexists. split; [reflexivity |].
    destruct (decide (framework.PollInterval opts = 0)); split;
      solve [discriminate | assumption | contradiction | reflexivity].
  - unfold framework.BuildEngine, NestedString. cbn [Object].
    destruct (decide (framework.RuleSetNamespace opts = "")) as [E | E].
    + destruct (decide (framework.RuleSetNamespace opts <> ""));
        [contradiction | reflexivity].
    + destruct (decide (framework.RuleSetNamespace opts <> ""));
        [reflexivity | contradiction].
Qed.

Lemma BuildEngine_defaults_witness :
  exists failurePolicy,
    NestedString
      (Object (framework.BuildEngine "" "default" "e1"
                 {| framework.RuleSetName := "rs"; framework.RuleSetNamespace := "";
                    framework.GatewayName := "gw1";
                    framework.WorkloadLabels := None;
                    framework.WasmImage := ""; framework.FailurePolicy := "allow";
                    framework.PollInterval := 0 |}))
      ["spec"; "failurePolicy"] = NFound failurePolicy
    /\ failurePolicy = "allow".
Proof.
  destruct (BuildEngine_defaults "" "default" "e1"
              {| framework.RuleSetName := "rs"; framework.RuleSetNamespace := "";
                 framework.GatewayName := "gw1";
                 framework.WorkloadLabels := None;
                 framework.WasmImage := ""; framework.FailurePolicy := "allow";
                 framework.PollInterval := 0 |})
    as (_ & _ & _ & _ & (failurePolicy & H & _ & Hset) & _).
  exists failurePolicy. split; [exact H |]. apply Hset. discriminate.
Defined.

(** X28. The workload selector [BuildEngine] builds: labels given in the
    options are the selector as they are, a gateway name being ignored;
    without labels, a gateway name gives the selector the gateway-name label
    the controller uses for its own Engines, with that name as its value and
    no other label. *)
Theorem BuildEngine_selector (CORAZA_WASM_IMAGE namespace name : string)
    (opts : framework.EngineOpts) :
  let obj := framework.BuildEngine CORAZA_WASM_IMAGE namespace name opts in
  (forall workloadLabels k,
     framework.WorkloadLabels opts = Some workloadLabels ->
     NestedFieldNoCopy (VMap (Object obj)) (matchLabels_path ++ [k])%list
     = match workloadLabels !! k with
       | Some v => NFound (VString v)
       | None => NAbsent
       end)
  /\ (framework.WorkloadLabels opts = None -> framework.GatewayName opts <> "" ->
      NestedString (Object obj) (matchLabels_path ++ [gatewayNameLabel])%list
      = NFound (framework.GatewayName opts)
      /\ forall k, k <> gatewayNameLabel ->
           NestedFieldNoCopy (VMap (Object obj)) (matchLabels_path ++ [k])%list
           = NAbsent).
Proof.
  cbn zeta.
  assert (forall k,
            NestedFieldNoCopy
              (VMap (Object (framework.BuildEngine CORAZA_WASM_IMAGE namespace
                               name opts)))
              (matchLabels_path ++ [k])%list
            = match match framework.WorkloadLabels opts with
                    | Some labels => labels
                    | None =>
                        if decide (framework.GatewayName opts <> "")
                        then {[ gatewayNameLabel := framework.GatewayName opts ]}
                        else {[ "app" := "gateway" ]}
                    end !! k with
              | Some v => NFound (VString v)
              | None => NAbsent
              end) as Hl.
  { intros k. rewrite <- labels_value_lookup.
    apply NestedFieldNoCopy_app. reflexivity. }
  split.
  - intros workloadLabels k E. rewrite Hl, E. reflexivity.
  - intros E Hg. split.
    + unfold NestedString. rewrite Hl, E.
      destruct (decide (framework.GatewayName opts <> "")); [| contradiction].
      rewrite lookup_singleton_eq. reflexivity.
    + intros k Hk. rewrite Hl, E.
      destruct (decide (framework.GatewayName opts <> "")); [| contradiction].
      rewrite lookup_singleton_ne by congruence. reflexivity.
Qed.

Lemma BuildEngine_selector_witness :
  NestedString
    (Object (framework.BuildEngine "" "default" "e1"
               {| framework.RuleSetName := "rs"; framework.RuleSetNamespace := "";
                  framework.GatewayName := "gw1";
                  framework.WorkloadLabels := None;
                  framework.WasmImage := ""; framework.FailurePolicy := "";
                  framework.PollInterval := 0 |}))
    (matchLabels_path ++ [gatewayNameLabel])%list
  = NFound "gw1".
Proof.
  exact (proj1 (proj2 (BuildEngine_selector "" "default" "e1"
                         {| framework.RuleSetName := "rs";
                            framework.RuleSetNamespace := "";
                            framework.GatewayName := "gw1";
                            framework.WorkloadLabels := None;
                            framework.WasmImage := "";
                            framework.FailurePolicy := "";
                            framework.PollInterval := 0 |})
                  eq_refl ltac:(discriminate))).
Defined.

(** X29. [BuildRuleSet] keeps the rules in their order, one entry for each:
    the entry of a rule holds its apiVersion, kind and name, and a namespace
    exactly when the rule has one. *)
Theorem BuildRuleSet_rules (namespace name : string)
    (rules : list framework.RuleRef) :
  let obj := framework.BuildRuleSet namespace name rules in
  GetName obj = name /\ GetNamespace obj = namespace
  /\ exists entries,
       NestedSlice (Object obj) ["spec"; "rules"] = NFound entries
       /\ length entries = length rules
       /\ forall i rule,
            rules !! i = Some rule ->
            exists m,
              entries !! i = Some (VMap m)
              /\ NestedString m ["apiVersion"] = NFound (framework.APIVersion rule)
              /\ NestedString m ["kind"] = NFound (framework.Kind rule)
              /\ NestedString m ["name"] = NFound (framework.Name rule)
              /\ NestedString m ["namespace"]
                 = (if decide (framework.Namespace rule = "") then NAbsent
                    else NFound (framework.Namespace rule)).
Proof.
  cbn zeta. split; [reflexivity |]. split; [reflexivity |].
  exists (framework.rule_value <$> rules). split; [reflexivity |].
  split; [apply length_fmap |].
  intros i rule Hi. rewrite list_lookup_fmap, Hi. unfold framework.rule_value.
  eexists. split; [reflexivity |].
  destruct (decide (framework.Namespace rule <> "")) as [E | E].
  - destruct (decide (framework.Namespace rule = "")); [contradiction |].
    repeat split; reflexivity.
  - destruct (decide (framework.Namespace rule = "")); [| contradiction].
    repeat split; reflexivity.
Qed.

Lemma BuildRuleSet_rules_witness :
  exists entries m,
    NestedSlice
      (Object (framework.BuildRuleSet "default" "rs"
                 [ {| framework.APIVersion := "v1"; framework.Kind := "ConfigMap";
                      framework.Name := "rules"; framework.Namespace := "" |} ]))
      ["spec"; "rules"] = NFound entries
    /\ entries !! 0%nat = Some (VMap m)
    /\ NestedString m ["name"] = NFound "rules"
    /\ NestedString m ["namespace"] = NAbsent.
Proof.
  destruct (BuildRuleSet_rules "default" "rs"
              [ {| framework.APIVersion := "v1"; framework.Kind := "ConfigMap";
                   framework.Name := "rules"; framework.Namespace := "" |} ])
    as (_ & _ & entries & H & _ & Hi).
  destruct (Hi 0%nat _ eq_refl) as (m & Hm & _ & _ & Hn & Hns).
  exists entries, m. auto.
Defined.

(* ------------------------------------------------------------------------- *)
(** ** Engine synthesis: what ensureEngine writes, and when *)
(* ------------------------------------------------------------------------- *)

(** On the object [ensureEngine] starts from the mutate function never
    fails: the owner is in the namespace of the object, which has no
    controller yet, and the key stays. *)
Lemma mutate_engineObject (r : WAFPolicyReconciler) (policy : WAFPolicy)
    (workloadLabels : gmap string string) :
  exists engine,
    mutate (engineMutateFn r policy workloadLabels)
      (ObjectKeyFromObject (engineObject policy)) (engineObject policy)
    = (engine, None).
Proof.
  unfold mutate, engineMutateFn, SetControllerReference.
  assert (validateOwner policy
            (with_eSpec (engineObject policy)
               (engineSpec r policy workloadLabels)) = None) as ->.
  { unfold validateOwner. cbn [eNamespace with_eSpec engineObject].
    destruct (decide (Namespace policy = "")); [reflexivity |].
    destruct (decide (Namespace policy = Namespace policy));
      [reflexivity | contradiction]. }
  unfold GetControllerOf. cbn [eOwnerReferences with_eSpec engineObject].
  rewrite filter_nil. cbn [head].
  unfold upsertOwnerRef. cbn [eOwnerReferences with_eSpec engineObject indexOwnerRef].
  match goal with
  | |- context [decide (?a = ?b)] => destruct (decide (a = b)) as [| n]
  end; [eexists; reflexivity | exfalso; apply n; reflexivity].
Qed.

(** Why the mutate function fails on an Engine that was found. *)
Lemma mutate_error_cause (r : WAFPolicyReconciler) (policy : WAFPolicy)
    (workloadLabels : gmap string string) (existing o : Engine) (e : error) :
  mutate (engineMutateFn r policy workloadLabels)
    (ObjectKeyFromObject (engineObject policy)) existing = (o, Some e) ->
  foreign_controlled policy existing
  \/ ObjectKeyFromObject existing <> derived_key policy.
Proof.
  unfold mutate.
  destruct (engineMutateFn r policy workloadLabels existing) as [o' [e' |]] eqn:Ef.
  - intros _. unfold engineMutateFn, SetControllerReference in Ef.
    change {| orAPIVersion := GroupVersion_String WAFPolicy_GVK;
              orKind := Kind WAFPolicy_GVK; orName := Name policy;
              orUID := UID policy; orController := Some true;
              orBlockOwnerDeletion := Some true |}
      with (policy_owner_ref policy) in Ef.
    destruct (validateOwner policy _) eqn:Ev.
    + right. unfold validateOwner in Ev. cbn [eNamespace with_eSpec] in Ev.
      intros E. apply (f_equal nnNamespace) in E. cbn in E.
      destruct (decide (Namespace policy = "")); [discriminate |].
      destruct (decide (eNamespace existing = "")); [congruence |].
      destruct (decide (Namespace policy = eNamespace existing));
        [discriminate | congruence].
    + unfold GetControllerOf in Ef. cbn [eOwnerReferences with_eSpec] in Ef.
      destruct (head (filter (fun ref => orController ref = Some true)
                        (eOwnerReferences existing))) as [other |] eqn:Eg;
        [| discriminate].
      destruct (referSameObject other (policy_owner_ref policy)) eqn:Es;
        [discriminate |].
      left. exists other. split; [exact Eg | exact Es].
  - destruct (decide (ObjectKeyFromObject (engineObject policy)
                      = ObjectKeyFromObject o')) as [| n]; [discriminate |].
    intros _. right. intros E. apply n.
    unfold engineMutateFn in Ef.
    apply SetControllerReference_frame in Ef as (_ & Hn & Hns).
    cbn [eName eNamespace with_eSpec] in Hn, Hns.
    unfold ObjectKeyFromObject in *. rewrite Hn, Hns. rewrite E. reflexivity.
Qed.

Lemma engine_synthesized_mono (P Q : Engine -> Prop) (policy : WAFPolicy)
    (tr : list Event) (res : Result * option error) :
  (forall engine, P engine -> Q engine) ->
  engine_synthesized P policy tr res -> engine_synthesized Q policy tr res.
Proof.
  intros HPQ (got & tr' & -> & H). exists got, tr'. split; [reflexivity |].
  destruct got as [existing | e].
  - destruct H as [(engine & updated & rest & -> & HP & HF) | [[HP HF] | H]].
    + left. exists engine, updated, rest. auto.
    + right. left. auto.
    + right. right. exact H.
  - destruct (IsNotFound e); [| exact H].
    destruct H as (engine & created & rest & -> & HP & HF).
    exists engine, created, rest. auto.
Qed.

Lemma status_phase_no_engine (patch : Call) (l : list Call) :
  Forall (status_phase_call patch) l -> Forall (fun c => ~ is_engine_call c) l.
Proof.
  intros H. eapply Forall_impl; [exact H |]. intros [] Hc; simpl in *; tauto.
Qed.

(** Every run of [ensureEngine] synthesizes the derived Engine. *)
Lemma ensureEngine_synthesizes (r : WAFPolicyReconciler) (policy : WAFPolicy)
    (workloadLabels : gmap string string) (tr : list Event)
    (res : Result * option error) :
  Runs (ensureEngine r policy workloadLabels) tr res ->
  engine_synthesized (derived_engine r policy workloadLabels) policy tr res.
Proof.
  intros H.
  apply ensureEngine_Runs in H
    as (tr1 & op & err & engine & tr2 & cs & patched & H1 & -> & _ & H2 & Hk & _).
  apply status_phase_no_engine in H2.
  assert (forall o,
            mutate (engineMutateFn r policy workloadLabels)
              (ObjectKeyFromObject (engineObject policy)) o = (o, None) \/
            (exists o0, mutate (engineMutateFn r policy workloadLabels)
                          (ObjectKeyFromObject (engineObject policy)) o0 = (o, None)) ->
            derived_engine r policy workloadLabels o) as Hderived.
  { intros o Hm.
    assert (exists o0, mutate (engineMutateFn r policy workloadLabels)
                         (ObjectKeyFromObject (engineObject policy)) o0 = (o, None))
      as (o0 & Em) by (destruct Hm; eauto).
    apply mutate_ok in Em as [Ef Ek].
    split; [| split].
    - apply (f_equal nnName) in Ek. symmetry. exact Ek.
    - apply (f_equal nnNamespace) in Ek. symmetry. exact Ek.
    - eapply engineMutateFn_engine_of_policy. exact Ef. }
  unfold CreateOrUpdate in H1. cbn [bind call Runs] in H1.
  destruct H1 as (got & tr1' & -> & H1).
  exists got, (tr1' ++ tr2)%list. split; [reflexivity |].
  destruct got as [existing | e].
  - destruct (mutate (engineMutateFn r policy workloadLabels)
                (ObjectKeyFromObject (engineObject policy)) existing)
      as [o [e |]] eqn:Em.
    + destruct H1 as [-> [= _ -> _]]. right. right.
      split; [exact (mutate_error_cause _ _ _ _ _ _ Em) |].
      destruct Hk as [_ ->]. split; [discriminate | exact H2].
    + destruct (decide (existing = o)) as [<- | Hne].
      * destruct H1 as [-> _]. right. left.
        split; [apply Hderived; left; exact Em | exact H2].
      * cbn [bind call Runs] in H1. destruct H1 as (updated & tr'' & -> & H1).
        assert (tr'' = []) as -> by (destruct updated; destruct H1; assumption).
        left. exists o, updated, tr2.
        split; [reflexivity |]. split; [apply Hderived; right; eauto | exact H2].
  - destruct (IsNotFound e); cbn [negb] in H1.
    + destruct (mutate_engineObject r policy workloadLabels) as (o & Em).
      rewrite Em in H1. cbn [bind call Runs] in H1.
      destruct H1 as (created & tr'' & -> & H1).
      assert (tr'' = []) as -> by (destruct created; destruct H1; assumption).
      exists o, created, tr2.
      split; [reflexivity |]. split; [apply Hderived; right; eauto | exact H2].
    + destruct H1 as [-> [= _ -> _]]. destruct Hk as [_ ->].
      split; [reflexivity | exact H2].
Qed.

(** C1. Every run of [ensureEngine] synthesizes an Engine with the name
    "wafpolicy-" followed by the policy's name, in the policy's namespace.
    The run first gets the Engine under that name and namespace.  When the
    get answers not-found, the next call creates an Engine with that name
    and namespace.  When the get finds an Engine, the next call updates it
    under that name and namespace, or the Engine found has them already and
    is left as it is, or the Engine belongs to another controller or is not
    under the key asked for and the run returns an error.  No other Engine
    call follows, and every Engine call of the run carries that name and
    namespace. *)
Theorem ensureEngine_engine_identity (r : WAFPolicyReconciler)
    (policy : WAFPolicy) (workloadLabels : gmap string string)
    (tr : list Event) (res : Result * option error) :
  Runs (ensureEngine r policy workloadLabels) tr res ->
  Forall (engine_identity policy) (calls tr)
  /\ engine_synthesized
       (fun engine => eName engine = "wafpolicy-" +:+ Name policy
                      /\ eNamespace engine = Namespace policy)
       policy tr res.
Proof.
  intros H. split.
  - apply ensureEngine_Runs in H
      as (tr1 & op & err & engine & tr2 & cs & patched & H1 & -> & _ & H2 & _).
    unfold calls. rewrite map_app. apply Forall_app. split.
    + eapply Forall_impl; [exact (CreateOrUpdate_calls _ _ _ _ H1) |].
      intros [] Hc; simpl in *; try exact I.
      * subst key. auto.
      * destruct Hc as [[= Hns Hn] _]. auto.
      * destruct Hc as [[= Hns Hn] _]. auto.
    + eapply Forall_impl; [exact H2 |].
      intros [] Hc; simpl in *; solve [exact I | contradiction].
  - eapply engine_synthesized_mono; [| exact (ensureEngine_synthesizes _ _ _ _ _ H)].
    intros engine (Hn & Hns & _). auto.
Qed.

Lemma ensureEngine_engine_identity_witness :
  Runs (ensureEngine Demo.reconciler Demo.gw_policy ∅)
    (trace_of (Demo.run_in [] false (ensureEngine Demo.reconciler Demo.gw_policy ∅)))
    (result_of (Demo.run_in [] false (ensureEngine Demo.reconciler Demo.gw_policy ∅)))
  /\ engine_synthesized
       (fun engine => eName engine = "wafpolicy-test-gw"
                      /\ eNamespace engine = "default")
       Demo.gw_policy
       (trace_of (Demo.run_in [] false (ensureEngine Demo.reconciler Demo.gw_policy ∅)))
       (result_of (Demo.run_in [] false (ensureEngine Demo.reconciler Demo.gw_policy ∅))).
Proof.
  split; [exact (run_Runs Cluster.env _ (Demo.cluster [] false)) |].
  exact (proj2 (ensureEngine_engine_identity _ _ _ _ _
                  (run_Runs Cluster.env _ (Demo.cluster [] false)))).
Defined.

(* ------------------------------------------------------------------------- *)
(** ** The target lookup of a pass *)
(* ------------------------------------------------------------------------- *)

(** A call of a pass that is not a call on the policy itself belongs to the
    calls after the policy phase, which are a run of [reconcileTarget] on
    the policy the pass goes on with. *)
Lemma Reconcile_target_phase (r : WAFPolicyReconciler) (req : NamespacedName)
    (tr : list Event) (res : Result * option error) (ev : Event) :
  Runs (Reconcile r req) tr res ->
  In ev tr ->
  (forall key, call_of ev <> Get_WAFPolicy key) ->
  (forall obj, call_of ev <> Update_WAFPolicy obj) ->
  exists policy pre rest,
    tr = (pre ++ rest)%list /\ policy_phase req policy pre
    /\ Runs (reconcileTarget r policy) rest res /\ In ev rest.
Proof.
  intros H Hin Hget Hupd. apply Reconcile_cases in H as (got & tr' & -> & H).
  destruct Hin as [<- | Hin]; [exfalso; eapply Hget; reflexivity |].
  destruct got as [policy | e]; [| destruct H as [-> _]; destruct Hin].
  destruct (negb (DeletionTimestamp_IsZero policy)).
  { apply handleDeletion_cases in H as [-> | (updated & ->)]; [destruct Hin |].
    destruct Hin as [<- | []]. exfalso. eapply Hupd. reflexivity. }
  destruct (ContainsFinalizer policy wafPolicyFinalizer).
  - exists policy, [event (Get_WAFPolicy req) (Ok policy)], tr'.
    split; [reflexivity |]. split; [left; reflexivity | auto].
  - destruct H as (updated & tr'' & -> & H).
    destruct Hin as [<- | Hin]; [exfalso; eapply Hupd; reflexivity |].
    destruct updated as [policy' | e]; [| destruct H as [-> _]; destruct Hin].
    exists policy',
      [event (Get_WAFPolicy req) (Ok policy);
       event (Update_WAFPolicy (AddFinalizer policy wafPolicyFinalizer)) (Ok policy')],
      tr''.
    split; [reflexivity |]. split; [right; eauto | auto].
Qed.

Lemma lookup_event_eq (key key' : NamespacedName) (into into' : Unstructured)
    (got got' : answer Unstructured) :
  event (Get_Unstructured key into) got = event (Get_Unstructured key' into') got' ->
  key = key' /\ into = into' /\ got = got'.
Proof.
  intros E. pose proof (event_call _ _ _ _ E) as Ec. injection Ec as -> ->.
  apply event_inj in E. auto.
Qed.

(** The lookup of the target is the first call of target resolution, under
    the policy's namespace and target name, into the shell of the target's
    kind. *)
Lemma reconcileTarget_lookup (r : WAFPolicyReconciler) (policy : WAFPolicy)
    (tr : list Event) (res : Result * option error) (key : NamespacedName)
    (into : Unstructured) (got : answer Unstructured) :
  Runs (reconcileTarget r policy) tr res ->
  In (event (Get_Unstructured key into) got) tr ->
  exists rest,
    tr = event (Get_Unstructured key into) got :: rest
    /\ key = target_key policy
    /\ ((into = gatewayShell /\ trKind (TargetRef (Spec policy)) = "Gateway"
         /\ Runs (reconcileForGateway r policy) tr res)
        \/ (into = routeShell /\ trKind (TargetRef (Spec policy)) = "HTTPRoute"
            /\ Runs (reconcileForHTTPRoute r policy) tr res)).
Proof.
  intros H Hin.
  apply reconcileTarget_cases in H as [[Hk H] | [[Hk H] | (_ & _ & H)]].
  - pose proof H as H'.
    apply reconcileForGateway_cases in H' as (got' & tr' & -> & Hc).
    destruct Hin as [E | Hin].
    + apply lookup_event_eq in E as (<- & <- & <-). exists tr'. auto 6.
    + exfalso. revert Hin. apply target_get_once.
      destruct got' as [gw | e0]; [eapply ensureEngine_no_target; exact Hc |].
      destruct (IsNotFound e0).
      * eapply Forall_impl; [exact (refused_no_target _ _ _ _ _ Hc) |]. simpl. tauto.
      * destruct Hc as [-> _]. constructor.
  - pose proof H as H'.
    apply reconcileForHTTPRoute_no_target in H' as (got' & tr' & -> & HF).
    destruct Hin as [E | Hin].
    + apply lookup_event_eq in E as (<- & <- & <-). exists tr'. auto 8.
    + exfalso. revert Hin. apply target_get_once. exact HF.
  - exfalso. revert Hin. apply target_get_once.
    eapply Forall_impl; [exact (refused_no_target _ _ _ _ _ H) |]. simpl. tauto.
Qed.

(** The lookup of the target in a pass: what came before it is the policy
    phase, and from it on the calls are target resolution for the policy the
    pass goes on with. *)
Lemma Reconcile_lookup (r : WAFPolicyReconciler) (req : NamespacedName)
    (tr : list Event) (res : Result * option error) (key : NamespacedName)
    (into : Unstructured) (got : answer Unstructured) :
  Runs (Reconcile r req) tr res ->
  In (event (Get_Unstructured key into) got) tr ->
  exists policy pre rest,
    tr = (pre ++ event (Get_Unstructured key into) got :: rest)%list
    /\ policy_phase req policy pre
    /\ key = target_key policy
    /\ ((into = gatewayShell /\ trKind (TargetRef (Spec policy)) = "Gateway"
         /\ Runs (reconcileForGateway r policy)
              (event (Get_Unstructured key into) got :: rest) res)
        \/ (into = routeShell /\ trKind (TargetRef (Spec policy)) = "HTTPRoute"
            /\ Runs (reconcileForHTTPRoute r policy)
                 (event (Get_Unstructured key into) got :: rest) res)).
Proof.
  intros H Hin.
  destruct (Reconcile_target_phase _ _ _ _ _ H Hin)
    as (policy & pre & rest0 & -> & Hpre & Ht & Hin'); try discriminate.
  destruct (reconcileTarget_lookup _ _ _ _ _ _ _ Ht Hin') as (rest & -> & Hkey & Hc).
  exists policy, pre, rest. auto.
Qed.

Lemma policy_phase_calls (req : NamespacedName) (policy : WAFPolicy)
    (pre : list Event) :
  policy_phase req policy pre ->
  Forall (fun c => ~ is_engine_call c /\ ~ is_unstructured_call c
                   /\ ~ is_status_write c) (calls pre).
Proof.
  intros [-> | (fetched & ->)]; repeat constructor; simpl; tauto.
Qed.

Lemma derived_engine_selects (r : WAFPolicyReconciler) (policy : WAFPolicy)
    (gatewayName : string) (engine : Engine) :
  derived_engine r policy {[ gatewayNameLabel := gatewayName ]} engine ->
  selects_gateway gatewayName (eSpec engine).
Proof. intros (_ & _ & -> & _). apply engineSpec_selects. Qed.

Lemma ensureEngine_synthesizes_selecting (r : WAFPolicyReconciler)
    (policy : WAFPolicy) (gatewayName : string) (tr : list Event)
    (res : Result * option error) :
  Runs (ensureEngine r policy {[ gatewayNameLabel := gatewayName ]}) tr res ->
  engine_synthesized (fun engine => selects_gateway gatewayName (eSpec engine))
    policy tr res.
Proof.
  intros H.
  eapply engine_synthesized_mono; [| exact (ensureEngine_synthesizes _ _ _ _ _ H)].
  intros engine. apply derived_engine_selects.
Qed.

(** C8. For a policy whose HTTPRoute was found: when the route has no
    [spec.parentRefs], an empty one, or one that is not a list, the pass
    refuses the policy with reason NoParentGateway; when the first entry is
    not a map, or is a map without a non-empty string under "name", it
    refuses with reason InvalidParentRef; otherwise the rest of the pass is
    [ensureEngine] with the gateway-name label set to the name of the first
    parent, and it synthesizes an Engine that selects workloads by that
    label value: after a not-found get of the Engine the next call creates
    such an Engine, and after a get that finds one the next call updates it
    to such an Engine unless it is one already or cannot be adopted; every
    Engine it creates or updates selects workloads by that label value.  A
    refusal writes [Accepted=False] with the reason and makes no Engine
    call. *)
Theorem HTTPRoute_parent_resolution (r : WAFPolicyReconciler)
    (policy : WAFPolicy) (key : NamespacedName) (into route : Unstructured)
    (tr : list Event) (res : Result * option error) :
  Runs (reconcileForHTTPRoute r policy)
    (event (Get_Unstructured key into) (Ok route) :: tr) res ->
  let parentRefs := NestedSlice (Object route) ["spec"; "parentRefs"] in
  (parentRefs = NAbsent \/ parentRefs = NFound [] \/ (exists e, parentRefs = NError e) ->
   refused policy "NoParentGateway" false tr res)
  /\ (forall first rest,
        parentRefs = NFound (first :: rest) ->
        (forall m, first <> VMap m)
        \/ (exists m, first = VMap m
                      /\ nested_string (NestedString m ["name"]) = "") ->
        refused policy "InvalidParentRef" false tr res)
  /\ (forall firstParent rest gatewayName,
        parentRefs = NFound (VMap firstParent :: rest) ->
        NestedString firstParent ["name"] = NFound gatewayName ->
        gatewayName <> "" ->
        Runs (ensureEngine r policy {[ gatewayNameLabel := gatewayName ]}) tr res
        /\ Forall (engine_selects gatewayName) (calls tr)
        /\ engine_synthesized
             (fun engine => selects_gateway gatewayName (eSpec engine))
             policy tr res).
Proof.
  intros H. apply reconcileForHTTPRoute_cases in H as (got & tr' & E & H).
  assert (key = target_key policy /\ into = routeShell) as [-> ->].
  { pose proof (f_equal (fun l => match l with
                                     | x :: _ => Some (call_of x)
                                     | [] => None
                                     end) E) as Ec.
    simpl in Ec. injection Ec as -> ->. auto. }
  apply cons_event_inj in E as [<- <-]. cbn zeta.
  destruct (NestedSlice (Object route) ["spec"; "parentRefs"])
    as [[| first rest] | | e]; (split; [| split]).
  - intros _. exact H.
  - intros ? ? [=].
  - intros ? ? ? [=].
  - intros [[=] | [[=] | (e & [=])]].
  - intros first' rest' [= <- <-] [Hshape | (m & -> & Hname)].
    + destruct first; try exact H. exfalso. eapply Hshape. reflexivity.
    + cbn zeta in H. rewrite Hname in H.
      destruct (decide ("" = "")); [exact H | congruence].
  - intros firstParent rest' gatewayName [= -> <-] Hname Hne.
    cbn zeta in H. rewrite Hname in H. cbn [nested_string] in H.
    destruct (decide (gatewayName = "")); [contradiction |].
    split; [exact H |]. split; [eapply ensureEngine_selects; exact H |].
    eapply ensureEngine_synthesizes_selecting. exact H.
  - intros _. exact H.
  - intros ? ? [=].
  - intros ? ? ? [=].
  - intros _. exact H.
  - intros ? ? [=].
  - intros ? ? ? [=].
Qed.

Lemma HTTPRoute_parent_resolution_witness :
  Runs (reconcileForHTTPRoute Demo.reconciler Demo.route_policy)
    (event (Get_Unstructured (Demo.key "r1") routeShell) (Ok Demo.route)
     :: tail (trace_of Demo.route_pass))
    (result_of Demo.route_pass)
  /\ NestedSlice (Object Demo.route) ["spec"; "parentRefs"]
     = NFound [VMap [("name", VString "gw1")]]
  /\ NestedString [("name", VString "gw1")] ["name"] = NFound "gw1"
  /\ "gw1" <> ""
  /\ Forall (engine_selects "gw1") (calls (tail (trace_of Demo.route_pass)))
  /\ engine_synthesized (fun engine => selects_gateway "gw1" (eSpec engine))
       Demo.route_policy (tail (trace_of Demo.route_pass))
       (result_of Demo.route_pass).
Proof.
  assert (Runs (reconcileForHTTPRoute Demo.reconciler Demo.route_policy)
            (event (Get_Unstructured (Demo.key "r1") routeShell) (Ok Demo.route)
             :: tail (trace_of Demo.route_pass))
            (result_of Demo.route_pass)) as H
    by exact (run_Runs Cluster.env
                (reconcileForHTTPRoute Demo.reconciler Demo.route_policy)
                (Demo.cluster [Demo.gateway; Demo.route] false)).
  split; [exact H |]. split; [reflexivity |]. split; [reflexivity |].
  split; [discriminate |].
  exact (proj2 (proj2 (proj2 (HTTPRoute_parent_resolution _ _ _ _ _ _ _ H))
                  [("name", VString "gw1")] [] "gw1" eq_refl eq_refl
                  ltac:(discriminate))).
Defined.

(** X19. In every pass in which the lookup of a Gateway finds one, whatever
    the Gateway object holds and whether or not the pass attached the
    finalizer first, the policy of the pass targets a Gateway under the key
    looked up, and the calls after the lookup are [ensureEngine] with the
    gateway-name label set to the target name: it synthesizes an Engine
    that selects workloads by that label value, and every Engine it creates
    or updates selects workloads by it. *)
Theorem Reconcile_gateway_found (r : WAFPolicyReconciler) (req : NamespacedName)
    (tr : list Event) (res : Result * option error) (key : NamespacedName)
    (gw : Unstructured) :
  Runs (Reconcile r req) tr res ->
  In (event (Get_Unstructured key gatewayShell) (Ok gw)) tr ->
  exists policy pre rest,
    tr = (pre ++ event (Get_Unstructured key gatewayShell) (Ok gw) :: rest)%list
    /\ policy_phase req policy pre
    /\ trKind (TargetRef (Spec policy)) = "Gateway"
    /\ key = target_key policy
    /\ Runs (ensureEngine r policy (gateway_labels policy)) rest res
    /\ Forall (engine_selects (trName (TargetRef (Spec policy)))) (calls rest)
    /\ engine_synthesized
         (fun engine =>
            selects_gateway (trName (TargetRef (Spec policy))) (eSpec engine))
         policy rest res.
Proof.
  intros H Hin.
  destruct (Reconcile_lookup _ _ _ _ _ _ _ H Hin)
    as (policy & pre & rest & -> & Hpre & -> & [(_ & Hk & Hc) | (E & _)]);
    [| exfalso; exact (shells_differ E)].
  apply reconcileForGateway_cases in Hc as (got & tr' & E & Hc).
  apply cons_event_inj in E as [<- <-].
  exists policy, pre, rest. split; [reflexivity |]. split; [exact Hpre |].
  split; [exact Hk |]. split; [reflexivity |]. split; [exact Hc |].
  split; [eapply ensureEngine_selects; exact Hc |].
  eapply ensureEngine_synthesizes_selecting. exact Hc.
Qed.

Lemma Reconcile_gateway_found_witness :
  Runs (Reconcile Demo.reconciler (Demo.key "test-new"))
    (trace_of (run Cluster.env (Reconcile Demo.reconciler (Demo.key "test-new"))
                 fresh_cluster))
    (result_of (run Cluster.env (Reconcile Demo.reconciler (Demo.key "test-new"))
                  fresh_cluster))
  /\ exists policy pre rest,
       trace_of (run Cluster.env (Reconcile Demo.reconciler (Demo.key "test-new"))
                   fresh_cluster)
       = (pre ++ event (Get_Unstructured (Demo.key "gw1") gatewayShell)
                   (Ok Demo.gateway) :: rest)%list
       /\ engine_synthesized
            (fun engine =>
               selects_gateway (trName (TargetRef (Spec policy))) (eSpec engine))
            policy rest
            (result_of (run Cluster.env
                          (Reconcile Demo.reconciler (Demo.key "test-new"))
                          fresh_cluster)).
Proof.
  split; [exact (run_Runs Cluster.env _ fresh_cluster) |].
  destruct (Reconcile_gateway_found Demo.reconciler (Demo.key "test-new")
              _ _ (Demo.key "gw1") Demo.gateway
              (run_Runs Cluster.env _ fresh_cluster))
    as (policy & pre & rest & E & _ & _ & _ & _ & _ & Hs).
  - right. right. left. reflexivity.
  - exists policy, pre, rest. split; [exact E | exact Hs].
Defined.

(** X20. In every pass in which the lookup of the target, Gateway or
    HTTPRoute, fails with an error other than not-found, whether or not the
    pass attached the finalizer first, the lookup is the last call of the
    pass: what came before it is the policy phase only, so no status was
    written, no event recorded and no Engine touched, and the pass returns
    that error as it is with an empty result. *)
Theorem Reconcile_target_get_error (r : WAFPolicyReconciler)
    (req : NamespacedName) (tr : list Event) (res : Result * option error)
    (key : NamespacedName) (into : Unstructured) (e : error) :
  Runs (Reconcile r req) tr res ->
  In (event (Get_Unstructured key into) (Err e)) tr ->
  IsNotFound e = false ->
  exists policy pre,
    tr = (pre ++ [event (Get_Unstructured key into) (Err e)])%list
    /\ policy_phase req policy pre
    /\ key = target_key policy
    /\ res = (Result_zero, Some e)
    /\ Forall (fun c => ~ is_engine_call c /\ ~ is_status_write c
                        /\ forall obj eventtype reason message,
                             c <> Recorder_Event obj eventtype reason message)
         (calls tr).
Proof.
  intros H Hin Hnf.
  destruct (Reconcile_lookup _ _ _ _ _ _ _ H Hin)
    as (policy & pre & rest & -> & Hpre & -> & Hc).
  assert (rest = [] /\ res = (Result_zero, Some e)) as [-> ->].
  { destruct Hc as [(-> & _ & Hc) | (-> & _ & Hc)].
    - apply reconcileForGateway_cases in Hc as (got & tr' & E & Hc).
      apply cons_event_inj in E as [<- <-]. rewrite Hnf in Hc. exact Hc.
    - apply reconcileForHTTPRoute_cases in Hc as (got & tr' & E & Hc).
      apply cons_event_inj in E as [<- <-]. rewrite Hnf in Hc. exact Hc. }
  exists policy, pre. split; [reflexivity |]. split; [exact Hpre |].
  split; [reflexivity |]. split; [reflexivity |].
  unfold calls. rewrite map_app. apply Forall_app. split.
  - destruct Hpre as [-> | (fetched & ->)]; repeat constructor;
      simpl; try tauto; discriminate.
  - repeat constructor; simpl; try tauto; discriminate.
Qed.

Lemma Reconcile_target_get_error_witness :
  Runs (Reconcile Demo.reconciler (Demo.key "test-new-route"))
    (trace_of (run timeout_new_env
                 (Reconcile Demo.reconciler (Demo.key "test-new-route")) tt))
    (result_of (run timeout_new_env
                  (Reconcile Demo.reconciler (Demo.key "test-new-route")) tt))
  /\ IsNotFound timeout_error = false
  /\ exists policy pre,
       trace_of (run timeout_new_env
                   (Reconcile Demo.reconciler (Demo.key "test-new-route")) tt)
       = (pre ++ [event (Get_Unstructured (Demo.key "r9") routeShell)
                    (Err timeout_error)])%list
       /\ policy_phase (Demo.key "test-new-route") policy pre
       /\ result_of (run timeout_new_env
                       (Reconcile Demo.reconciler (Demo.key "test-new-route")) tt)
          = (Result_zero, Some timeout_error).
Proof.
  split; [exact (run_Runs timeout_new_env _ tt) |]. split; [reflexivity |].
  destruct (Reconcile_target_get_error Demo.reconciler (Demo.key "test-new-route")
              _ _ (Demo.key "r9") routeShell timeout_error
              (run_Runs timeout_new_env _ tt))
    as (policy & pre & E & Hpre & _ & Hres & _).
  - right. right. left. reflexivity.
  - reflexivity.
  - exists policy, pre. auto.
Defined.

(** X21. In every pass in which the lookup of an HTTPRoute is answered
    not-found, whether or not the pass attached the finalizer first, the
    policy of the pass targets an HTTPRoute under the key looked up, the
    calls after the lookup refuse the policy with reason TargetNotFound
    (Accepted=False with that reason, no Programmed condition), the pass
    returns with [Requeue] set, and it makes no Engine call. *)
Theorem Reconcile_route_not_found (r : WAFPolicyReconciler)
    (req : NamespacedName) (tr : list Event) (res : Result * option error)
    (key : NamespacedName) (e : error) :
  Runs (Reconcile r req) tr res ->
  In (event (Get_Unstructured key routeShell) (Err e)) tr ->
  IsNotFound e = true ->
  exists policy pre rest,
    tr = (pre ++ event (Get_Unstructured key routeShell) (Err e) :: rest)%list
    /\ policy_phase req policy pre
    /\ trKind (TargetRef (Spec policy)) = "HTTPRoute"
    /\ key = target_key policy
    /\ refused policy "TargetNotFound" true rest res
    /\ fst res = {| Requeue := true; RequeueAfter := 0 |}
    /\ Forall (fun c => ~ is_engine_call c) (calls tr).
Proof.
  intros H Hin Hnf.
  destruct (Reconcile_lookup _ _ _ _ _ _ _ H Hin)
    as (policy & pre & rest & -> & Hpre & -> & [(E & _) | (_ & Hk & Hc)]);
    [exfalso; exact (shells_differ (eq_sym E)) |].
  apply reconcileForHTTPRoute_cases in Hc as (got & tr' & E & Hc).
  apply cons_event_inj in E as [<- <-]. rewrite Hnf in Hc.
  exists policy, pre, rest. split; [reflexivity |]. split; [exact Hpre |].
  split; [exact Hk |]. split; [reflexivity |]. split; [exact Hc |].
  split; [exact (proj1 (refused_requeue _ _ _ _ _ Hc)) |].
  unfold calls. rewrite map_app. apply Forall_app. split.
  - eapply Forall_impl; [exact (policy_phase_calls _ _ _ Hpre) |]. simpl. tauto.
  - constructor; [simpl; tauto |].
    eapply Forall_impl; [exact (refused_no_target _ _ _ _ _ Hc) |]. simpl. tauto.
Qed.

Lemma Reconcile_route_not_found_witness :
  Runs (Reconcile Demo.reconciler (Demo.key "test-new-route"))
    (trace_of (run Cluster.env
                 (Reconcile Demo.reconciler (Demo.key "test-new-route"))
                 new_route_cluster))
    (result_of (run Cluster.env
                  (Reconcile Demo.reconciler (Demo.key "test-new-route"))
                  new_route_cluster))
  /\ IsNotFound (Cluster.NewNotFound "r9") = true
  /\ exists policy pre rest,
       trace_of (run Cluster.env
                   (Reconcile Demo.reconciler (Demo.key "test-new-route"))
                   new_route_cluster)
       = (pre ++ event (Get_Unstructured (Demo.key "r9") routeShell)
                   (Err (Cluster.NewNotFound "r9")) :: rest)%list
       /\ refused policy "TargetNotFound" true rest
            (result_of (run Cluster.env
                          (Reconcile Demo.reconciler (Demo.key "test-new-route"))
                          new_route_cluster)).
Proof.
  split; [exact (run_Runs Cluster.env _ new_route_cluster) |].
  split; [reflexivity |].
  destruct (Reconcile_route_not_found Demo.reconciler (Demo.key "test-new-route")
              _ _ (Demo.key "r9") (Cluster.NewNotFound "r9")
              (run_Runs Cluster.env _ new_route_cluster))
    as (policy & pre & rest & E & _ & _ & _ & Hr & _).
  - right. right. left. reflexivity.
  - reflexivity.
  - exists policy, pre, rest. auto.
Defined.

(* ------------------------------------------------------------------------- *)
(** ** The status of a pass, by its outcome *)
(* ------------------------------------------------------------------------- *)

(** Target resolution as the code does it refines [spec_resolution]: the
    calls of [reconcileTarget] are the lookup of the target, when the kind
    has one, followed by a refusal with the reason the specification gives,
    by nothing when the lookup failed, or by [ensureEngine] for the Gateway
    the specification resolves. *)
Lemma reconcileTarget_resolution (r : WAFPolicyReconciler) (policy : WAFPolicy)
    (rest : list Event) (res : Result * option error) :
  Runs (reconcileTarget r policy) rest res ->
  exists looked_up,
    lookup_answer policy rest looked_up
    /\ match spec_resolution policy looked_up with
       | NotAccepted reason =>
           In reason resolution_reasons
           /\ exists requeue rest',
                (rest = rest'
                 \/ exists into,
                      rest = event (Get_Unstructured (target_key policy) into)
                               looked_up :: rest')
                /\ refused policy reason requeue rest' res
       | LookupFailed e =>
           exists into,
             rest = [event (Get_Unstructured (target_key policy) into) looked_up]
             /\ res = (Result_zero, Some e)
             /\ looked_up = Err e /\ IsNotFound e = false
       | ResolvedGateway gatewayName =>
           exists into rest',
             rest = event (Get_Unstructured (target_key policy) into) looked_up
                    :: rest'
             /\ Runs (ensureEngine r policy {[ gatewayNameLabel := gatewayName ]})
                  rest' res
       end.
Proof.
  intros H. unfold spec_resolution, lookup_answer. cbn zeta.
  apply reconcileTarget_cases in H as [[Hk H] | [[Hk H] | (Hg & Hr & H)]].
  - apply reconcileForGateway_cases in H as (got & tr' & -> & H).
    exists got. split; [split; [eauto | intros E; congruence] |].
    destruct (decide (trKind (TargetRef (Spec policy)) = "Gateway")) as [_ | Hd];
      [| contradiction].
    destruct got as [gw | e]; [eauto |].
    destruct (IsNotFound e) eqn:Hnf.
    + split; [simpl; auto |]. exists true, tr'. split; [right; eauto | exact H].
    + destruct H as [-> ->]. eauto.
  - apply reconcileForHTTPRoute_cases in H as (got & tr' & -> & H).
    exists got. split; [split; [intros E; congruence | eauto] |].
    destruct (decide (trKind (TargetRef (Spec policy)) = "Gateway")) as [Hd | _];
      [congruence |].
    destruct (decide (trKind (TargetRef (Spec policy)) = "HTTPRoute"))
      as [_ | Hd]; [| contradiction].
    assert (forall reason, In reason resolution_reasons ->
              refused policy reason false tr' res ->
              In reason resolution_reasons
              /\ exists requeue rest',
                   (event (Get_Unstructured (target_key policy) routeShell) got
                      :: tr' = rest'
                    \/ exists into,
                         event (Get_Unstructured (target_key policy) routeShell) got
                           :: tr'
                         = event (Get_Unstructured (target_key policy) into) got
                             :: rest')
                   /\ refused policy reason requeue rest' res) as Hrefused.
    { intros reason Hin Href. split; [exact Hin |].
      exists false, tr'. split; [right; eauto | exact Href]. }
    destruct got as [route | e].
    + destruct (NestedSlice (Object route) ["spec"; "parentRefs"])
        as [[| first rest'] | |];
        try (apply Hrefused; [simpl; tauto | exact H]).
      destruct first; try (apply Hrefused; [simpl; tauto | exact H]).
      cbn zeta in H.
      destruct (NestedString m ["name"]) as [name | |]; cbn [nested_string] in H.
      * destruct (decide (name = "")) as [Hd | Hd];
          [apply Hrefused; [simpl; tauto | exact H] | eauto].
      * destruct (decide ("" = "")) as [_ | Hd]; [| congruence].
        apply Hrefused; [simpl; tauto | exact H].
      * destruct (decide ("" = "")) as [_ | Hd]; [| congruence].
        apply Hrefused; [simpl; tauto | exact H].
    + destruct (IsNotFound e) eqn:Hnf.
      * split; [simpl; auto |]. exists true, tr'. split; [right; eauto | exact H].
      * destruct H as [-> ->]. eauto.
  - exists (Err (errors_New "")). split; [split; intros E; congruence |].
    destruct (decide (trKind (TargetRef (Spec policy)) = "Gateway")) as [Hd | _];
      [contradiction |].
    destruct (decide (trKind (TargetRef (Spec policy)) = "HTTPRoute"))
      as [Hd | _]; [contradiction |].
    split; [simpl; tauto |]. exists false, rest. split; [left; reflexivity | exact H].
Qed.

Lemma refused_patch (policy : WAFPolicy) (reason : string) (requeue : bool)
    (tr : list Event) (res : Result * option error) (obj base : WAFPolicy) :
  refused policy reason requeue tr res ->
  In (Status_Patch obj base) (calls tr) ->
  base = policy /\ writes_not_accepted reason obj.
Proof.
  intros (cs & patched & _ & Hw & HF & _) Hin.
  rewrite Forall_forall in HF. apply list_elem_of_In, HF in Hin.
  simpl in Hin. injection Hin as -> ->. auto.
Qed.

(** The one status [ensureEngine] writes, by the result of the
    create-or-update that starts it. *)
Lemma ensureEngine_patch (r : WAFPolicyReconciler) (policy : WAFPolicy)
    (workloadLabels : gmap string string) (tr : list Event)
    (res : Result * option error) :
  Runs (ensureEngine r policy workloadLabels) tr res ->
  exists tr1 tr2 op err engine,
    tr = (tr1 ++ tr2)%list
    /\ Runs (CreateOrUpdate (engineObject policy)
               (engineMutateFn r policy workloadLabels)) tr1 (op, err, engine)
    /\ (exists obj, In (Status_Patch obj policy) (calls tr))
    /\ forall obj base,
         In (Status_Patch obj base) (calls tr) ->
         base = policy
         /\ match err with
            | None => writes_accepted obj
            | Some e => writes_sync_failed obj base /\ snd res = Some e
            end.
Proof.
  intros H.
  apply ensureEngine_Runs in H
    as (tr1 & op & err & engine & tr2 & cs & patched & H1 & -> & Hp & H2 & Hk & _).
  exists tr1, tr2, op, err, engine. split; [reflexivity |]. split; [exact H1 |].
  split.
  { exists (with_Conditions policy cs). unfold calls. rewrite map_app.
    apply in_or_app. right. exact (in_map call_of _ _ Hp). }
  intros obj base Hin. unfold calls in Hin. rewrite map_app in Hin.
  apply in_app_or in Hin as [Hin | Hin].
  - pose proof (CreateOrUpdate_calls _ _ _ _ H1) as HF.
    rewrite Forall_forall in HF. apply list_elem_of_In, HF in Hin. destruct Hin.
  - rewrite Forall_forall in H2. apply list_elem_of_In, H2 in Hin.
    simpl in Hin. injection Hin as -> ->. split; [reflexivity |].
    destruct err; [destruct Hk as [Hw ->]; auto | apply Hk].
Qed.

Lemma condition_is_functional (conditions : list Condition) (t : string)
    (s s' : ConditionStatus) (reason reason' : string) :
  condition_is conditions t s reason -> condition_is conditions t s' reason' ->
  s = s' /\ reason = reason'.
Proof.
  intros (c & Hc & <- & <-) (c' & Hc' & <- & <-).
  rewrite Hc in Hc'. injection Hc' as <-. auto.
Qed.

Lemma outcome_status_accepted (o : outcome) (obj base : WAFPolicy)
    (res : Result * option error) :
  outcome_status o obj base res -> (writes_accepted obj <-> o = Synthesized).
Proof.
  intros H. split; [| intros ->; exact H].
  intros [Ha Hp]. destruct o as [| reason | e]; [reflexivity | |]; exfalso.
  - destruct H as [_ [Hn _]].
    destruct (condition_is_functional _ _ _ _ _ _ Ha Hn) as [[=] _].
  - destruct H as [[_ Hf] _].
    destruct (condition_is_functional _ _ _ _ _ _ Hp Hf) as [[=] _].
Qed.

(** The status patch of target resolution and Engine synthesis. *)
Lemma reconcileTarget_outcome (r : WAFPolicyReconciler) (policy : WAFPolicy)
    (rest : list Event) (res : Result * option error) :
  Runs (reconcileTarget r policy) rest res ->
  exists looked_up,
    lookup_answer policy rest looked_up
    /\ ((exists obj, In (Status_Patch obj policy) (calls rest))
        \/ exists into e,
             rest = [event (Get_Unstructured (target_key policy) into) (Err e)]
             /\ IsNotFound e = false)
    /\ forall obj base,
         In (Status_Patch obj base) (calls rest) ->
         base = policy
         /\ exists o,
              pass_outcome r policy looked_up rest o
              /\ outcome_status o obj base res.
Proof.
  intros H.
  destruct (reconcileTarget_resolution _ _ _ _ H) as (looked_up & Hl & Hres).
  exists looked_up. split; [exact Hl |]. unfold pass_outcome.
  destruct (spec_resolution policy looked_up) as [gatewayName | reason | e] eqn:Es.
  - destruct Hres as (into & rest' & -> & He).
    destruct (ensureEngine_patch _ _ _ _ _ He)
      as (tr1 & tr2 & op & err & engine & -> & H1 & (obj0 & Hin0) & Hp).
    split; [left; exists obj0; right; exact Hin0 |].
    intros obj base [E | Hin]; [discriminate E |].
    destruct (Hp obj base Hin) as [-> Hm]. split; [reflexivity |].
    exists (match err with None => Synthesized | Some e => SynthesisFailed e end).
    split.
    + exists (event (Get_Unstructured (target_key policy) into) looked_up),
        tr1, tr2, op, err, engine. auto.
    + destruct err; exact Hm.
  - destruct Hres as (Hreason & requeue & rest' & Hshape & Hr).
    pose proof Hr as (cs & patched & Hpin & _).
    assert (forall obj base, In (Status_Patch obj base) (calls rest) ->
              In (Status_Patch obj base) (calls rest')) as Hin'.
    { intros obj base Hin. destruct Hshape as [-> | (into & ->)]; [exact Hin |].
      destruct Hin as [E | Hin]; [discriminate E | exact Hin]. }
    split.
    + left. exists (with_Conditions policy cs).
      apply (in_map call_of) in Hpin.
      destruct Hshape as [-> | (into & ->)]; [exact Hpin | right; exact Hpin].
    + intros obj base Hin. apply Hin' in Hin.
      destruct (refused_patch _ _ _ _ _ _ _ Hr Hin) as [-> Hw].
      split; [reflexivity |]. exists (Refused reason). split; [reflexivity |].
      split; assumption.
  - destruct Hres as (into & -> & -> & -> & Hnf).
    split; [right; eauto |].
    intros obj base [E | []]. discriminate E.
Qed.

(** C3, amended.  In every pass, each status written is the status of the
    outcome of the pass.  The patch is based on the policy the pass goes on
    with after the policy phase; the outcome follows target resolution as
    the specification words it, on the answer the pass got to the lookup of
    the target.  A refusal of target resolution writes [Accepted=False] with
    the reason of that refusal (TargetNotFound, NoParentGateway,
    InvalidParentRef or InvalidTargetRef) and no [Programmed] condition.
    For a resolved Gateway, a create-or-update of the Engine that succeeded
    writes [Accepted=True] and [Programmed=True]; one that failed leaves
    [Accepted] as it was, writes [Programmed=False] with reason
    EngineSyncFailed, and the pass returns the error.  [Accepted=True] with
    [Programmed=True] is written exactly when the outcome is that both
    succeeded.  And every pass writes a status, unless the get of the policy
    failed, the policy is under deletion, the update that attaches the
    finalizer failed, or the lookup of the target failed with an error other
    than not-found. *)
Theorem Accepted_by_outcome (r : WAFPolicyReconciler) (req : NamespacedName)
    (tr : list Event) (res : Result * option error) :
  Runs (Reconcile r req) tr res ->
  (forall obj base,
     In (Status_Patch obj base) (calls tr) ->
     exists policy pre rest looked_up o,
       tr = (pre ++ rest)%list
       /\ policy_phase req policy pre
       /\ base = policy
       /\ lookup_answer policy rest looked_up
       /\ pass_outcome r policy looked_up rest o
       /\ outcome_status o obj base res
       /\ (writes_accepted obj <-> o = Synthesized))
  /\ ((exists obj base, In (Status_Patch obj base) (calls tr))
      \/ (exists e, tr = [event (Get_WAFPolicy req) (Err e)])
      \/ (exists fetched tr',
            tr = event (Get_WAFPolicy req) (Ok fetched) :: tr'
            /\ DeletionTimestamp_IsZero fetched = false)
      \/ (exists obj e, In (event (Update_WAFPolicy obj) (Err e)) tr)
      \/ (exists key into e,
            In (event (Get_Unstructured key into) (Err e)) tr
            /\ IsNotFound e = false)).
Proof.
  intros H. split.
  - intros obj base Hin. unfold calls in Hin.
    apply in_map_iff in Hin as (ev & Ec & Hin).
    destruct (Reconcile_target_phase _ _ _ _ _ H Hin)
      as (policy & pre & rest & -> & Hpre & Ht & Hin');
      try (intros ?; rewrite Ec; discriminate).
    destruct (reconcileTarget_outcome _ _ _ _ Ht) as (looked_up & Hl & _ & Ho).
    apply (in_map call_of) in Hin'. rewrite Ec in Hin'.
    destruct (Ho obj base Hin') as (-> & o & Hpass & Hstatus).
    exists policy, pre, rest, looked_up, o.
    split; [reflexivity |]. split; [exact Hpre |]. split; [reflexivity |].
    split; [exact Hl |]. split; [exact Hpass |]. split; [exact Hstatus |].
    eapply outcome_status_accepted. exact Hstatus.
  - assert (forall policy pre rest,
              Runs (reconcileTarget r policy) rest res ->
              (exists obj base, In (Status_Patch obj base) (calls (pre ++ rest)))
              \/ (exists key into e,
                    In (event (Get_Unstructured key into) (Err e)) (pre ++ rest)
                    /\ IsNotFound e = false)) as Htarget.
    { intros policy pre rest Ht.
      destruct (reconcileTarget_outcome _ _ _ _ Ht)
        as (looked_up & _ & [(obj & Hin) | (into & e & -> & Hnf)] & _).
      - left. exists obj, policy. unfold calls. rewrite map_app.
        apply in_or_app. right. exact Hin.
      - right. exists (target_key policy), into, e. split; [| exact Hnf].
        apply in_or_app. right. left. reflexivity. }
    apply Reconcile_cases in H as (got & tr' & -> & H).
    destruct got as [policy | e]; [| destruct H as [-> _]; right; left; eauto].
    destruct (DeletionTimestamp_IsZero policy) eqn:Hz; cbn [negb] in H;
      [| right; right; left; eauto].
    destruct (ContainsFinalizer policy wafPolicyFinalizer).
    + destruct (Htarget policy [event (Get_WAFPolicy req) (Ok policy)] tr' H)
        as [Hp | Hl]; [left; exact Hp | right; right; right; right; exact Hl].
    + destruct H as (updated & tr'' & -> & H).
      destruct updated as [policy' | e].
      * destruct (Htarget policy'
                    [event (Get_WAFPolicy req) (Ok policy);
                     event (Update_WAFPolicy
                              (AddFinalizer policy wafPolicyFinalizer)) (Ok policy')]
                    tr'' H)
          as [Hp | Hl]; [left; exact Hp | right; right; right; right; exact Hl].
      * right. right. right. left.
        exists (AddFinalizer policy wafPolicyFinalizer), e. right. left. reflexivity.
Qed.

Lemma Accepted_by_outcome_witness :
  Runs (Reconcile Demo.reconciler (Demo.key "test-gw"))
    (trace_of Demo.sync_failure) (result_of Demo.sync_failure)
  /\ forall obj base,
       In (Status_Patch obj base) (calls (trace_of Demo.sync_failure)) ->
       exists policy pre rest looked_up o,
         trace_of Demo.sync_failure = (pre ++ rest)%list
         /\ policy_phase (Demo.key "test-gw") policy pre
         /\ base = policy
         /\ lookup_answer policy rest looked_up
         /\ pass_outcome Demo.reconciler policy looked_up rest o
         /\ outcome_status o obj base (result_of Demo.sync_failure)
         /\ (writes_accepted obj <-> o = Synthesized).
Proof.
  split; [exact (run_Runs Cluster.env _ (Demo.cluster [Demo.gateway] true)) |].
  exact (proj1 (Accepted_by_outcome Demo.reconciler (Demo.key "test-gw")
                  (trace_of Demo.sync_failure) (result_of Demo.sync_failure)
                  (run_Runs Cluster.env _ (Demo.cluster [Demo.gateway] true)))).
Defined.

(* ------------------------------------------------------------------------- *)
(** ** createOrUpdate on an object without a namespace *)
(* ------------------------------------------------------------------------- *)



